(** * VisualMesh training: a shallow embedding of [training/training.py],
    of the callbacks [callbacks/one_cycle.py] and
    [callbacks/classification_images.py], and of the bilinear sampler of
    [dataset/example/image.py]

    Part I holds the model of the code, function by function: the elementary
    TensorFlow ops, the loss engine ([_loss]), the metrics engine
    ([_metrics]), the multi-device merger ([_merge_ops]), the structure specs
    of the training graph builder ([_build_training_graph]), the model
    exporter ([save_yaml_model]), the session and the training loop
    ([train]), the per-device graph ([_device_graph]), the validation
    summaries, the mesh drawer ([MeshDrawer]), the one-cycle callback
    ([OneCycle]), the image sampler ([Image._interpolate_gather]) and the
    progress images callback ([ClassificationImages]); then the predicates in
    which the properties are stated.
    Part II holds the properties of the training core, Part III those of the
    remaining functions and further properties of the core.

    Conventions.
    - Float tensors are rational vectors ([list Q]); a float scalar that the
      code may drive to a non-finite value is a [scalar] ([Fin q], [Inf] or
      [NaN]).  [Qdiv x 0] is [0] in Rocq whereas TensorFlow yields nan or
      inf: every statement about a plain rational quotient either shows its
      denominator nonzero or concerns an op whose division is safe
      ([tf.losses] uses [div_no_nan]).
    - TensorFlow ops that are transcendental ([softmax],
      [softmax_cross_entropy_with_logits_v2]) and the towers of the graph at
      run time are parameters of the sections that use them.
    - Python lists that are mutated through references live in a store;
      exceptions are results of type [res]. *)

From Stdlib Require DecimalString DecimalNat DecimalFacts.
From Stdlib Require Import ZArith QArith Qfield Qabs Qround Lia Lqa.
From stdpp Require Import base list strings sorting.

(* ================================================================= *)
(** * Part I: definitions                                             *)
(* ================================================================= *)

(* ----------------------------------------------------------------- *)
(** ** Scalars, vectors and elementary TensorFlow ops                 *)
(* ----------------------------------------------------------------- *)

(** A float scalar: finite, infinite (with its sign) or not-a-number. *)
Inductive scalar : Type :=
  | Fin (q : Q)
  | Inf (positive : bool)
  | NaN.

(** [tf.reduce_sum] of a vector, and [tf.add_n] of a list of scalars. *)
Definition reduce_sum (v : list Q) : Q := foldr Qplus 0%Q v.

(** [tf.size] of a vector, as a rational for use in quotients. *)
Definition size_Q {A} (v : list A) : Q := inject_Z (Z.of_nat (length v)).

(** [tf.reduce_mean]: the mean of an empty tensor is nan. *)
Definition reduce_mean (v : list Q) : scalar :=
  match v with
  | [] => NaN
  | _ => Fin (reduce_sum v / size_Q v)
  end.

Definition Qnonzero (q : Q) : bool := negb (Qeq_bool q 0).

(** [tf.count_nonzero] on a rational vector, on a float scalar (nan and inf
    differ from zero) and on an integer scalar. *)
Definition count_nonzero (v : list Q) : Z :=
  Z.of_nat (length (filter (fun q => Qnonzero q = true) v)).

Definition count_nonzero_scalar (s : scalar) : Z :=
  match s with
  | Fin q => if Qnonzero q then 1 else 0
  | Inf _ | NaN => 1
  end.

Definition count_nonzero_Z (z : Z) : Z := if (z =? 0)%Z then 0%Z else 1%Z.

Definition count_nonzero_Zs (v : list Z) : Z :=
  Z.of_nat (length (filter (fun z => z ≠ 0%Z) v)).

(** [tf.add_n] refuses an empty list of inputs (ValueError). *)
Definition add_n_Z (l : list Z) : option Z :=
  match l with
  | [] => None
  | z :: zs => Some (foldl Z.add z zs)
  end.

(** [tf.divide] of two int64 scalars is a true division in float64. *)
Definition tf_divide_Z (a b : Z) : scalar :=
  if (b =? 0)%Z then
    (if (a =? 0)%Z then NaN else Inf (0 <? a)%Z)
  else Fin (inject_Z a / inject_Z b).

(** [tf.where(cond)]: the indices at which a predicate holds, ascending. *)
Fixpoint where_from {A} (p : A → bool) (i : nat) (v : list A) : list nat :=
  match v with
  | [] => []
  | a :: v' => if p a then i :: where_from p (S i) v' else where_from p (S i) v'
  end.

Definition tf_where {A} (p : A → bool) (v : list A) : list nat := where_from p 0 v.

(** [tf.gather_nd(t, idx)] on a vector; an index out of range reads 0 (the
    accelerator behaviour; indices produced by [tf_where] over a tensor of the
    same length are always in range). *)
Definition gather_nd (t : list Q) (idx : list nat) : list Q :=
  map (fun j => default 0%Q (t !! j)) idx.

(** [tf.scatter_nd(idx, updates, shape)]: a zero vector of length [n] to which
    each update is added at its index. *)
Fixpoint scatter_nd (idx : list nat) (updates : list Q) (n : nat) : list Q :=
  match idx, updates with
  | j :: idx', u :: updates' => alter (Qplus u) j (scatter_nd idx' updates' n)
  | _, _ => replicate n 0%Q
  end.

(** [Y[:, i]]: column [i] of a points-by-classes matrix. *)
Definition column (Y : list (list Q)) (i : nat) : list Q :=
  map (fun row => default 0%Q (row !! i)) Y.

(** [tf.argmax(row)]: the first index holding the largest value. *)
Fixpoint argmax_from (best_i : nat) (best : Q) (i : nat) (row : list Q) : nat :=
  match row with
  | [] => best_i
  | x :: row' =>
      if Qle_bool x best then argmax_from best_i best (S i) row'
      else argmax_from i x (S i) row'
  end.

Definition argmax (row : list Q) : nat :=
  match row with
  | [] => 0
  | x :: row' => argmax_from 0 x 1 row'
  end.

(** A Python [dict] with string keys: insertion-ordered, assignment to an
    existing key keeps its position. *)
Abbreviation dict V := (list (string * V)) (only parsing).

Fixpoint dict_set {V} (d : dict V) (k : string) (v : V) : dict V :=
  match d with
  | [] => [(k, v)]
  | (k', v') :: d' => if decide (k' = k) then (k, v) :: d' else (k', v') :: dict_set d' k v
  end.

Fixpoint dict_get {V} (d : dict V) (k : string) : option V :=
  match d with
  | [] => None
  | (k', v') :: d' => if decide (k' = k) then Some v' else dict_get d' k
  end.

Definition dict_values {V} (d : dict V) : list V := map snd d.

(** A class descriptor of [config.network.classes]: its name and its colour. *)
Definition class_desc : Type := string * (Z * Z * Z).

(* ----------------------------------------------------------------- *)
(** ** Python values, exceptions and the configuration                *)
(* ----------------------------------------------------------------- *)

(** The exceptions the modelled code can raise.  [OutOfFuel] is not a Python
    exception: it is the result of a loop of the model that was given too
    little fuel, and [train] never returns it. *)
Inductive exn : Type :=
  | IndexError
  | TypeError
  | AttributeError
  | KeyError
  | ValueError
  | RecursionError
  | ZeroDivisionError
  | OutOfRangeError
  | NameError (name : string)
  | OutOfFuel.

Inductive res (A : Type) : Type :=
  | Ok (a : A)
  | Raise (e : exn).
Arguments Ok {A}.
Arguments Raise {A}.

Global Instance res_ret : MRet res := @Ok.
Global Instance res_bind : MBind res := fun A B f m =>
  match m with
  | Ok a => f a
  | Raise e => Raise e
  end.

(** A Python value of a structure spec: an integer, or a reference to a list
    object of the store. *)
Inductive value : Type :=
  | VInt (z : Z)
  | VRef (l : nat).

(** The store: list object [l] is [s !! l]; allocation appends. *)
Abbreviation store := (list (list value)) (only parsing).

(** The fields of [config] that the training core reads. *)
Record config : Type := Config {
  network_classes : list class_desc;     (* config.network.classes *)
  network_structure : value;             (* config.network.structure *)
  tutor_structure : option value;        (* config.training.tutor.structure, if present *)
  tutor_threshold : Q;                   (* config.training.tutor.threshold *)
  tutor_base_weight : Q;                 (* config.training.tutor.base_weight *)
  epochs : nat;                          (* config.training.epochs *)
  validation_frequency : Z;              (* config.training.validation.frequency *)
  save_frequency : Z                     (* config.training.save_frequency *)
}.

(* ----------------------------------------------------------------- *)
(** ** Loss engine: [_loss]                                           *)
(* ----------------------------------------------------------------- *)

(** [tf.losses.mean_squared_error] with unit weights and the default
    reduction: the sum of squared differences over the number of elements,
    with a safe division (zero on an empty input). *)
Definition squared_difference (predictions labels : list Q) : list Q :=
  zip_with (fun p l => (p - l) * (p - l))%Q predictions labels.

Definition mean_squared_error (predictions labels : list Q) : Q :=
  let losses := squared_difference predictions labels in
  match losses with
  | [] => 0%Q
  | _ => (reduce_sum losses / size_Q losses)%Q
  end.

(** [tf.stop_gradient] is the identity on values. *)
Definition stop_gradient {A} (x : A) : A := x.

Section LossEngine.
Variable softmax : list (list Q) → list (list Q).
Variable softmax_cross_entropy_with_logits_v2 :
  list (list Q) → list (list Q) → list Q.

Variable config : config.

(** Labels for the tutor: half the squared distance of [Y] to [softmax X]. *)
Definition tutor_labels (X Y : list (list Q)) : list Q :=
  zip_with (fun y s => (reduce_sum (zip_with (fun a b => (a - b) * (a - b)) y s) / 2)%Q)
    Y (softmax X).

Definition tutor_idx (T labels : list Q) : list nat :=
  tf_where (fun d => negb (Qle_bool (Qabs d) (tutor_threshold config)))
    (zip_with Qminus labels T).

Definition tutor_loss_cut (T labels : list Q) : Q :=
  mean_squared_error (gather_nd T (tutor_idx T labels))
    (stop_gradient (gather_nd labels (tutor_idx T labels))).

Definition tutor_loss_full (T labels : list Q) : Q :=
  mean_squared_error T (stop_gradient labels).

Definition tutor_loss (T labels : list Q) : Q :=
  if (length (tutor_idx T labels) =? 0)%nat then tutor_loss_full T labels
  else tutor_loss_cut T labels.

(** One round of the class loop: the weights of class [i]. *)
Definition class_scatter (T : list Q) (Y : list (list Q)) (i : nat) : list Q :=
  let idx := tf_where Qnonzero (column Y i) in
  let pts := map (fun t => (t + tutor_base_weight config)%Q) (gather_nd T idx) in
  let pts := map (fun p => (p / reduce_sum pts)%Q) pts in
  let pts := scatter_nd idx pts (length T) in
  if (length idx =? 0)%nat then replicate (length T) 0%Q else pts.

Definition scatters (T : list Q) (Y : list (list Q)) : list (list Q) :=
  map (class_scatter T Y) (seq 0 (length (network_classes config))).

Definition active_classes (T : list Q) (Y : list (list Q)) : Z :=
  count_nonzero_Zs (map count_nonzero (scatters T Y)).

(** [tf.add_n] on vectors of one shape; an empty list is refused. *)
Definition add_n_vec (vs : list (list Q)) : option (list Q) :=
  match vs with
  | [] => None
  | v :: vs' => Some (foldl (zip_with Qplus) v vs')
  end.

Definition W (T : list Q) (Y : list (list Q)) : option (list Q) :=
  w ← add_n_vec (scatters T Y);
  Some (map (fun x => (x / inject_Z (active_classes T Y))%Q) w).

Definition _loss (X : list (list Q)) (T : list Q) (Y : list (list Q))
  : option (scalar * Q * Q) :=
  let unweighted_mesh_loss := softmax_cross_entropy_with_logits_v2 X Y in
  let labels := tutor_labels X Y in
  w ← W T Y;
  let weighted_mesh_loss :=
    reduce_sum (zip_with Qmult unweighted_mesh_loss (stop_gradient w)) in
  Some (reduce_mean unweighted_mesh_loss, weighted_mesh_loss, tutor_loss T labels).
End LossEngine.

(* ----------------------------------------------------------------- *)
(** ** Metrics engine: [_metrics]                                     *)
(* ----------------------------------------------------------------- *)

(** One value of the metrics mapping: [{'loss', 'tp', 'tn', 'fp', 'fn'}].  The
    four counts are integers cast to float32. *)
Record metric : Type := Metric {
  m_loss : scalar;
  m_tp : Z;
  m_tn : Z;
  m_fp : Z;
  m_fn : Z
}.

(** [tf.cast(tf.equal(tf.argmax(M, axis=1), i), tf.int32)] *)
Definition argmax_is (M : list (list Q)) (i : nat) : list Z :=
  map (fun row => if decide (argmax row = i) then 1%Z else 0%Z) M.

Section MetricsEngine.
Variable softmax : list (list Q) → list (list Q).
Variable softmax_cross_entropy_with_logits_v2 :
  list (list Q) → list (list Q) → list Q.

(** The body of the class loop for class [i]. *)
Definition class_metric (network_loss : list Q) (X Y : list (list Q)) (i : nat) : metric :=
  let predictions := argmax_is X i in
  let labels := argmax_is Y i in
  let tp := count_nonzero_Zs (zip_with Z.mul predictions labels) in
  let tn := count_nonzero_Zs (zip_with (fun p l => (p - 1) * (l - 1))%Z predictions labels) in
  let fp := count_nonzero_Zs (zip_with (fun p l => p * (l - 1))%Z predictions labels) in
  let fn := count_nonzero_Zs (zip_with (fun p l => (p - 1) * l)%Z predictions labels) in
  let class_loss := reduce_mean (gather_nd network_loss (tf_where Qnonzero (column Y i))) in
  {| m_loss := class_loss; m_tp := tp; m_tn := tn; m_fp := fp; m_fn := fn |}.

(** The class loop: [metrics[c[0]] = {...}] for [i, c in enumerate(classes)]. *)
Fixpoint class_loop (network_loss : list Q) (X Y : list (list Q))
    (i : nat) (classes : list class_desc) (metrics : dict metric) : dict metric :=
  match classes with
  | [] => metrics
  | c :: classes' =>
      class_loop network_loss X Y (S i) classes'
        (dict_set metrics (fst c) (class_metric network_loss X Y i))
  end.

(** The mapping as it stands when the class loop is over. *)
Definition per_class_metrics (X Y : list (list Q)) (classes : list class_desc) : dict metric :=
  let network_loss := softmax_cross_entropy_with_logits_v2 X Y in
  class_loop network_loss (softmax X) Y 0 classes [].

(** The aggregate entry, computed from the items of the mapping. *)
Definition global_metric (metrics : dict metric) : option metric :=
  let class_losses := map (fun m => count_nonzero_scalar (m_loss m)) (dict_values metrics) in
  active_classes ← add_n_Z (map count_nonzero_Z class_losses);
  total ← add_n_Z class_losses;
  tp ← add_n_Z (map m_tp (dict_values metrics));
  tn ← add_n_Z (map m_tn (dict_values metrics));
  fp ← add_n_Z (map m_fp (dict_values metrics));
  fn ← add_n_Z (map m_fn (dict_values metrics));
  Some {| m_loss := tf_divide_Z total active_classes;
          m_tp := tp; m_tn := tn; m_fp := fp; m_fn := fn |}.

Definition _metrics (X Y : list (list Q)) (classes : list class_desc) : option (dict metric) :=
  let metrics := per_class_metrics X Y classes in
  g ← global_metric metrics;
  Some (dict_set metrics "Global" g).
End MetricsEngine.

(* ----------------------------------------------------------------- *)
(** ** Multi-device merger: [_merge_ops]                              *)
(* ----------------------------------------------------------------- *)

(** A gradient entry of [optimiser.compute_gradients]: the gradient, or
    [None] when the loss does not depend on the variable, and the variable's
    name.  A gradient tensor is represented by a rational entry; [tf.add_n]
    and [tf.divide] act entrywise. *)
Abbreviation grad_entry := (option Q * string)%type (only parsing).

Record losses : Type := Losses {
  loss_u : scalar;
  loss_x : scalar;
  loss_t : scalar
}.

Record grads : Type := Grads {
  grads_x : list grad_entry;
  grads_t : list grad_entry
}.

(** One batch of the dataset iterator. *)
Record batch : Type := Batch {
  data_X : list (list Q);
  data_Y : list (list Q);
  data_G : list (list Z);
  data_W : list Q;
  data_n : list Z;
  data_px : list (list Q);
  data_raw : list string
}.

(** The op bundle: built per device by [_device_graph] with one batch, one
    prediction tensor and one tutor tensor; after [_merge_ops] these three
    fields are lists over the devices. *)
Record ops (D P U : Type) : Type := Ops {
  op_data : D;
  op_X : P;
  op_T : U;
  op_loss : losses;
  op_grads : grads;
  op_metrics : dict metric
}.
Arguments Ops {D P U}.
Arguments op_data {D P U}.
Arguments op_X {D P U}.
Arguments op_T {D P U}.
Arguments op_loss {D P U}.
Arguments op_grads {D P U}.
Arguments op_metrics {D P U}.

Definition device_bundle : Type := ops batch (list (list Q)) (list Q).
Definition merged_bundle : Type := ops (list batch) (list (list (list Q))) (list (list Q)).

(** Float addition and division by a device count on scalars. *)
Definition scalar_add (a b : scalar) : scalar :=
  match a, b with
  | NaN, _ | _, NaN => NaN
  | Fin x, Fin y => Fin (x + y)
  | Inf s, Fin _ | Fin _, Inf s => Inf s
  | Inf s, Inf s' => if decide (s = s') then Inf s else NaN
  end.

Definition add_n (l : list scalar) : option scalar :=
  match l with
  | [] => None
  | s :: l' => Some (foldl scalar_add s l')
  end.

Definition scalar_div (a : scalar) (n : nat) : scalar :=
  match a with
  | Fin x => Fin (x / inject_Z (Z.of_nat n))
  | other => other
  end.

(** Python's zip applied to the unpacked list of gradient lists: the rows of
    the transposition, cut at the shortest list. *)
Fixpoint heads_tails {A} (ls : list (list A)) : option (list A * list (list A)) :=
  match ls with
  | [] => Some ([], [])
  | [] :: _ => None
  | (x :: xs) :: ls' =>
      match heads_tails ls' with
      | Some (hs, ts) => Some (x :: hs, xs :: ts)
      | None => None
      end
  end.

Fixpoint zip_star_with {A} (l : list A) (ls : list (list A)) : list (list A) :=
  match l with
  | [] => []
  | x :: xs =>
      match heads_tails ls with
      | Some (hs, ts) => (x :: hs) :: zip_star_with xs ts
      | None => []
      end
  end.

Definition zip_star {A} (ls : list (list A)) : list (list A) :=
  match ls with
  | [] => []
  | l :: ls' => zip_star_with l ls'
  end.

(** The body of the gradient loop for one row [grads] of the zip. *)
Definition merge_row (n : nat) (row : list grad_entry) : option grad_entry :=
  if existsb (fun v => bool_decide (v.1 = None)) row then None
  else
    match row with
    | [] => None
    | v0 :: _ =>
        Some (Some (reduce_sum (omap fst row) / inject_Z (Z.of_nat n))%Q, v0.2)
    end.

Definition merge_grads (n : nat) (per_device : list (list grad_entry)) : list grad_entry :=
  omap (merge_row n) (zip_star per_device).

(** [_merge_metrics] on the two levels of the metrics mapping: the keys are
    those of the first device, every device must have them (KeyError
    otherwise), the leaves are added. *)
Definition merge_metric (ms : list metric) : option metric :=
  l ← add_n (map m_loss ms);
  tp ← add_n_Z (map m_tp ms);
  tn ← add_n_Z (map m_tn ms);
  fp ← add_n_Z (map m_fp ms);
  fn ← add_n_Z (map m_fn ms);
  Some {| m_loss := l; m_tp := tp; m_tn := tn; m_fp := fp; m_fn := fn |}.

Definition _merge_metrics (metrics : list (dict metric)) : option (dict metric) :=
  match metrics with
  | [] => None
  | first :: _ =>
      mapM (fun kv : string * metric =>
              ms ← mapM (fun m => dict_get m kv.1) metrics;
              r ← merge_metric ms;
              Some (kv.1, r)) first
  end.

Definition _merge_ops (device_ops : list device_bundle) : option merged_bundle :=
  let n := length device_ops in
  u_loss ← add_n (map (fun op => loss_u (op_loss op)) device_ops);
  x_loss ← add_n (map (fun op => loss_x (op_loss op)) device_ops);
  t_loss ← add_n (map (fun op => loss_t (op_loss op)) device_ops);
  let x_grads := merge_grads n (map (fun op => grads_x (op_grads op)) device_ops) in
  let t_grads := merge_grads n (map (fun op => grads_t (op_grads op)) device_ops) in
  metrics ← _merge_metrics (map op_metrics device_ops);
  let metrics :=
    map (fun km : string * metric =>
           (km.1, {| m_loss := scalar_div (m_loss km.2) n;
                     m_tp := m_tp km.2; m_tn := m_tn km.2;
                     m_fp := m_fp km.2; m_fn := m_fn km.2 |})) metrics in
  Some {| op_data := map op_data device_ops;
          op_X := map op_X device_ops;
          op_T := map op_T device_ops;
          op_loss := {| loss_u := scalar_div u_loss n;
                        loss_x := scalar_div x_loss n;
                        loss_t := scalar_div t_loss n |};
          op_grads := {| grads_x := x_grads; grads_t := t_grads |};
          op_metrics := metrics |}.

(** The merge stage of [_build_training_graph]:
    [_merge_ops(device_ops) if len(device_ops) > 1 else device_ops[0]].
    The result is a device bundle or a merged bundle; [None] stands for the
    exception of an empty device list or of a failed merge. *)
Definition merge_stage (device_ops : list device_bundle) : option (device_bundle + merged_bundle) :=
  if (1 <? length device_ops)%nat then inr <$> _merge_ops device_ops
  else inl <$> device_ops !! 0%nat.

(* ----------------------------------------------------------------- *)
(** ** Structure specs: [copy.deepcopy] and the output widths         *)
(* ----------------------------------------------------------------- *)

(** [memo.get(id(x))] *)
Fixpoint memo_get (memo : list (nat * nat)) (l : nat) : option nat :=
  match memo with
  | [] => None
  | (k, y) :: memo' => if decide (k = l) then Some y else memo_get memo' l
  end.

(** The loop of [_deepcopy_list]: [for a in x: y.append(deepcopy(a, memo))],
    [rec] being the recursive call and [y] the location of the copy. *)
Definition deepcopy_list_loop
    (rec : value → list (nat * nat) → store → res (value * list (nat * nat) * store))
    (y : nat) : list value → list (nat * nat) → store → res (list (nat * nat) * store) :=
  fix loop xs memo s :=
    match xs with
    | [] => Ok (memo, s)
    | a :: xs' =>
        match rec a memo s with
        | Ok (a', memo', s') => loop xs' memo' (alter (fun o => o ++ [a']) y s')
        | Raise e => Raise e
        end
    end.

(** [copy.deepcopy(x, memo)]: integers are atomic; a list that the memo knows
    is answered from the memo; another list gets a fresh empty copy, recorded
    in the memo before its elements are copied into it.  [fuel] bounds the
    nesting depth, as the interpreter's recursion limit does. *)
Fixpoint deepcopy (fuel : nat) (x : value) (memo : list (nat * nat)) (s : store)
    : res (value * list (nat * nat) * store) :=
  match x with
  | VInt z => Ok (VInt z, memo, s)
  | VRef l =>
      match memo_get memo l with
      | Some y => Ok (VRef y, memo, s)
      | None =>
          match fuel with
          | O => Raise RecursionError
          | S fuel' =>
              match s !! l with
              | None => Raise ValueError (* a dangling reference: no Python state has one *)
              | Some xs =>
                  let y := length s in
                  match deepcopy_list_loop (deepcopy fuel') y xs ((l, y) :: memo) (s ++ [[]]) with
                  | Ok (memo', s') => Ok (VRef y, memo', s')
                  | Raise e => Raise e
                  end
              end
          end
      end
  end.

(** [copy.deepcopy(x)] starts from an empty memo.  The nesting depth of a
    value is at most the number of objects of the store. *)
Definition copy_deepcopy (x : value) (s : store) : res (value * store) :=
  match deepcopy (S (length s)) x [] s with
  | Ok (y, _, s') => Ok (y, s')
  | Raise e => Raise e
  end.

(** [x[-1].append(k)] *)
Definition last_append (x : value) (k : Z) (s : store) : res store :=
  match x with
  | VInt _ => Raise TypeError
  | VRef l =>
      match s !! l with
      | None => Raise ValueError
      | Some xs =>
          match last xs with
          | None => Raise IndexError
          | Some (VInt _) => Raise AttributeError
          | Some (VRef l') =>
              if (l' <? length s)%nat then Ok (alter (fun o => o ++ [VInt k]) l' s)
              else Raise ValueError
          end
      end
  end.

(** The structure lines of [_build_training_graph]: the two copies, then the
    two output widths. *)
Definition build_structures (cfg : config) (s : store) : res (value * value * store) :=
  '(network, s) ← copy_deepcopy (network_structure cfg) s;
  '(tutor, s) ← match tutor_structure cfg with
                | Some t => copy_deepcopy t s
                | None => copy_deepcopy network s
                end;
  s ← last_append network (Z.of_nat (length (network_classes cfg))) s;
  s ← last_append tutor 1 s;
  Ok (network, tutor, s).

(** Reading a structure spec out of the store: a list of stages, each a list
    of layer widths; [None] when the value is not of that shape. *)
Definition read_stage (s : store) (v : value) : option (list Z) :=
  match v with
  | VInt _ => None
  | VRef r => xs ← s !! r; mapM (fun a => match a with VInt z => Some z | VRef _ => None end) xs
  end.

Definition read_structure (s : store) (v : value) : option (list (list Z)) :=
  match v with
  | VInt _ => None
  | VRef l => xs ← s !! l; mapM (read_stage s) xs
  end.

(** The list objects a structure spec is made of: the outer list and its
    stages. *)
Definition structure_objects (s : store) (v : value) : list nat :=
  match v with
  | VInt _ => []
  | VRef l =>
      l :: omap (fun a => match a with VRef r => Some r | VInt _ => None end)
             (default [] (s !! l))
  end.

(* ----------------------------------------------------------------- *)
(** ** Model exporter: [save_yaml_model]                              *)
(* ----------------------------------------------------------------- *)

Fixpoint strip_prefix_str (p s : string) : option string :=
  match p, s with
  | EmptyString, _ => Some s
  | String a p', String b s' => if decide (a = b) then strip_prefix_str p' s' else None
  | String _ _, EmptyString => None
  end.

(** The greedy [\d+] of the pattern with Python's [int] on the group. *)
Fixpoint read_digits (acc : nat) (s : string) : nat * string :=
  match s with
  | String a s' =>
      match Ascii.is_nat a with
      | Some d => read_digits (10 * acc + d) s'
      | None => (acc, s)
      end
  | EmptyString => (acc, s)
  end.

Definition read_int (s : string) : option (nat * string) :=
  match s with
  | String a s' =>
      match Ascii.is_nat a with
      | Some d => Some (read_digits d s')
      | None => None
      end
  | EmptyString => None
  end.

(** The key of a sorted item: [(int(group 1), int(group 2), group(3).lower())]. *)
Definition key : Type := nat * nat * string.

(** [re.match(r'Network/Conv_(\d+)/Layer_(\d+)/(Weights|Biases):0', k)]: the
    pattern is anchored at the start of the name only. *)
Definition parse_name (k : string) : option key :=
  r ← strip_prefix_str "Network/Conv_" k;
  '(c, r) ← read_int r;
  r ← strip_prefix_str "/Layer_" r;
  '(l, r) ← read_int r;
  r ← strip_prefix_str "/" r;
  match strip_prefix_str "Weights" r with
  | Some r' => _ ← strip_prefix_str ":0" r'; Some (c, l, "weights")
  | None => r' ← strip_prefix_str "Biases" r; _ ← strip_prefix_str ":0" r'; Some (c, l, "biases")
  end.

(** The order of Python tuples on keys: lexicographic, strings by code point. *)
Definition key_le (k1 k2 : key) : Prop :=
  let '(c1, l1, v1) := k1 in
  let '(c2, l2, v2) := k2 in
  c1 < c2 ∨ (c1 = c2 ∧ (l1 < l2 ∨ (l1 = l2 ∧ String.le v1 v2))).

Global Instance key_le_dec : RelDecision key_le.
Proof. intros [[c1 l1] v1] [[c2 l2] v2]. unfold key_le. apply _. Defined.

(** [l[i]] and the mutation of [l[i]] in place, with Python's negative
    indices and its IndexError. *)
Definition py_position {B} (l : list B) (i : Z) : res nat :=
  let j := if (i <? 0)%Z then (i + Z.of_nat (length l))%Z else i in
  if (j <? 0)%Z then Raise IndexError
  else if (Z.to_nat j <? length l)%nat then Ok (Z.to_nat j)
  else Raise IndexError.

Definition py_update {B} (l : list B) (i : Z) (f : B → res B) : res (list B) :=
  j ← py_position l i;
  match l !! j with
  | Some b => b' ← f b; Ok (<[j := b']> l)
  | None => Raise IndexError
  end.

Section Exporter.
(** The type of an array as [v.tolist()] gives it. *)
Context {A : Type}.

Record exporter_state : Type := ExporterState {
  output : list (list (dict A));
  conv : Z;
  layer : Z
}.

(** The items of the snapshot whose name matches the pattern. *)
Definition export_items (variables : dict A) : list (key * A) :=
  omap (fun kv : string * A => info ← parse_name kv.1; Some (info, kv.2)) variables.

(** [sorted(items)]; items whose keys tie would be ordered by their arrays,
    the model orders on the keys alone. *)
Definition item_le (a b : key * A) : Prop := key_le a.1 b.1.

Definition sorted_items (items : list (key * A)) : list (key * A) :=
  merge_sort item_le items.

(** The body of the loop over the sorted items. *)
Definition export_step (st : exporter_state) (item : key * A) : res exporter_state :=
  let '((c, l, var), v) := item in
  let st :=
    if decide (Z.of_nat c ≠ conv st)
    then {| output := output st ++ [[]]; conv := Z.of_nat c; layer := (-1)%Z |}
    else st in
  st ← (if decide (Z.of_nat l ≠ layer st)
        then out ← py_update (output st) (-1)%Z (fun row => Ok (row ++ [[]]));
             Ok {| output := out; conv := conv st; layer := Z.of_nat l |}
        else Ok st);
  out ← py_update (output st) (conv st)
          (fun row => py_update row (layer st) (fun d => Ok (dict_set d var v)));
  Ok {| output := out; conv := conv st; layer := layer st |}.

Fixpoint export_loop (st : exporter_state) (items : list (key * A)) : res exporter_state :=
  match items with
  | [] => Ok st
  | item :: items' => st' ← export_step st item; export_loop st' items'
  end.

(** [save_yaml_model]: the structure that is dumped to the YAML file. *)
Definition save_yaml_model (variables : dict A) : res (list (list (dict A))) :=
  st ← export_loop {| output := []; conv := (-1)%Z; layer := (-1)%Z |}
         (sorted_items (export_items variables));
  Ok (output st).
End Exporter.
Arguments exporter_state : clear implicits.

(* ----------------------------------------------------------------- *)
(** ** The session: variables, global step, optimisers, saver         *)
(* ----------------------------------------------------------------- *)

(** [global_step] is a [tf.int32] variable: its increment wraps around. *)
Definition int32_max : Z := (2 ^ 31 - 1)%Z.
Definition wrap_int32 (z : Z) : Z := ((z + 2 ^ 31) mod 2 ^ 32 - 2 ^ 31)%Z.

(** What the driver writes to the event log and to the terminal. *)
Inductive event : Type :=
  | TrainingSummary (step : Z)
  | PrintBatch (step : Z) (u t : scalar)
  | ValidationSummary (step : Z)
  | ImageSummary (step : Z)
  | CheckpointSaved (step : Z)
  | ModelExported (step : Z)
  | PrintTrainingDone.

(** A value stored in a checkpoint file. *)
Inductive saved : Type :=
  | SavedTensor (q : Q)
  | SavedInt (z : Z).

Record session : Type := Session {
  variables : dict Q;                      (* tf.trainable_variables(), by name *)
  global_step : Z;                         (* the variable named global_step:0 *)
  training_iterator : list batch;          (* what is left of the training dataset *)
  events : list event;                     (* summaries and prints, oldest first *)
  checkpoints : list (Z * dict saved);     (* files written by saver.save, oldest first *)
  yaml_models : list (Z * list (list (dict Q)))  (* files written by save_yaml_model *)
}.

Definition set_variables (vs : dict Q) (st : session) : session :=
  Session vs (global_step st) (training_iterator st) (events st) (checkpoints st) (yaml_models st).
Definition set_global_step (g : Z) (st : session) : session :=
  Session (variables st) g (training_iterator st) (events st) (checkpoints st) (yaml_models st).
Definition set_training_iterator (it : list batch) (st : session) : session :=
  Session (variables st) (global_step st) it (events st) (checkpoints st) (yaml_models st).
Definition log_event (e : event) (st : session) : session :=
  Session (variables st) (global_step st) (training_iterator st) (events st ++ [e])
    (checkpoints st) (yaml_models st).
Definition add_checkpoint (c : Z * dict saved) (st : session) : session :=
  Session (variables st) (global_step st) (training_iterator st) (events st)
    (checkpoints st ++ [c]) (yaml_models st).
Definition add_yaml_model (m : Z * list (list (dict Q))) (st : session) : session :=
  Session (variables st) (global_step st) (training_iterator st) (events st)
    (checkpoints st) (yaml_models st ++ [m]).

(** [optimiser.apply_gradients(grads_and_vars, global_step=...)]: every
    variable with a gradient is updated by the optimiser's rule; the global
    step is incremented when, and only when, it was passed. *)
Definition apply_gradients (rule : Q → Q → Q) (grads_and_vars : list grad_entry)
    (with_global_step : bool) (st : session) : session :=
  let vs :=
    foldl (fun (vs : dict Q) (gv : grad_entry) =>
             match gv.1, dict_get vs gv.2 with
             | Some g, Some x => dict_set vs gv.2 (rule x g)
             | _, _ => vs
             end) (variables st) grads_and_vars in
  let st := set_variables vs st in
  if with_global_step then set_global_step (wrap_int32 (global_step st + 1)) st else st.

(** [save_vars]: the trainable variables by name, updated with the global
    step under its own name; [saver.save] writes their values. *)
Definition save_vars (st : session) : dict saved :=
  dict_set (map (fun kv : string * Q => (kv.1, SavedTensor kv.2)) (variables st))
    "global_step:0" (SavedInt (global_step st)).

(** [saver.restore]: every saved variable is assigned from the file. *)
Definition restore_variable (file : dict saved) (kv : string * Q) : res (string * Q) :=
  match dict_get file kv.1 with
  | Some (SavedTensor q) => Ok (kv.1, q)
  | _ => Raise KeyError
  end.

Fixpoint restore_variables (file : dict saved) (vs : dict Q) : res (dict Q) :=
  match vs with
  | [] => Ok []
  | kv :: vs' =>
      kv' ← restore_variable file kv;
      vs'' ← restore_variables file vs';
      Ok (kv' :: vs'')
  end.

Definition saver_restore (file : dict saved) (st : session) : res session :=
  vs ← restore_variables file (variables st);
  match dict_get file "global_step:0" with
  | Some (SavedInt g) => Ok (set_global_step g (set_variables vs st))
  | _ => Raise KeyError
  end.

(* ----------------------------------------------------------------- *)
(** ** Training loop driver: [train]                                  *)
(* ----------------------------------------------------------------- *)

(** Code of the driver: it reads and writes the session and it may raise. *)
Definition M (A : Type) : Type := session → res A * session.

Global Instance M_ret : MRet M := fun A a st => (Ok a, st).
Global Instance M_bind : MBind M := fun A B f m st =>
  match m st with
  | (Ok a, st') => f a st'
  | (Raise e, st') => (Raise e, st')
  end.

Definition raise {A} (e : exn) : M A := fun st => (Raise e, st).
Definition lift {A} (r : res A) : M A := fun st => (r, st).
Definition get {A} (f : session → A) : M A := fun st => (Ok (f st), st).
Definition modify (f : session → session) : M unit := fun st => (Ok (), f st).

(** The names that [train] can read where the loop runs: the globals of the
    module, the builtins it uses and the locals that [train] assigns. *)
Definition module_globals : list string :=
  ["os"; "sys"; "random"; "tf"; "device_lib"; "copy"; "yaml"; "re"; "io"; "cv2";
   "time"; "np"; "mpl"; "plt"; "network"; "dataset"; "save_yaml_model";
   "MeshDrawer"; "_device_graph"; "_loss"; "_metrics"; "_merge_ops";
   "_build_training_graph"; "train"].

Definition builtins : list string :=
  ["print"; "len"; "int"; "float"; "list"; "type"; "dict"; "any"; "zip";
   "enumerate"; "range"; "sorted"; "open"].

Definition train_locals : list string :=
  ["config"; "output_path"; "gpus"; "ops"; "global_step"; "summary_writer";
   "save_vars"; "saver"; "training_dataset"; "training_ds_stats";
   "validation_dataset"; "image_dataset"; "tf_config"; "sess"; "model_path";
   "checkpoint_file"; "training_handle"; "validation_handle"; "image_handle";
   "start"; "output"; "end"; "summary"].

(** Reading a name: a NameError when nothing binds it. *)
Definition load_name (x : string) : M unit :=
  if decide (x ∈ train_locals ++ module_globals ++ builtins) then mret ()
  else raise (NameError x).

Fixpoint load_names (xs : list string) : M unit :=
  match xs with
  | [] => mret ()
  | x :: xs' => _ ← load_name x; load_names xs'
  end.

(** Python's [a % b] on integers. *)
Definition py_mod (a b : Z) : res Z :=
  if (b =? 0)%Z then Raise ZeroDivisionError else Ok (a mod b)%Z.

Inductive flow : Type := Continue | Break.

(** [try: body except tf.errors.OutOfRangeError: handler] *)
Definition try_except_OutOfRangeError {A} (body handler : M A) : M A := fun st =>
  match body st with
  | (Raise OutOfRangeError, st') => handler st'
  | r => r
  end.

(** [while True:] with the fuel of the model. *)
Fixpoint while_true (fuel : nat) (iteration : M flow) : M unit := fun st =>
  match fuel with
  | O => (Raise OutOfFuel, st)
  | S fuel' =>
      match iteration st with
      | (Ok Continue, st') => while_true fuel' iteration st'
      | (Ok Break, st') => (Ok (), st')
      | (Raise e, st') => (Raise e, st')
      end
  end.

Section Driver.
(** The towers of the graph at run time: from the variables and one batch
    per device, the merged losses and gradients of the step. *)
Variable run_towers : dict Q → list batch → losses * grads.
(** The update rules of the two optimisers: Adam for the network, plain
    gradient descent for the tutor. *)
Variable adam : Q → Q → Q.
Variable gradient_descent : Q → Q → Q.

Variable cfg : config.
(** [len(gpus)] *)
Variable devices : nat.

(** [optimise_mesh_op] and [optimise_tutor_op] of [_build_training_graph]. *)
Definition optimise_mesh_op (gs : grads) : session → session :=
  apply_gradients adam (grads_x gs) true.
Definition optimise_tutor_op (gs : grads) : session → session :=
  apply_gradients gradient_descent (grads_t gs) false.

(** [sess.run(ops['train'], feed_dict={ops['handle']: training_handle})]:
    every tower takes its batch from the iterator, which raises when it has
    none left; then both optimisers are applied. *)
Definition run_train : M losses := fun st =>
  let it := training_iterator st in
  if (length it <? devices)%nat then
    (Raise OutOfRangeError, set_training_iterator [] st)
  else
    let st := set_training_iterator (drop devices it) st in
    let '(ls, gs) := run_towers (variables st) (take devices it) in
    (Ok ls, optimise_tutor_op gs (optimise_mesh_op gs st)).

(** [saver.save(sess, model_path, step)] followed by
    [save_yaml_model(sess, output_path, step)]. *)
Definition save_model : M unit :=
  step ← get global_step;
  snapshot ← get save_vars;
  _ ← modify (add_checkpoint (step, snapshot));
  _ ← modify (log_event (CheckpointSaved step));
  vs ← get variables;
  exported ← lift (save_yaml_model vs);
  _ ← modify (add_yaml_model (step, exported));
  modify (log_event (ModelExported step)).

(** The body of the [try] block. *)
Definition training_step : M unit :=
  output ← run_train;
  step ← get global_step;
  _ ← modify (log_event (TrainingSummary step));
  _ ← modify (log_event (PrintBatch step (loss_u output) (loss_t output)));
  (* Every N steps do our validation/summary step *)
  r ← lift (py_mod step (validation_frequency cfg));
  _ ← (if (r =? 0)%Z then modify (log_event (ValidationSummary step)) else mret ());
  (* Every N steps save our model *)
  r ← lift (py_mod step (save_frequency cfg));
  if (r =? 0)%Z then save_model else mret ().

(** The body of the [except] block, name by name in evaluation order. *)
Definition wind_down : M unit :=
  (* summary, = sess.run([validation_summary], feed_dict={net['handle']: validation_handle}) *)
  _ ← load_names ["sess"; "validation_summary"; "net"; "validation_handle"];
  (* summary_writer.add_summary(summary, tf.train.global_step(sess, global_step)) *)
  _ ← load_names ["summary_writer"; "summary"; "tf"; "sess"; "global_step"];
  step ← get global_step;
  _ ← modify (log_event (ValidationSummary step));
  (* summary = sess.run(image_summary, feed_dict={net['handle']: image_handle}) *)
  _ ← load_names ["sess"; "image_summary"; "net"; "image_handle"];
  (* summary_writer.add_summary(summary, tf.train.global_step(sess, global_step)) *)
  _ ← load_names ["summary_writer"; "summary"; "tf"; "sess"; "global_step"];
  step ← get global_step;
  _ ← modify (log_event (ImageSummary step));
  (* saver.save(...); save_yaml_model(...) *)
  _ ← load_names ["saver"; "sess"; "model_path"; "tf"; "sess"; "global_step"];
  _ ← load_names ["save_yaml_model"; "sess"; "output_path"; "tf"; "sess"; "global_step"];
  _ ← save_model;
  _ ← load_name "print";
  modify (log_event PrintTrainingDone).

Definition iteration : M flow :=
  try_except_OutOfRangeError
    (_ ← training_step; mret Continue)
    (_ ← wind_down; mret Break).

(** The loop: an iteration consumes a batch or leaves the loop, so one more
    round than there are batches is enough fuel. *)
Definition training_loop : M unit := fun st =>
  while_true (S (length (training_iterator st))) iteration st.

End Driver.

(** [gpus = ['/device:CPU:0'] if len(gpus) == 0 else gpus] *)
Definition device_count (gpus : nat) : nat := if (gpus =? 0)%nat then 1 else gpus.

(** [train], for [gpus] accelerators found: the graph is built (which copies
    the structure specs), the variables are initialised and, when the output
    directory holds a checkpoint, restored from the latest one; then the loop
    runs over the training dataset repeated [epochs] times. *)
Definition train (run_towers : dict Q → list batch → losses * grads)
    (adam gradient_descent : Q → Q → Q) (cfg : config) (gpus : nat)
    (s : store) (initial : dict Q) (dataset : list batch)
    (disk : list (Z * dict saved)) : res unit * session :=
  let devices := device_count gpus in
  let st := Session initial 0 (concat (replicate (epochs cfg) dataset)) [] disk [] in
  match build_structures cfg s with
  | Raise e => (Raise e, st)
  | Ok _ =>
      match last disk with
      | Some (_, file) =>
          match saver_restore file st with
          | Ok st' => training_loop run_towers adam gradient_descent cfg devices st'
          | Raise e => (Raise e, st)
          end
      | None => training_loop run_towers adam gradient_descent cfg devices st
      end
  end.

(* ----------------------------------------------------------------- *)
(** ** Per-device graph: [_device_graph]                              *)
(* ----------------------------------------------------------------- *)

(** [tf.gather_nd(t, idx)] on a matrix: the rows at the indices; as on a
    vector, an index out of range reads zeros. *)
Definition gather_nd_rows (t : list (list Q)) (idx : list nat) : list (list Q) :=
  map (fun j => default (replicate (length (default [] (head t))) 0%Q) (t !! j)) idx.

(** [tf.squeeze(t, axis=-1)]: the last axis must have size one. *)
Definition squeeze (t : list (list Q)) : option (list Q) :=
  mapM (fun row => match row with [x] => Some x | _ => None end) t.

Section DeviceGraph.
Variable softmax : list (list Q) → list (list Q).
Variable softmax_cross_entropy_with_logits_v2 :
  list (list Q) → list (list Q) → list Q.
(** [network.build_network(X, G, structure)] under a variable scope: the
    output of the network of that structure, computed with the variables of
    the scope. *)
Variable build_network :
  string → dict Q → list (list Q) → list (list Z) → list (list Z) → list (list Q).
Variable sigmoid : Q → Q.
(** [optimiser.compute_gradients(loss)] for the two losses of the device:
    the gradient of the loss with respect to every trainable variable, as the
    differentiation of the graph gives it. *)
Variable compute_gradients_x : dict Q → batch → list grad_entry.
Variable compute_gradients_t : dict Q → batch → list grad_entry.

Definition _device_graph (vars : dict Q) (data : batch)
    (network_structure tutor_structure : list (list Z)) (config : config)
    : option device_bundle :=
  let X := build_network "Network" vars (data_X data) (data_G data) network_structure in
  T ← squeeze (build_network "Tutor" vars (data_X data) (data_G data) tutor_structure);
  let T := map sigmoid T in
  (* First eliminate points that were masked out with alpha *)
  let S := tf_where (fun w => negb (Qle_bool w 0)) (data_W data) in
  let X := gather_nd_rows X S in
  let Y := gather_nd_rows (data_Y data) S in
  let T := gather_nd T S in
  '(u_loss, x_loss, t_loss) ← _loss softmax softmax_cross_entropy_with_logits_v2 config X T Y;
  metrics ← _metrics softmax softmax_cross_entropy_with_logits_v2 X Y (network_classes config);
  let x_grads := compute_gradients_x vars data in
  let t_grads := compute_gradients_t vars data in
  Some {| op_data := data; op_X := X; op_T := T;
          op_loss := {| loss_u := u_loss; loss_x := Fin x_loss; loss_t := Fin t_loss |};
          op_grads := {| grads_x := x_grads; grads_t := t_grads |};
          op_metrics := metrics |}.
End DeviceGraph.

(* ----------------------------------------------------------------- *)
(** ** Validation summaries of [_build_training_graph]                *)
(* ----------------------------------------------------------------- *)

(** The quotient of two counts held as floats: nan for 0/0, infinite for a
    nonzero count over 0. *)
Definition count_ratio (a b : Z) : scalar := tf_divide_Z a b.

Section Summaries.
(** [str.title] *)
Variable title : string → string.

(** The scalars of the validation summary, each with the name scope it is
    created in and its tag: three for every item of the metrics mapping. *)
Definition validation_summary_op (metrics : dict metric) : list (string * string * scalar) :=
  concat (map (fun km : string * metric =>
                 let '(k, m) := km in
                 [(title k, "Loss", m_loss m);
                  (title k, "Precision", count_ratio (m_tp m) (m_tp m + m_fp m));
                  (title k, "Recall", count_ratio (m_tp m) (m_tp m + m_fn m))])
              metrics).
End Summaries.

(* ----------------------------------------------------------------- *)
(** ** Arrays: cumulative sums, ranges and slices                     *)
(* ----------------------------------------------------------------- *)

(** [np.cumsum] *)
Fixpoint cumsum_from (acc : Z) (ns : list Z) : list Z :=
  match ns with
  | [] => []
  | n :: ns' => (acc + n)%Z :: cumsum_from (acc + n) ns'
  end.

Definition np_cumsum (ns : list Z) : list Z := cumsum_from 0 ns.

(** [cs = [0] + np.cumsum(ns).tolist()] and [ranges = list(zip(cs, cs[1:]))] *)
Definition ranges (ns : list Z) : list (Z * Z) :=
  let cs := 0%Z :: np_cumsum ns in
  zip cs (tail cs).

(** A bound of a slice, as Python places it in a sequence of length [len]. *)
Definition slice_bound (len : nat) (i : Z) : nat :=
  if (i <? 0)%Z then Z.to_nat (Z.max (i + Z.of_nat len) 0)
  else Nat.min (Z.to_nat i) len.

(** [l[start:stop]] *)
Definition py_slice {A} (l : list A) (start stop : Z) : list A :=
  let a := slice_bound (length l) start in
  let b := slice_bound (length l) stop in
  take (b - a) (drop a l).

(** [l[i]] for an index that is not negative. *)
Definition py_index {A} (l : list A) (i : nat) : res A :=
  match l !! i with
  | Some a => Ok a
  | None => Raise IndexError
  end.

(** [enumerate(l)] *)
Definition enumerate {A} (l : list A) : list (nat * A) := zip (seq 0 (length l)) l.

(** [x[:, i]] on an array given by its rows. *)
Definition np_column (x : list (list Q)) (i : nat) : res (list Q) :=
  mapM (fun row => py_index row i) x.

(* ----------------------------------------------------------------- *)
(** ** Progress images: [MeshDrawer]                                  *)
(* ----------------------------------------------------------------- *)

(** The colours of a contour plot: one RGBA colour per level, or a colour
    map. *)
Inductive contour_colours : Type :=
  | Colors (rgba : list (Q * Q * Q * Q))
  | Cmap (name : string).

(** One call of [ax.tricontour(x, y, z, levels=..., colors=... or cmap=...)]. *)
Record tricontour : Type := Tricontour {
  tri_x : list Q;
  tri_y : list Q;
  tri_z : list Q;
  tri_levels : list Q;
  tri_colours : contour_colours
}.

Module MeshDrawer.
Section MeshDrawer.
(** An image as an array, and a matplotlib figure with its axes. *)
Context {Img Fig : Type}.
Variable shape : Img → list nat.
(** [cv2.cvtColor(cv2.imdecode(np.fromstring(raw, np.uint8), cv2.IMREAD_COLOR),
    cv2.COLOR_BGR2RGB)], which raises when the bytes hold no image. *)
Variable imdecode : string → res Img.
(** A figure of the size of the image, with the image as underlay. *)
Variable imshow : Img → res Fig.
(** [ax.tricontour(...)] *)
Variable ax_tricontour : Fig → tricontour → res Fig.
(** The axes set to the size of the image, the figure saved as a JPEG,
    decoded again and closed. *)
Variable savefig : Img → Fig → res Img.

(** [self.classes] *)
Variable classes : list class_desc.

(** [np.stack(images)]: at least one array, all of one shape. *)
Definition np_stack (images : list Img) : res (list Img) :=
  match images with
  | [] => Raise ValueError
  | i :: rest =>
      if forallb (fun j => bool_decide (shape j = shape i)) rest then Ok images
      else Raise ValueError
  end.

(** The contour plot of class [i] in [mesh_image]. *)
Definition class_contour (px : list (Q * Q)) (x : list (list Q)) (i : nat) (data : class_desc)
    : res tricontour :=
  let '(r, g, b) := data.2 in
  let r := (inject_Z r / 255)%Q in
  let g := (inject_Z g / 255)%Q in
  let b := (inject_Z b / 255)%Q in
  z ← np_column x i;
  Ok {| tri_x := map snd px; tri_y := map fst px; tri_z := z;
        tri_levels := [1 # 2; 3 # 4; 9 # 10]%Q;
        tri_colours := Colors [(r, g, b, 33 # 100); (r, g, b, 66 # 100); (r, g, b, 1)]%Q |}.

(** The class loop: [for i, data in enumerate(self.classes)]. *)
Fixpoint contour_loop (px : list (Q * Q)) (x : list (list Q)) (ics : list (nat * class_desc))
    (fig : Fig) : res Fig :=
  match ics with
  | [] => Ok fig
  | (i, data) :: ics' =>
      c ← class_contour px x i data;
      fig ← ax_tricontour fig c;
      contour_loop px x ics' fig
  end.

(** The body of the loop of [mesh_image] for image [batch]. *)
Definition mesh_image_body (pxs : list (list (Q * Q))) (ns : list Z) (X : list (list Q))
    (ranges : list (Z * Z)) (batch : nat) (raw : string) : res Img :=
  img ← imdecode raw;
  n ← py_index ns batch;
  row ← py_index pxs batch;
  let px := py_slice row 0 (n - 1) in       (* Skip the null point *)
  r ← py_index ranges batch;
  let x := py_slice X r.1 (r.2 - 1) in      (* Skip the null point *)
  fig ← imshow img;
  fig ← (if (2 <? length px)%nat then contour_loop px x (enumerate classes) fig else Ok fig);
  savefig img fig.

Definition mesh_image (raws : list string) (pxs : list (list (Q * Q))) (ns : list Z)
    (X : list (list Q)) : res (list Img) :=
  let ranges := ranges ns in
  images ← mapM (fun br : nat * string => mesh_image_body pxs ns X ranges br.1 br.2)
             (enumerate raws);
  np_stack images.

(** The body of the loop of [tutor_image] for image [batch]. *)
Definition tutor_image_body (pxs : list (list (Q * Q))) (ns : list Z) (A : list Q)
    (ranges : list (Z * Z)) (batch : nat) (raw : string) : res Img :=
  img ← imdecode raw;
  n ← py_index ns batch;
  row ← py_index pxs batch;
  let px := py_slice row 0 (n - 1) in       (* Skip the null point *)
  r ← py_index ranges batch;
  let a := py_slice A r.1 (r.2 - 1) in      (* Skip the null point *)
  fig ← imshow img;
  fig ← (if (2 <? length px)%nat then
           ax_tricontour fig
             {| tri_x := map snd px; tri_y := map fst px; tri_z := a;
                tri_levels := [0; 1 # 10; 2 # 10; 3 # 10; 4 # 10; 5 # 10;
                               6 # 10; 7 # 10; 8 # 10; 9 # 10; 1]%Q;
                tri_colours := Cmap "jet" |}
         else Ok fig);
  savefig img fig.

Definition tutor_image (raws : list string) (pxs : list (list (Q * Q))) (ns : list Z)
    (A : list Q) : res (list Img) :=
  let ranges := ranges ns in
  images ← mapM (fun br : nat * string => tutor_image_body pxs ns A ranges br.1 br.2)
             (enumerate raws);
  np_stack images.

(** What the two loop bodies amount to for one image, given the pixel
    coordinates [row] of the image and its own points [pts]: the image is
    drawn over its points but the last one, the null point. *)
Definition draw_mesh (raw : string) (row : list (Q * Q)) (pts : list (list Q)) : res Img :=
  img ← imdecode raw;
  let px := take (length pts - 1) row in
  let x := take (length pts - 1) pts in
  fig ← imshow img;
  fig ← (if (2 <? length px)%nat then contour_loop px x (enumerate classes) fig else Ok fig);
  savefig img fig.

Definition draw_tutor (raw : string) (row : list (Q * Q)) (pts : list Q) : res Img :=
  img ← imdecode raw;
  let px := take (length pts - 1) row in
  let a := take (length pts - 1) pts in
  fig ← imshow img;
  fig ← (if (2 <? length px)%nat then
           ax_tricontour fig
             {| tri_x := map snd px; tri_y := map fst px; tri_z := a;
                tri_levels := [0; 1 # 10; 2 # 10; 3 # 10; 4 # 10; 5 # 10;
                               6 # 10; 7 # 10; 8 # 10; 9 # 10; 1]%Q;
                tri_colours := Cmap "jet" |}
         else Ok fig);
  savefig img fig.
End MeshDrawer.
End MeshDrawer.

(* ----------------------------------------------------------------- *)
(** ** The one-cycle learning rate callback: [callbacks/one_cycle.py] *)
(* ----------------------------------------------------------------- *)

Module OneCycle.

(** A Python value held by a configuration mapping or an attribute: a number,
    a boolean, [None], or an object that is none of these (a module, a class,
    a function, an instance). *)
Inductive pyval : Type :=
  | PNone
  | PBool (b : bool)
  | PInt (z : Z)
  | PFloat (q : Q)
  | PObject (name : string).

(** [float(v)] and [int(v)] *)
Definition float (v : pyval) : res Q :=
  match v with
  | PBool b => Ok (if b then 1 else 0)%Q
  | PInt z => Ok (inject_Z z)
  | PFloat q => Ok q
  | PNone | PObject _ => Raise TypeError
  end.

Definition int (v : pyval) : res Z :=
  match v with
  | PBool b => Ok (if b then 1 else 0)%Z
  | PInt z => Ok z
  | PFloat q => Ok (Z.quot (Qnum q) (Z.pos (Qden q)))
  | PNone | PObject _ => Raise TypeError
  end.

(** The truth value of [v]. *)
Definition truth (v : pyval) : bool :=
  match v with
  | PNone => false
  | PBool b => b
  | PInt z => negb (z =? 0)%Z
  | PFloat q => negb (Qeq_bool q 0)
  | PObject _ => true
  end.

(** [config[k]] *)
Definition item (config : dict pyval) (k : string) : res pyval :=
  match dict_get config k with
  | Some v => Ok v
  | None => Raise KeyError
  end.

(** The names that the body of [__init__] can read: its parameters, the
    globals of the module, the builtins it uses. *)
Definition init_locals : list string := ["self"; "config"; "kwargs"].
Definition module_globals : list string := ["os"; "np"; "tf"; "OneCycle"].
Definition builtins : list string := ["super"; "float"; "int"].

(** Reading a name: the object it is bound to, a NameError when nothing
    binds it. *)
Definition load_name (x : string) : res pyval :=
  if decide (x ∈ init_locals ++ module_globals ++ builtins) then Ok (PObject x)
  else Raise (NameError x).

(** The attributes of the callback. *)
Record t : Type := Make {
  learning_rate : pyval;
  min_lr : Q;
  max_lr : Q;
  decay_lr : Q;
  cycle_batches : Z;
  decay_batches : Z;
  start_step : option Z
}.

(** What the callback touches of [self.model]. *)
Record model : Type := Model {
  optimizer_lr : Q;
  stop_training : bool
}.

Definition __init__ (config : dict pyval) : res t :=
  (* super(OneCycle, self).__init__() *)
  _ ← load_name "super"; _ ← load_name "OneCycle"; _ ← load_name "self";
  (* self.learning_rate = lr *)
  lr ← load_name "lr";
  (* lr ranges *)
  min_lr ← item config "min_learning_rate" ≫= float;
  max_lr ← item config "max_learning_rate" ≫= float;
  decay_lr ← item config "decay_learning_rate" ≫= float;
  (* Cycle size *)
  cycle_batches ← item config "cycle_batches" ≫= int;
  decay_batches ← item config "decay_batches" ≫= int;
  hot_start ← item config "hot_start";
  Ok {| learning_rate := lr; min_lr := min_lr; max_lr := max_lr; decay_lr := decay_lr;
        cycle_batches := cycle_batches; decay_batches := decay_batches;
        start_step := if truth hot_start then None else Some 0%Z |}.

(** [a / b] on integers: a float, or ZeroDivisionError. *)
Definition truediv (a b : Z) : res Q :=
  if (b =? 0)%Z then Raise ZeroDivisionError else Ok (inject_Z a / inject_Z b)%Q.

(** [a < b] on floats. *)
Definition Qlt_bool (a b : Q) : bool := negb (Qle_bool b a).

(** [on_train_batch_end(batch, logs)]: the result is the mapping that the
    caller passed as [logs], as the call leaves it ([logs or {}] is a new
    mapping when the caller's is [None] or empty).  The rates are rationals
    where the code computes in doubles: the start step, the branch taken, the
    stop flag and the exceptions are those of the code, and so is the rate
    where no operation rounds (a phase of 0 or 1); elsewhere the rate of the
    code is the rounded one. *)
Definition on_train_batch_end (batch : Z) (logs : option (dict Q)) (sm : t * model)
    : res (option (dict Q)) * (t * model) :=
  let '(self, m) := sm in
  (* Update our start step if we haven't run yet *)
  let start := default batch (start_step self) in
  let self := {| learning_rate := learning_rate self; min_lr := min_lr self;
                 max_lr := max_lr self; decay_lr := decay_lr self;
                 cycle_batches := cycle_batches self; decay_batches := decay_batches self;
                 start_step := Some start |} in
  let learning_rate' : res Q :=
    (* While we are in the one cycle, cycle our learning rate *)
    cycle_phase ← truediv (batch - start) (cycle_batches self);
    if Qlt_bool cycle_phase (1 # 2) then        (* Going up *)
      let p := (cycle_phase * 2)%Q in
      Ok (min_lr self + (max_lr self - min_lr self) * p)%Q
    else if Qlt_bool cycle_phase 1 then         (* Going down *)
      let p := (1 - (cycle_phase - (1 # 2)) * 2)%Q in
      Ok (min_lr self + (max_lr self - min_lr self) * p)%Q
    else
      (* After the one cycle, we just decay our learning rate slowly down to nothing *)
      decay_phase ← truediv (batch - start - cycle_batches self) (decay_batches self);
      Ok (min_lr self * (1 - decay_phase) + decay_lr self * decay_phase)%Q in
  match learning_rate' with
  | Raise e => (Raise e, (self, m))
  | Ok lr =>
      let self := {| learning_rate := PFloat lr; min_lr := min_lr self;
                     max_lr := max_lr self; decay_lr := decay_lr self;
                     cycle_batches := cycle_batches self;
                     decay_batches := decay_batches self;
                     start_step := start_step self |} in
      (* Update learning rate *)
      let m := {| optimizer_lr := lr; stop_training := stop_training m |} in
      (* Update the logs *)
      let logs :=
        match logs with
        | Some (kv :: d) => Some (dict_set (kv :: d) "lr" lr)
        | Some [] => Some []
        | None => None
        end in
      (* Stop training if we have completed the cycle *)
      let m :=
        match start_step self with
        | Some s =>
            if (s + cycle_batches self + decay_batches self <=? batch)%Z
            then {| optimizer_lr := optimizer_lr m; stop_training := true |}
            else m
        | None => m
        end in
      (Ok logs, (self, m))
  end.

(** The callback after the batches [batches] have ended, one call after the
    other without [logs]. *)
Definition after_batches (batches : list Z) (sm : t * model) : t * model :=
  foldl (fun sm batch => (on_train_batch_end batch None sm).2) sm batches.

(** The learning rate that the call for [batch] gives the optimiser. *)
Definition rate_at (batch : Z) (sm : t * model) : option Q :=
  match on_train_batch_end batch None sm with
  | (Ok _, (_, m)) => Some (optimizer_lr m)
  | (Raise _, _) => None
  end.

End OneCycle.

(* ----------------------------------------------------------------- *)
(** ** The image feature of the dataset: [dataset/example/image.py] *)
(* ----------------------------------------------------------------- *)

Module Image.

(** [tf.clip_by_value(t, lo, hi)]: the minimum with [hi], then the maximum
    with [lo]. *)
Definition clip_by_value (t lo hi : Z) : Z := Z.max (Z.min t hi) lo.

(** [tf.gather_nd(img, idx)] for an image of shape [H, W, channels] and
    indices [[y, x]]: the pixels at the indices; an index out of range is an
    error. *)
Definition gather_pixel (img : list (list (list Q))) (idx : Z * Z) : option (list Q) :=
  if ((idx.1 <? 0) || (idx.2 <? 0))%Z then None
  else row ← img !! Z.to_nat idx.1; row !! Z.to_nat idx.2.

Definition gather_nd (img : list (list (list Q))) (idx : list (Z * Z))
    : option (list (list Q)) :=
  mapM (gather_pixel img) idx.

(** [tf.multiply(val, tf.expand_dims(w, axis=-1))]: every channel of pixel
    [i] times the weight [i]. *)
Definition multiply (val : list (list Q)) (w : list Q) : list (list Q) :=
  zip_with (fun pixel wi => map (fun v => (v * wi)%Q) pixel) val w.

(** [tf.add_n] on tensors of shape [N, channels]. *)
Definition add_n (ts : list (list (list Q))) : option (list (list Q)) :=
  match ts with
  | [] => None
  | t :: ts' => Some (foldl (zip_with (zip_with Qplus)) t ts')
  end.

Definition _interpolate_gather (img : list (list (list Q))) (C : list (Q * Q))
    : option (list (list Q)) :=
  (* Get our four surrounding coordinates; the floors are integers, so that
     their cast to int32 below is taken as exact: the model does not bound
     them to the int32 range *)
  let y_0 := map (fun c : Q * Q => Qfloor c.1) C in
  let x_0 := map (fun c : Q * Q => Qfloor c.2) C in
  let y_1 := map (fun y => (y + 1)%Z) y_0 in
  let x_1 := map (fun x => (x + 1)%Z) x_0 in
  (* tf.shape(img)[:2] - 1 *)
  let h := (Z.of_nat (length img) - 1)%Z in
  let w := (Z.of_nat (length (default [] (head img))) - 1)%Z in
  (* Get the coordinates of the four closest pixels to this point making sure
     we clip to the edge of the screen *)
  let corners :=
    map (fun ab : list Z * list Z =>
           zip_with (fun a b => (clip_by_value a 0 h, clip_by_value b 0 w)) ab.1 ab.2)
        [(y_0, x_0); (y_0, x_1); (y_1, x_0); (y_1, x_1)] in
  (* Calculate the weights of how much the x and y account for for each of
     the 4 corners *)
  let y_w := zip_with (fun (c : Q * Q) y => (c.1 - inject_Z y)%Q) C y_0 in
  let x_w := zip_with (fun (c : Q * Q) x => (c.2 - inject_Z x)%Q) C x_0 in
  (* Gather the pixel values from the image *)
  p_val ← mapM (gather_nd img) corners;
  (* Weight each of the pixel values based on their relative distance *)
  let p_weighted :=
    zip_with multiply p_val
      [zip_with (fun yw xw => ((1 - yw) * (1 - xw))%Q) y_w x_w;
       zip_with (fun yw xw => ((1 - yw) * xw)%Q) y_w x_w;
       zip_with (fun yw xw => (yw * (1 - xw))%Q) y_w x_w;
       zip_with (fun yw xw => (yw * xw)%Q) y_w x_w] in
  (* Add all the weighted values to get the final interpolated value *)
  add_n p_weighted.

(** An image of [H] rows of [W] pixels of [channels] values. *)
Definition rectangular (H W channels : nat) (img : list (list (list Q))) : Prop :=
  length img = H
  ∧ Forall (fun row => length row = W ∧ Forall (fun pixel => length pixel = channels) row) img.

(** The weighted sum of the four pixels around a point, for the fractional
    parts [yw] and [xw] of its coordinates. *)
Definition interpolate_pixel (p00 p01 p10 p11 : list Q) (yw xw : Q) : list Q :=
  zip_with Qplus
    (zip_with Qplus
       (zip_with Qplus (map (fun v => (v * ((1 - yw) * (1 - xw)))%Q) p00)
                       (map (fun v => (v * ((1 - yw) * xw))%Q) p01))
       (map (fun v => (v * (yw * (1 - xw)))%Q) p10))
    (map (fun v => (v * (yw * xw))%Q) p11).

End Image.

(* ----------------------------------------------------------------- *)
(** ** The progress images callback: [callbacks/classification_images.py] *)
(* ----------------------------------------------------------------- *)

Module ClassificationImages.
Section ClassificationImages.
(** An image as an array, a matplotlib figure with its axes, the images of
    the record stacked into one tensor, and what is handed to the summary
    writer. *)
Context {Img Fig Stack Summary : Type}.
(** [hashlib.md5] and its digest. *)
Variable md5 : string → string.
(** [cv2.cvtColor(cv2.imdecode(np.fromstring(img, np.uint8), cv2.IMREAD_COLOR),
    cv2.COLOR_BGR2RGB)] *)
Variable imdecode : string → res Img.
(** A figure of the size of the image, with the image as underlay. *)
Variable imshow : Img → res Fig.
(** [ax.tricontour(...)] *)
Variable ax_tricontour : Fig → tricontour → res Fig.
(** The axes set to the size of the image, the figure saved in raw format
    and closed, the bytes reshaped to the image's height and width without
    the alpha channel. *)
Variable savefig : Img → Fig → res Img.
(** [self.model.predict(ds)] on the X and G of the record. *)
Variable predict : list (list Q) → list (list Z) → list (list Q).
(** [sorted(images)] on a list in which two hashes are equal: the pairs that
    tie are then compared on their images, which are tensors; the outcome (an
    exception, when the truth value of the comparison of two tensors is
    taken) is left to this parameter. *)
Variable sorted_tied : list (string * Img) → res (list (string * Img)).
(** [tf.stack(images, axis=0)], which refuses images of different shapes. *)
Variable tf_stack : list Img → res Stack.
(** [images.shape] *)
Variable stack_shape : Stack → list nat.
(** [tf.summary.image(name, images, step=step, max_outputs=max_outputs)]
    under [self.writer.as_default()]; it refuses a tensor that is not of
    rank 4. *)
Variable summary_image : string → Stack → Z → nat → res Summary.

(** The contour plot of colour [i]. *)
Definition colour_contour (px X : list (list Q)) (i : nat) (colour : Z * Z * Z)
    : res tricontour :=
  let '(r, g, b) := colour in
  (* colour = np.array(colour) / 255 *)
  let r := (inject_Z r / 255)%Q in
  let g := (inject_Z g / 255)%Q in
  let b := (inject_Z b / 255)%Q in
  x ← np_column px 1;
  y ← np_column px 0;
  z ← np_column X i;
  Ok {| tri_x := x; tri_y := y; tri_z := z;
        tri_levels := [1 # 2; 3 # 4; 9 # 10]%Q;
        tri_colours := Colors [(r, g, b, 33 # 100); (r, g, b, 66 # 100); (r, g, b, 1)]%Q |}.

(** [for i, colour in enumerate(colours)] *)
Fixpoint colour_loop (px X : list (list Q)) (ics : list (nat * (Z * Z * Z))) (fig : Fig)
    : res Fig :=
  match ics with
  | [] => Ok fig
  | (i, colour) :: ics' =>
      c ← colour_contour px X i colour;
      fig ← ax_tricontour fig c;
      colour_loop px X ics' fig
  end.

Definition mesh_image (img : string) (px X : list (list Q)) (colours : list (Z * Z * Z))
    : res (string * Img) :=
  (* hash of the image file for sorting later *)
  let img_hash := md5 img in
  (* Decode the image *)
  img ← imdecode img;
  fig ← imshow img;
  (* We need at least 3 points to make a triangle *)
  fig ← (if (3 <=? length px)%nat then colour_loop px X (enumerate colours) fig else Ok fig);
  data ← savefig img fig;
  Ok (img_hash, data).

(** [sorted(images)] on the pairs of a hash and an image; pairs whose hashes
    tie would be ordered by their images, the model orders on the hashes
    alone. *)
Definition hash_le (a b : string * Img) : Prop := String.le a.1 b.1.

Definition sorted (images : list (string * Img)) : list (string * Img) :=
  merge_sort hash_le images.

(** [[i for h, i in sorted(images)]]: the images as they are stacked. *)
Definition sorted_images (images : list (string * Img)) : list Img :=
  map snd (sorted images).

(** [sorted(images)] as the callback runs it: on hashes that are pairwise
    distinct the images are never compared. *)
Definition sorted_by_hash (images : list (string * Img)) : res (list (string * Img)) :=
  if decide (NoDup (map fst images)) then Ok (sorted images) else sorted_tied images.

(** The end of [on_epoch_end], from the sort on: the images are stacked in
    the order of their hashes and written as one summary for the epoch. *)
Definition write_images (epoch : Z) (images : list (string * Img)) : res Summary :=
  (* Sort by hash so the images show up in the same order every time *)
  images ← sorted_by_hash images;
  images ← tf_stack (map snd images);
  (* Write the images *)
  max_outputs ← py_index (stack_shape images) 0;
  summary_image "images" images epoch max_outputs.

(** [on_epoch_end(epoch)]; [data] is the record [self.data] and [colours] is
    [self.colours].  An index past the end of [self.data["raw"]], which
    TensorFlow reports as an InvalidArgumentError, is modelled by the
    IndexError of [py_index]. *)
Definition on_epoch_end (epoch : Z) (data : batch) (colours : list (Z * Z * Z))
    : res Summary :=
  let predictions := predict (data_X data) (data_G data) in
  (* Work out the valid data ranges for each of the objects *)
  let ranges := ranges (data_n data) in
  images ← mapM (fun ir : nat * (Z * Z) =>
                   let '(i, r) := ir in
                   raw ← py_index (data_raw data) i;
                   mesh_image raw (py_slice (data_px data) r.1 r.2)
                     (py_slice predictions r.1 r.2) colours)
              (enumerate ranges);
  write_images epoch images.
End ClassificationImages.
End ClassificationImages.

(* ----------------------------------------------------------------- *)
(** ** Specification predicates and invariants                        *)
(* ----------------------------------------------------------------- *)

(** *** Multi-device merger *)


Definition mean (vals : list Q) : Q := (reduce_sum vals / inject_Z (Z.of_nat (length vals)))%Q.



(** *** Metrics engine *)

Definition sum_Z (l : list Z) : Z := foldr Z.add 0%Z l.


(** *** Loss engine *)


(** Class [i] has a true member in the batch: some point's label has a
    nonzero entry in column [i]. *)
Definition has_member (Y : list (list Q)) (i : nat) : Prop :=
  ∃ j row, Y !! j = Some row ∧ ¬ (default 0 (row !! i) == 0)%Q.

(** *** Structure specs *)

(** A structure spec in the store: the outer list [l] holds references [rs]
    to the stages, which are lists of integers. *)
Definition is_structure (s : store) (l : nat) (rs : list nat) (stages : list (list Z)) : Prop :=
  s !! l = Some (map VRef rs)
  ∧ Forall2 (fun r zs => s !! r = Some (map VInt zs)) rs stages.

(** The memo while the structure [l] of the store [s0] is copied: it maps
    [l] to the copy, and a stage to a fresh object of [news] (the objects
    allocated after the copy of [l]) with the content of the stage. *)
Definition memo_inv (s0 : store) (l : nat) (memo : list (nat * nat)) (news : store) : Prop :=
  ∀ r r', memo_get memo r = Some r' →
    (r = l ∧ r' = length s0)
    ∨ (∃ zs, s0 !! r = Some (map VInt zs) ∧ length s0 < r'
             ∧ news !! (r' - S (length s0)) = Some (map VInt zs)).

(** The stages [rs'] of a copy, allocated in [news] after the store [s0]. *)
Definition fresh_stages (s0 news : store) (rs' : list nat) (stages : list (list Z)) : Prop :=
  Forall2 (fun r' zs => length s0 < r' ∧ news !! (r' - S (length s0)) = Some (map VInt zs))
    rs' stages.

(** The stages of a structure once [k] has been appended to the stage object
    [r']: every stage held by that object shows the new width. *)
Definition with_output (r' : nat) (k : Z) (rs : list nat) (stages : list (list Z)) : list (list Z) :=
  zip_with (fun r zs => if decide (r = r') then zs ++ [k] else zs) rs stages.

(** *** Model exporter *)

(** The array exported at [output[c][l][var]], and the array of the item
    with a given key. *)
Definition lookup3 {A} (out : list (list (dict A))) (k : key) : option A :=
  row ← out !! k.1.1; d ← row !! k.1.2; dict_get d k.2.

Fixpoint items_get {A} (items : list (key * A)) (k : key) : option A :=
  match items with
  | [] => None
  | (k', v) :: items' => if decide (k' = k) then Some v else items_get items' k
  end.

(** The convolution indices of the items are exactly 0 .. C-1 and, within
    convolution [c], the layer indices are exactly 0 .. L c - 1. *)
Definition contiguous {A} (C : nat) (L : nat → nat) (items : list (key * A)) : Prop :=
  (∀ c l var v, ((c, l, var), v) ∈ items → c < C ∧ l < L c)
  ∧ (∀ c, c < C → 0 < L c)
  ∧ (∀ c l, c < C → l < L c → ∃ var v, ((c, l, var), v) ∈ items).

(** The state of the exporter when the items [p] have been processed. *)
Definition exporter_inv {A} (L : nat → nat) (p : list (key * A)) (st : exporter_state A) : Prop :=
  (∀ k, lookup3 (output st) k = items_get p k)
  ∧ match last p with
    | None => output st = [] ∧ conv st = (-1)%Z
    | Some ((c, l, _), _) =>
        conv st = Z.of_nat c ∧ layer st = Z.of_nat l
        ∧ ∃ out row d,
            output st = out ++ [row ++ [d]] ∧ length out = c ∧ length row = l
            ∧ ∀ c' row', out !! c' = Some row' → length row' = L c'
    end.

(** *** Model exporter: the shape of a run without error *)

(** The state of the exporter when the items [p] have been processed and no
    index was out of range: the last item's layer is the one that is open,
    no convolution is empty, and the positions of the structure are exactly
    those that the keys of [p] name. *)
Definition exporter_shape {A} (p : list (key * A)) (st : exporter_state A) : Prop :=
  match last p with
  | None => output st = [] ∧ conv st = (-1)%Z
  | Some ((c, l, _), _) =>
      conv st = Z.of_nat c ∧ layer st = Z.of_nat l
      ∧ ∃ out row d, output st = out ++ [row ++ [d]] ∧ length out = c ∧ length row = l
  end
  ∧ (∀ c row, output st !! c = Some row → 0 < length row)
  ∧ (∀ c l, (∃ row, output st !! c = Some row ∧ l < length row)
            ↔ ∃ var v, ((c, l, var), v) ∈ p).

(** *** Model exporter: the names of the parameters *)

(** [str(n)] for a natural number: its decimal digits. *)
Definition decimal (n : nat) : string :=
  DecimalString.NilEmpty.string_of_uint (Nat.to_uint n).

(** The name of the parameter [role] ("Weights" or "Biases") of layer [l] of
    convolution [c], as the variable scopes of the network build it. *)
Definition variable_name (c l : nat) (role : string) : string :=
  "Network/Conv_" +:+ decimal c +:+ "/Layer_" +:+ decimal l +:+ "/" +:+ role +:+ ":0".

(** A string that does not start with a digit. *)
Definition no_digit (s : string) : Prop :=
  match s with
  | EmptyString => True
  | String a _ => Ascii.is_nat a = None
  end.

(** *** Points of a batch *)

(** The points of a batch of images laid end to end, cut into the images'
    own points: [ns] gives how many points each image has. *)
Fixpoint chunks {A} (ns : list nat) (l : list A) : list (list A) :=
  match ns with
  | [] => []
  | n :: ns' => take n l :: chunks ns' (drop n l)
  end.

(** The points with a positive weight, as the alpha mask keeps them. *)
Definition masked {A} (W : list Q) (t : list A) : list A :=
  (filter (fun wa : Q * A => Qle_bool wa.1 0 = false) (zip W t)).*2.

(* ================================================================= *)
(** * Part II: properties                                             *)
(* ================================================================= *)

(* ----------------------------------------------------------------- *)
(** ** Multi-device merger                                            *)
(* ----------------------------------------------------------------- *)

Section zip_star_rows.
Context {A : Type}.
Implicit Types (l : list A) (ls : list (list A)).




End zip_star_rows.






Section merge_rows.
Implicit Types (gs : list (list grad_entry)) (g : list grad_entry).


End merge_rows.



(** C8.  With exactly one device bundle the merge stage hands that bundle on
    as it is: no loss, gradient, metric or data of it is transformed. *)
Theorem merge_stage_single_device (b : device_bundle) :
  merge_stage [b] = Some (inl b).
Proof. reflexivity. Qed.

(** The guard matters: [_merge_ops] itself wraps the data of a single bundle
    into lists and rebuilds the gradient lists. *)
Lemma _merge_ops_single_not_identity (b : device_bundle) (m : merged_bundle) :
  _merge_ops [b] = Some m → op_data m = [op_data b] ∧ op_X m = [op_X b] ∧ op_T m = [op_T b].
Proof.
  unfold _merge_ops. intros H.
  repeat (apply bind_Some in H as (? & _ & H)). by injection H as <-.
Qed.

(* ----------------------------------------------------------------- *)
(** ** Metrics engine                                                 *)
(* ----------------------------------------------------------------- *)

Lemma foldl_add_sum_Z z zs : foldl Z.add z zs = (z + sum_Z zs)%Z.
Proof. revert z. induction zs as [|y zs IH]; intros z; simpl; [lia|]. rewrite IH. lia. Qed.


Section dict.
Context {V : Type}.
Implicit Types (d : dict V) (k : string) (v : V).

Lemma dict_set_nonempty d k v : dict_set d k v ≠ [].
Proof. destruct d as [|[k' v'] d]; simpl; [done|]. by case_decide. Qed.



End dict.

Section metrics_facts.
Variable softmax : list (list Q) → list (list Q).
Variable softmax_cross_entropy_with_logits_v2 :
  list (list Q) → list (list Q) → list Q.

Lemma class_loop_nonempty nl X Y i classes acc :
  classes ≠ [] ∨ acc ≠ [] → class_loop nl X Y i classes acc ≠ [].
Proof.
  revert i acc. induction classes as [|c classes IH]; intros i acc H; simpl.
  - by destruct H.
  - apply IH. right. apply dict_set_nonempty.
Qed.


Lemma per_class_metrics_nonempty X Y classes :
  classes ≠ [] →
  per_class_metrics softmax softmax_cross_entropy_with_logits_v2 X Y classes ≠ [].
Proof. intros. apply class_loop_nonempty. by left. Qed.


(** The aggregate entry is defined as soon as the mapping has an entry, and
    then its four counts are the sums over the entries. *)
Lemma global_metric_counts (metrics : dict metric) :
  metrics ≠ [] →
  ∃ g, global_metric metrics = Some g
    ∧ m_tp g = sum_Z (map m_tp (dict_values metrics))
    ∧ m_tn g = sum_Z (map m_tn (dict_values metrics))
    ∧ m_fp g = sum_Z (map m_fp (dict_values metrics))
    ∧ m_fn g = sum_Z (map m_fn (dict_values metrics))
    ∧ m_loss g =
        (let k := sum_Z (map (fun m => count_nonzero_scalar (m_loss m)) (dict_values metrics)) in
         tf_divide_Z k k).
Proof.
  intros Hne.
  assert (∀ l : list metric,
            map count_nonzero_Z (map (fun m => count_nonzero_scalar (m_loss m)) l)
            = map (fun m => count_nonzero_scalar (m_loss m)) l) as Hidem.
  { intros l. rewrite map_map. apply map_ext. intros m.
    destruct (m_loss m) as [q| |]; simpl; [|done..]. by destruct (Qnonzero q). }
  unfold global_metric. rewrite Hidem.
  destruct metrics as [|[k0 m0] d]; [done|].
  unfold dict_values, add_n_Z. csimpl. eexists. split; [done|]. simpl.
  by rewrite !foldl_add_sum_Z.
Qed.
End metrics_facts.

Lemma dict_get_set_eq {V} (d : dict V) k v : dict_get (dict_set d k v) k = Some v.
Proof.
  induction d as [|[k' v'] d IH]; simpl.
  - by rewrite decide_True.
  - case_decide; simpl; [by rewrite decide_True|]. by rewrite decide_False.
Qed.

Lemma dict_get_set_ne {V} (d : dict V) k k' v : k ≠ k' → dict_get (dict_set d k v) k' = dict_get d k'.
Proof.
  intros Hne. induction d as [|[k0 v0] d IH]; simpl.
  - by rewrite decide_False.
  - case_decide; simpl.
    + subst k0. by rewrite !decide_False.
    + case_decide; [done|]. apply IH.
Qed.

Section class_loop_entries.
Variable nl : list Q.
Variables X Y : list (list Q).






End class_loop_entries.



(** C1 (the code departs from the claim).  Two classes, two points with zero
    logits, one point of each class: whatever the cross-entropy op returns for
    the two points, [a] and [b] both nonzero, the two class losses are [a] and
    [b] but the Global loss is 2/2 = 1: the code adds up the nonzero-counts of
    the class losses, not the class losses, so the value the claim states,
    (a + b) / 2, is returned only when a + b = 2. *)
Theorem metrics_global_loss_counts_classes
    (softmax : list (list Q) → list (list Q))
    (softmax_cross_entropy_with_logits_v2 : list (list Q) → list (list Q) → list Q)
    (a b : Q) :
  let X := [[0; 0]; [0; 0]]%Q in
  let Y := [[1; 0]; [0; 1]]%Q in
  let classes := [("ball", (255, 0, 0)%Z); ("goal", (0, 255, 0)%Z)] in
  softmax_cross_entropy_with_logits_v2 X Y = [a; b] →
  ¬ (a == 0)%Q → ¬ (b == 0)%Q →
  ∃ m ball goal g q,
    _metrics softmax softmax_cross_entropy_with_logits_v2 X Y classes = Some m
    ∧ dict_get m "ball" = Some ball ∧ (∃ qa, m_loss ball = Fin qa ∧ (qa == a)%Q)
    ∧ dict_get m "goal" = Some goal ∧ (∃ qb, m_loss goal = Fin qb ∧ (qb == b)%Q)
    ∧ dict_get m "Global" = Some g ∧ m_loss g = Fin q ∧ (q == 1)%Q.
Proof.
  intros X Y classes Hxent Ha Hb.
  assert (∀ x, ¬ (x == 0)%Q → Qnonzero ((x + 0) / inject_Z 1) = true) as Hnz.
  { intros x Hx. unfold Qnonzero. destruct (Qeq_bool _ 0) eqn:E; [|done].
    apply Qeq_bool_eq in E. exfalso. apply Hx. rewrite <- E. field. }
  unfold _metrics.
  set (d := per_class_metrics softmax softmax_cross_entropy_with_logits_v2 X Y classes).
  assert (d = [("ball", class_metric [a; b] (softmax X) Y 0);
               ("goal", class_metric [a; b] (softmax X) Y 1)]) as Hd.
  { unfold d, per_class_metrics. by rewrite Hxent. }
  assert (m_loss (class_metric [a; b] (softmax X) Y 0) = Fin ((a + 0) / inject_Z 1)) as Hball by done.
  assert (m_loss (class_metric [a; b] (softmax X) Y 1) = Fin ((b + 0) / inject_Z 1)) as Hgoal by done.
  destruct (global_metric_counts d) as (g & Hg & _ & _ & _ & _ & Hloss).
  { by rewrite Hd. }
  rewrite Hg. csimpl.
  exists (dict_set d "Global" g), (class_metric [a; b] (softmax X) Y 0),
    (class_metric [a; b] (softmax X) Y 1), g, (inject_Z 2 / inject_Z 2)%Q.
  split; [done|]. rewrite Hd. split_and!.
  - done.
  - exists ((a + 0) / inject_Z 1)%Q. split; [done|]. field.
  - done.
  - exists ((b + 0) / inject_Z 1)%Q. split; [done|]. field.
  - done.
  - rewrite Hloss, Hd. cbn [dict_values map snd sum_Z foldr].
    rewrite Hball, Hgoal. simpl. by rewrite !Hnz.
  - done.
Qed.

(* ----------------------------------------------------------------- *)
(** ** Loss engine                                                    *)
(* ----------------------------------------------------------------- *)

Section tf_where.
Context {A : Type} (p : A → bool).

Lemma where_from_spec (v : list A) (i j : nat) :
  j ∈ where_from p i v ↔ i ≤ j ∧ ∃ a, v !! (j - i) = Some a ∧ p a = true.
Proof.
  revert i. induction v as [|a v IH]; intros i; simpl.
  - rewrite elem_of_nil. split; [done|]. by intros [_ (a & ? & _)].
  - assert (j ∈ where_from p (S i) v ↔ S i ≤ j ∧ ∃ a', (a :: v) !! (j - i) = Some a' ∧ p a' = true)
      as IH'.
    { rewrite IH. split; intros [Hle (a' & Ha' & Hp)]; (split; [done|]); exists a'; split; try done.
      - by replace (j - i) with (S (j - S i)) by lia.
      - by replace (j - i) with (S (j - S i)) in Ha' by lia. }
    destruct (p a) eqn:Hpa; [rewrite elem_of_cons|]; rewrite IH'.
    + split.
      * intros [->|[Hle H]]; [|split; [lia|done]].
        split; [done|]. exists a. by rewrite Nat.sub_diag.
      * intros [Hle (a' & Ha' & Hp)].
        destruct (decide (j = i)) as [->|]; [by left|]. right. split; [lia|]. eauto.
    + split.
      * intros [Hle H]. split; [lia|done].
      * intros [Hle (a' & Ha' & Hp)]. split; [|eauto].
        destruct (decide (j = i)) as [->|]; [|lia].
        rewrite Nat.sub_diag in Ha'. simpl in Ha'. congruence.
Qed.


Lemma tf_where_spec (v : list A) (j : nat) :
  j ∈ tf_where p v ↔ ∃ a, v !! j = Some a ∧ p a = true.
Proof.
  unfold tf_where. rewrite where_from_spec, Nat.sub_0_r. split; [by intros [_ ?]|].
  intros ?. split; [lia|done].
Qed.

Lemma tf_where_lt (v : list A) (j : nat) : j ∈ tf_where p v → j < length v.
Proof. intros (a & Ha & _)%tf_where_spec. by eapply lookup_lt_Some. Qed.
End tf_where.




Lemma Qnonzero_true q : Qnonzero q = true ↔ ¬ (q == 0)%Q.
Proof.
  unfold Qnonzero. destruct (Qeq_bool q 0) eqn:E; simpl.
  - apply Qeq_bool_eq in E. split; [done|]. by intros [].
  - apply Qeq_bool_neq in E. done.
Qed.

Local Arguments Qplus : simpl never.
Local Arguments Qminus : simpl never.
Local Arguments Qmult : simpl never.
Local Arguments Qdiv : simpl never.
Local Arguments inject_Z : simpl never.

Section reduce_sum.
Implicit Types (u v : list Q).
Local Open Scope Q_scope.

Lemma reduce_sum_nil : reduce_sum [] = 0.
Proof. reflexivity. Qed.

Lemma reduce_sum_cons x v : reduce_sum (x :: v) = x + reduce_sum v.
Proof. reflexivity. Qed.

Local Arguments reduce_sum : simpl never.

Lemma reduce_sum_replicate_0 n : reduce_sum (replicate n 0) == 0.
Proof.
  induction n as [|n IH]; simpl; [reflexivity|].
  rewrite reduce_sum_cons, IH. ring.
Qed.

Lemma reduce_sum_alter x j v :
  (j < length v)%nat → reduce_sum (alter (Qplus x) j v) == x + reduce_sum v.
Proof.
  revert j. induction v as [|y v IH]; intros j Hj; simpl in *; [lia|].
  destruct j as [|j]; csimpl; rewrite !reduce_sum_cons; [ring|].
  rewrite IH by lia. ring.
Qed.

Lemma length_scatter_nd idx updates n : length (scatter_nd idx updates n) = n.
Proof.
  revert updates. induction idx as [|j idx IH]; intros [|x updates]; simpl;
    rewrite ?length_alter, ?length_replicate; auto.
Qed.

Lemma reduce_sum_scatter_nd idx updates n :
  Forall (fun j => (j < n)%nat) idx → length idx = length updates →
  reduce_sum (scatter_nd idx updates n) == reduce_sum updates.
Proof.
  intros Hidx. revert updates.
  induction Hidx as [|j idx Hj _ IH]; intros [|x updates] Hlen; simplify_eq/=.
  - apply reduce_sum_replicate_0.
  - rewrite reduce_sum_alter by (by rewrite length_scatter_nd).
    rewrite reduce_sum_cons. by rewrite IH.
Qed.

Lemma reduce_sum_div s v : reduce_sum (map (fun p => p / s) v) == reduce_sum v / s.
Proof.
  induction v as [|x v IH]; simpl.
  - rewrite reduce_sum_nil. unfold Qdiv. ring.
  - rewrite !reduce_sum_cons, IH. unfold Qdiv. ring.
Qed.

Lemma reduce_sum_pos v : v ≠ [] → Forall (fun x => 0 < x) v → 0 < reduce_sum v.
Proof.
  intros Hne Hall. induction Hall as [|x v Hx Hall IH]; [done|].
  rewrite reduce_sum_cons. destruct v as [|y v].
  - rewrite reduce_sum_nil, Qplus_0_r. done.
  - apply Qlt_trans with (0 + reduce_sum (y :: v)).
    + rewrite Qplus_0_l. by apply IH.
    + apply Qplus_lt_l. done.
Qed.

Lemma reduce_sum_zip_with_plus u v :
  length u = length v → reduce_sum (zip_with Qplus u v) == reduce_sum u + reduce_sum v.
Proof.
  revert v. induction u as [|x u IH]; intros [|y v] Hlen; simplify_eq/=;
    rewrite ?reduce_sum_cons, ?reduce_sum_nil; [ring|].
  rewrite IH by done. ring.
Qed.

Lemma reduce_sum_add_n n v (vs : list (list Q)) :
  length v = n → Forall (fun v' => length v' = n) vs →
  length (foldl (zip_with Qplus) v vs) = n
  ∧ reduce_sum (foldl (zip_with Qplus) v vs) == reduce_sum v + reduce_sum (map reduce_sum vs).
Proof.
  intros Hv Hvs. revert v Hv. induction Hvs as [|v' vs Hv' _ IH]; intros v Hv; simpl.
  - split; [done|]. rewrite reduce_sum_nil. ring.
  - destruct (IH (zip_with Qplus v v')) as [Hlen Hsum].
    { rewrite length_zip_with. lia. }
    split; [done|].
    rewrite Hsum, reduce_sum_zip_with_plus, reduce_sum_cons by lia. ring.
Qed.

Lemma count_nonzero_replicate_0 n : count_nonzero (replicate n 0) = 0%Z.
Proof.
  unfold count_nonzero. induction n as [|n IH]; [done|]. simpl.
  rewrite filter_cons, decide_False; [done|]. by rewrite Qnonzero_true; intros [].
Qed.

Lemma count_nonzero_0_sum v : count_nonzero v = 0%Z → reduce_sum v == 0.
Proof.
  unfold count_nonzero. induction v as [|x v IH]; [reflexivity|].
  rewrite filter_cons, reduce_sum_cons. case_decide as Hx; simpl; [lia|]. intros Hv.
  rewrite IH by done. rewrite Qnonzero_true in Hx.
  destruct (Qeq_dec x 0) as [->|]; [ring|done].
Qed.
End reduce_sum.
Local Arguments reduce_sum : simpl never.

Section class_weights.
Variables (cfg : config) (T : list Q) (Y : list (list Q)).
Hypothesis Hshape : length T = length Y.
Hypothesis Hpositive : Forall (fun t => (0 < t + tutor_base_weight cfg)%Q) T.
Local Open Scope Q_scope.

Lemma has_member_where i : has_member Y i ↔ tf_where Qnonzero (column Y i) ≠ [].
Proof.
  unfold has_member. split.
  - intros (j & row & Hrow & Hnz) Hnil.
    assert (j ∈ tf_where Qnonzero (column Y i)) as Hj; [|by rewrite Hnil in Hj; apply elem_of_nil in Hj].
    apply tf_where_spec. exists (default 0 (row !! i)). split; [|by apply Qnonzero_true].
    unfold column. by rewrite list_lookup_fmap, Hrow.
  - destruct (tf_where Qnonzero (column Y i)) as [|j idx] eqn:Hidx; [done|]. intros _.
    assert (j ∈ tf_where Qnonzero (column Y i)) as Hj by (rewrite Hidx; left).
    apply tf_where_spec in Hj as (y & Hy & Hnz). unfold column in Hy.
    rewrite list_lookup_fmap in Hy. destruct (Y !! j) as [row|] eqn:Hrow; [|done].
    simplify_eq/=. exists j, row. split; [done|]. by apply Qnonzero_true.
Qed.

Lemma class_scatter_length i : length (class_scatter cfg T Y i) = length T.
Proof.
  unfold class_scatter. destruct (_ =? _)%nat.
  - by rewrite length_replicate.
  - by rewrite length_scatter_nd.
Qed.

Lemma class_scatter_absent i :
  ¬ has_member Y i → class_scatter cfg T Y i = replicate (length T) 0.
Proof.
  rewrite has_member_where. intros Hnil. unfold class_scatter.
  destruct (tf_where Qnonzero (column Y i)); [done|]. by destruct Hnil.
Qed.

(** The denominator of the weights of a class that has a member. *)
Lemma class_points_positive i :
  has_member Y i →
  0 < reduce_sum (map (fun t => t + tutor_base_weight cfg)
                    (gather_nd T (tf_where Qnonzero (column Y i)))).
Proof.
  rewrite has_member_where. intros Hne. apply reduce_sum_pos.
  - destruct (tf_where Qnonzero (column Y i)); [done|]. done.
  - apply Forall_forall. intros p Hp. unfold gather_nd in Hp.
    apply list_elem_of_fmap in Hp as (t & -> & Ht).
    apply list_elem_of_fmap in Ht as (j & -> & Hj%tf_where_lt).
    unfold column in Hj. rewrite length_map, <- Hshape in Hj.
    destruct (lookup_lt_is_Some_2 T j Hj) as [t Htj]. rewrite Htj. simpl.
    eapply Forall_forall in Hpositive; [done|]. by eapply list_elem_of_lookup_2.
Qed.

Lemma class_scatter_present i :
  has_member Y i → reduce_sum (class_scatter cfg T Y i) == 1.
Proof.
  intros Hmem. pose proof (class_points_positive i Hmem) as Hpos.
  apply has_member_where in Hmem. unfold class_scatter.
  destruct (length _ =? 0)%nat eqn:Hlen.
  { apply Nat.eqb_eq, nil_length_inv in Hlen. done. }
  rewrite reduce_sum_scatter_nd.
  - rewrite reduce_sum_div. field. intros H0. rewrite H0 in Hpos. by apply Qlt_irrefl in Hpos.
  - apply Forall_forall. intros j Hj%tf_where_lt.
    unfold column in Hj. rewrite length_map in Hj. lia.
  - unfold gather_nd. by rewrite !length_map.
Qed.

(** Over any list of classes, the totals of the weight vectors add up to
    the number of vectors that have a nonzero entry. *)
Lemma scatter_totals (cs : list nat) :
  reduce_sum (map reduce_sum (map (class_scatter cfg T Y) cs))
  == inject_Z (count_nonzero_Zs (map count_nonzero (map (class_scatter cfg T Y) cs))).
Proof.
  unfold count_nonzero_Zs. induction cs as [|c cs IH]; [reflexivity|].
  cbn [map]. rewrite reduce_sum_cons, filter_cons, IH.
  destruct (tf_where Qnonzero (column Y c)) as [|j idx] eqn:Hidx.
  - assert (¬ has_member Y c) as Hmem by (rewrite has_member_where, Hidx; auto).
    rewrite (class_scatter_absent c Hmem), count_nonzero_replicate_0.
    rewrite decide_False by auto. rewrite reduce_sum_replicate_0. ring.
  - assert (has_member Y c) as Hmem by (by rewrite has_member_where, Hidx).
    rewrite (class_scatter_present c Hmem). rewrite decide_True.
    + cbn [length]. rewrite Nat2Z.inj_succ, <- Z.add_1_l, inject_Z_plus. reflexivity.
    + intros H0%count_nonzero_0_sum. rewrite (class_scatter_present c Hmem) in H0. done.
Qed.

Lemma active_classes_positive :
  (∃ i, (i < length (network_classes cfg))%nat ∧ has_member Y i) →
  (0 < active_classes cfg T Y)%Z.
Proof.
  intros (i & Hi & Hmem). unfold active_classes, count_nonzero_Zs, scatters.
  assert (count_nonzero (class_scatter cfg T Y i)
            ∈ filter (fun z => z ≠ 0%Z)
                (map count_nonzero (map (class_scatter cfg T Y) (seq 0 (length (network_classes cfg))))))
    as Hin.
  { apply list_elem_of_filter. split.
    - intros H0%count_nonzero_0_sum. rewrite (class_scatter_present i Hmem) in H0. done.
    - apply list_elem_of_fmap. eexists. split; [done|].
      apply list_elem_of_fmap. exists i. split; [done|]. apply elem_of_seq. lia. }
  destruct (filter _ _); [by apply elem_of_nil in Hin|]. simpl. lia.
Qed.
End class_weights.

(** C4.  For a batch with at least one labelled point, in which every tutor
    output plus the base weight is positive (the tutor outputs are sigmoid
    values, the base weight is a positive constant): the weight vector of a
    class with a true member sums to 1 and its denominator is not zero, the
    weight vector of a class without one is all zeros, the count of active
    classes is positive, and the combined weight vector [W] sums to 1. *)
Theorem class_weights_normalised (cfg : config) (T : list Q) (Y : list (list Q)) :
  length T = length Y →
  Forall (fun t => (0 < t + tutor_base_weight cfg)%Q) T →
  (∃ i, i < length (network_classes cfg) ∧ has_member Y i) →
  (∀ i, i < length (network_classes cfg) →
        (has_member Y i →
           (reduce_sum (class_scatter cfg T Y i) == 1)%Q
           ∧ ¬ (reduce_sum (map (fun t => t + tutor_base_weight cfg)
                             (gather_nd T (tf_where Qnonzero (column Y i)))) == 0)%Q)
        ∧ (¬ has_member Y i → class_scatter cfg T Y i = replicate (length T) 0%Q))
  ∧ (0 < active_classes cfg T Y)%Z
  ∧ ∃ w, W cfg T Y = Some w ∧ length w = length T ∧ (reduce_sum w == 1)%Q.
Proof.
  intros Hshape Hpositive Hlabelled. split_and!.
  - intros i Hi. split.
    + intros Hmem. split; [by apply class_scatter_present|].
      intros H0. pose proof (class_points_positive cfg T Y Hshape Hpositive i Hmem) as Hpos.
      rewrite H0 in Hpos. by apply Qlt_irrefl in Hpos.
    + by apply class_scatter_absent.
  - by apply active_classes_positive.
  - pose proof (active_classes_positive cfg T Y Hshape Hpositive Hlabelled) as Hactive.
    pose proof (scatter_totals cfg T Y Hshape Hpositive
                  (seq 0 (length (network_classes cfg)))) as Htotal.
    unfold W, active_classes in *. fold (scatters cfg T Y) in Htotal.
    assert (Forall (fun v => length v = length T) (scatters cfg T Y)) as Hlens.
    { apply Forall_forall. intros v (i & -> & _)%list_elem_of_fmap.
      apply class_scatter_length. }
    destruct (scatters cfg T Y) as [|v vs] eqn:Hsc.
    { destruct Hlabelled as (i & Hi & _). unfold scatters in Hsc.
      destruct (network_classes cfg); simpl in *; [lia|done]. }
    apply Forall_cons in Hlens as [Hv Hvs].
    destruct (reduce_sum_add_n (length T) v vs Hv Hvs) as [Hlen Hsum].
    csimpl. eexists. split; [done|]. split; [by rewrite length_map|].
    rewrite reduce_sum_div, Hsum. cbn [map] in Htotal.
    rewrite reduce_sum_cons in Htotal. rewrite Htotal. field.
    intros H0. cbn [map] in Hactive. unfold Qeq, inject_Z in H0. simpl in H0. lia.
Qed.

(* ----------------------------------------------------------------- *)
(** ** Structure specs                                                *)
(* ----------------------------------------------------------------- *)

Section deepcopy.
Implicit Types (s : store) (memo : list (nat * nat)) (zs : list Z) (rs : list nat).

Lemma deepcopy_int fuel z memo s : deepcopy fuel (VInt z) memo s = Ok (VInt z, memo, s).
Proof. by destruct fuel. Qed.

(** Copying the integers of a stage into the copy under construction. *)
Lemma deepcopy_loop_ints fuel s0 acc news zs memo :
  deepcopy_list_loop (deepcopy fuel) (length s0) (map VInt zs) memo (s0 ++ acc :: news)
  = Ok (memo, s0 ++ (acc ++ map VInt zs) :: news).
Proof.
  revert acc. induction zs as [|z zs IH]; intros acc; simpl.
  - by rewrite app_nil_r.
  - rewrite deepcopy_int.
    replace (alter (fun o => o ++ [VInt z]) (length s0) (s0 ++ acc :: news))
      with (s0 ++ (acc ++ [VInt z]) :: news).
    + rewrite IH. by rewrite <- app_assoc.
    + rewrite <- (Nat.add_0_r (length s0)) at 1. by rewrite alter_app_r.
Qed.

Lemma deepcopy_list_unfold fuel l memo s (xs : list value) :
  memo_get memo l = None → s !! l = Some xs →
  deepcopy (S fuel) (VRef l) memo s
  = match deepcopy_list_loop (deepcopy fuel) (length s) xs ((l, length s) :: memo) (s ++ [[]]) with
    | Ok (memo', s') => Ok (VRef (length s), memo', s')
    | Raise e => Raise e
    end.
Proof. intros Hmemo Hl. simpl. by rewrite Hmemo, Hl. Qed.

(** A stage that the memo does not know is copied into a fresh object. *)
Lemma deepcopy_stage fuel s r zs memo :
  s !! r = Some (map VInt zs) → memo_get memo r = None →
  deepcopy (S fuel) (VRef r) memo s
  = Ok (VRef (length s), (r, length s) :: memo, s ++ [map VInt zs]).
Proof.
  intros Hr Hmemo. simpl. rewrite Hmemo, Hr.
  by rewrite (deepcopy_loop_ints fuel s [] [] zs).
Qed.
End deepcopy.

Section copy_structure.
Variables (s0 : store) (l : nat).
Implicit Types (memo : list (nat * nat)) (news ext : store) (rs : list nat).

Lemma alter_copy (a : value) acc news :
  alter (fun o => o ++ [a]) (length s0) (s0 ++ acc :: news) = s0 ++ (acc ++ [a]) :: news.
Proof. rewrite <- (Nat.add_0_r (length s0)) at 1. by rewrite alter_app_r. Qed.

Lemma fresh_stages_app news ext rs' stages :
  fresh_stages s0 news rs' stages → fresh_stages s0 (news ++ ext) rs' stages.
Proof.
  intros H. eapply Forall2_impl; [exact H|]. intros r' zs [Hlt Hr']. split; [done|].
  by apply lookup_app_l_Some.
Qed.

Lemma memo_inv_app memo news ext :
  memo_inv s0 l memo news → memo_inv s0 l memo (news ++ ext).
Proof.
  intros H r r' Hm. destruct (H r r' Hm) as [?|(zs & ? & ? & ?)]; [by left|right].
  exists zs. split_and!; [done..|]. by apply lookup_app_l_Some.
Qed.

Lemma deepcopy_loop_stages fuel rs stages acc memo news :
  Forall2 (fun r zs => s0 !! r = Some (map VInt zs)) rs stages →
  Forall (fun r => r ≠ l) rs →
  memo_inv s0 l memo news →
  ∃ memo' rs' ext,
    deepcopy_list_loop (deepcopy (S fuel)) (length s0) (map VRef rs) memo (s0 ++ acc :: news)
    = Ok (memo', s0 ++ (acc ++ map VRef rs') :: (news ++ ext))
    ∧ memo_inv s0 l memo' (news ++ ext)
    ∧ fresh_stages s0 (news ++ ext) rs' stages.
Proof.
  intros Hrs. revert acc memo news.
  induction Hrs as [|r zs rs stages Hr _ IH]; intros acc memo news Hne Hinv.
  { exists memo, [], []. rewrite !app_nil_r. split_and!; [done..|constructor]. }
  apply Forall_cons in Hne as [Hrl Hne].
  cbn [map deepcopy_list_loop].
  destruct (memo_get memo r) as [r'|] eqn:Hmemo.
  - assert (deepcopy (S fuel) (VRef r) memo (s0 ++ acc :: news)
            = Ok (VRef r', memo, s0 ++ acc :: news)) as -> by (simpl; by rewrite Hmemo).
    rewrite alter_copy.
    destruct (IH (acc ++ [VRef r']) memo news Hne Hinv) as (memo' & rs' & ext & -> & Hinv' & Hfresh).
    exists memo', (r' :: rs'), ext. split_and!; [|done|].
    + by rewrite <- app_assoc.
    + constructor; [|done].
      destruct (Hinv r r' Hmemo) as [[? _]|(zs' & Hzs' & Hlt & Hnew)]; [done|].
      split; [done|]. apply lookup_app_l_Some.
      rewrite Hr in Hzs'. injection Hzs' as Hzs'. by rewrite Hzs'.
  - assert ((s0 ++ acc :: news) !! r = Some (map VInt zs)) as Hr'.
    { apply lookup_app_l_Some. done. }
    rewrite (deepcopy_stage fuel _ r zs memo Hr' Hmemo).
    set (y := length (s0 ++ acc :: news)).
    assert (y - S (length s0) = length news) as Hy.
    { unfold y. rewrite length_app. simpl. lia. }
    assert (length s0 < y) as Hlt.
    { unfold y. rewrite length_app. simpl. lia. }
    replace ((s0 ++ acc :: news) ++ [map VInt zs]) with (s0 ++ acc :: (news ++ [map VInt zs]))
      by (by rewrite <- app_assoc).
    rewrite alter_copy.
    destruct (IH (acc ++ [VRef y]) ((r, y) :: memo) (news ++ [map VInt zs]) Hne)
      as (memo' & rs' & ext & Heq & Hinv' & Hfresh).
    { intros r0 r0' Hm. simpl in Hm. case_decide; simplify_eq.
      - right. exists zs. split_and!; [done..|]. rewrite Hy.
        by rewrite lookup_app_r, Nat.sub_diag.
      - by apply (memo_inv_app memo news [map VInt zs] Hinv r0 r0'). }
    exists memo', (y :: rs'), ([map VInt zs] ++ ext). rewrite Heq.
    rewrite <- !app_assoc. split_and!; [done| |].
    + by rewrite <- app_assoc in Hinv'.
    + rewrite <- app_assoc in Hfresh. constructor; [|done].
      split; [done|]. rewrite Hy. by rewrite lookup_app_r, Nat.sub_diag.
Qed.
End copy_structure.

Section structures.
Implicit Types (s : store) (rs : list nat) (stages : list (list Z)).

Lemma read_ints_Some (ys : list value) (zs : list Z) :
  mapM (fun a => match a with VInt z => Some z | VRef _ => None end) ys = Some zs
  ↔ ys = map VInt zs.
Proof.
  split.
  - intros H%mapM_Some. induction H as [|[z|r] z' ys zs Hy _ IH]; simplify_eq/=; by f_equal.
  - intros ->. by apply mapM_fmap_Some.
Qed.

Lemma read_stage_Some s x zs :
  read_stage s x = Some zs ↔ ∃ r, x = VRef r ∧ s !! r = Some (map VInt zs).
Proof.
  destruct x as [z|r]; simpl.
  - split; [done|]. by intros (? & ? & _).
  - split.
    + intros (ys & Hys & ->%read_ints_Some)%bind_Some. eauto.
    + intros (? & [= <-] & ->). csimpl. by apply read_ints_Some.
Qed.

Lemma read_structure_Some s v stages :
  read_structure s v = Some stages ↔ ∃ l rs, v = VRef l ∧ is_structure s l rs stages.
Proof.
  destruct v as [z|l]; simpl.
  - split; [done|]. by intros (? & ? & ? & _).
  - split.
    + intros (xs & Hxs & Hm%mapM_Some)%bind_Some.
      assert (∃ rs, xs = map VRef rs ∧ Forall2 (fun r zs => s !! r = Some (map VInt zs)) rs stages)
        as (rs & -> & Hrs).
      { clear Hxs. induction Hm as [|x zs xs stages (r & -> & Hr)%read_stage_Some _ (rs & -> & IH)].
        - exists []. by split; [|constructor].
        - exists (r :: rs). by split; [|constructor]. }
      by exists l, rs.
    + intros (? & rs & [= <-] & Hl & Hrs). rewrite Hl. csimpl. apply mapM_Some.
      clear Hl. induction Hrs as [|r zs rs stages Hr _ IH]; constructor; [|done].
      apply read_stage_Some. eauto.
Qed.

Lemma is_structure_app s ext l rs stages :
  is_structure s l rs stages → is_structure (s ++ ext) l rs stages.
Proof.
  intros [Hl Hrs]. split; [by apply lookup_app_l_Some|].
  eapply Forall2_impl; [exact Hrs|]. intros r zs ?. by apply lookup_app_l_Some.
Qed.

Lemma is_structure_bounds s l rs stages :
  is_structure s l rs stages → l < length s ∧ Forall (fun r => r < length s) rs.
Proof.
  intros [Hl Hrs]. split; [by eapply lookup_lt_Some|].
  apply Forall_forall. intros r Hr. apply list_elem_of_lookup in Hr as [i Hi].
  destruct (Forall2_lookup_l _ _ _ _ _ Hrs Hi) as (zs & _ & Hzs). by eapply lookup_lt_Some.
Qed.

(** A stage is not the outer list. *)
Lemma is_structure_stage_ne s l rs stages :
  is_structure s l rs stages → Forall (fun r => r ≠ l) rs.
Proof.
  intros [Hl Hrs]. apply Forall_forall. intros r Hr ->.
  apply list_elem_of_lookup in Hr as [i Hi].
  destruct (Forall2_lookup_l _ _ _ _ _ Hrs Hi) as (zs & _ & Hzs).
  rewrite Hl in Hzs. injection Hzs as Hzs.
  destruct rs as [|r0 rs]; [done|]. by destruct zs.
Qed.

Lemma structure_objects_is s l rs stages :
  is_structure s l rs stages → structure_objects s (VRef l) = l :: rs.
Proof.
  intros [Hl _]. simpl. rewrite Hl. simpl. f_equal.
  clear Hl. induction rs as [|r rs IH]; [done|]. csimpl. by rewrite IH.
Qed.

(** [copy.deepcopy] of a structure spec: the store grows by the copy, whose
    outer list is the first new object and whose stages are new objects
    with the contents of the stages copied. *)
Lemma copy_deepcopy_structure s l rs stages :
  is_structure s l rs stages →
  ∃ rs' s',
    copy_deepcopy (VRef l) s = Ok (VRef (length s), s')
    ∧ (∃ new, s' = s ++ new)
    ∧ is_structure s' (length s) rs' stages
    ∧ Forall (fun r' => length s < r' < length s') rs'.
Proof.
  intros Hst. pose proof Hst as [Hl Hrs].
  pose proof (is_structure_stage_ne _ _ _ _ Hst) as Hne.
  assert (∃ f, length s = S f) as [f Hf].
  { apply lookup_lt_Some in Hl. destruct (length s); [lia|eauto]. }
  destruct (deepcopy_loop_stages s l f rs stages [] [(l, length s)] [] Hrs Hne)
    as (memo' & rs' & ext & Hloop & _ & Hfresh).
  { intros r r' Hm. simpl in Hm. case_decide; simplify_eq. by left. }
  cbn [app] in Hloop, Hfresh. rewrite <- Hf in Hloop.
  exists rs', (s ++ map VRef rs' :: ext). split_and!.
  - unfold copy_deepcopy.
    rewrite (deepcopy_list_unfold (length s) l [] s (map VRef rs)) by done.
    by rewrite Hloop.
  - eauto.
  - split.
    + by rewrite lookup_app_r, Nat.sub_diag.
    + eapply Forall2_impl; [exact Hfresh|]. intros r' zs [Hlt Hr'].
      rewrite lookup_app_r by lia.
      replace (r' - length s) with (S (r' - S (length s))) by lia. done.
  - apply Forall_forall. intros r' Hr'. apply list_elem_of_lookup in Hr' as [i Hi].
    destruct (Forall2_lookup_l _ _ _ _ _ Hfresh Hi) as (zs & _ & Hlt & Hzs).
    apply lookup_lt_Some in Hzs. rewrite length_app. simpl. lia.
Qed.
End structures.

Section output_widths.
Implicit Types (s : store) (rs : list nat) (stages : list (list Z)).

Lemma is_structure_alter_other s l rs stages f r' :
  is_structure s l rs stages → r' ∉ l :: rs →
  is_structure (alter f r' s) l rs stages.
Proof.
  intros [Hl Hrs] Hnot. apply not_elem_of_cons in Hnot as [Hl' Hnot]. split.
  - by rewrite list_lookup_alter_ne.
  - clear Hl. induction Hrs as [|r zs rs stages Hr _ IH]; constructor.
    + apply not_elem_of_cons in Hnot as [? _]. by rewrite list_lookup_alter_ne.
    + apply IH. by apply not_elem_of_cons in Hnot as [_ ?].
Qed.

Lemma with_output_last r' k rs stages :
  length rs = length stages → last rs = Some r' →
  length (with_output r' k rs stages) = length stages
  ∧ last (with_output r' k rs stages) = (fun zs => zs ++ [k]) <$> last stages.
Proof.
  intros Hlen [rs0 ->]%last_Some. unfold with_output.
  destruct stages as [|zs st0 _] using rev_ind.
  { rewrite length_app in Hlen. simpl in Hlen. lia. }
  rewrite !length_app in Hlen. simpl in Hlen.
  rewrite zip_with_app by lia. rewrite !last_snoc. simpl.
  rewrite decide_True by done. split; [|apply last_snoc].
  rewrite !length_app, length_zip_with. simpl. lia.
Qed.

Lemma is_structure_append s l rs stages r' k :
  is_structure s l rs stages → last rs = Some r' →
  last_append (VRef l) k s = Ok (alter (fun o => o ++ [VInt k]) r' s)
  ∧ is_structure (alter (fun o => o ++ [VInt k]) r' s) l rs (with_output r' k rs stages).
Proof.
  intros Hst Hlast. pose proof Hst as [Hl Hrs].
  pose proof (is_structure_bounds _ _ _ _ Hst) as [_ Hbounds].
  pose proof (is_structure_stage_ne _ _ _ _ Hst) as Hne.
  assert (r' ∈ rs) as Hin.
  { apply last_Some in Hlast as [rs0 ->]. apply elem_of_app. right. left. }
  split.
  - unfold last_append. rewrite Hl.
    change (map VRef rs) with (VRef <$> rs). rewrite fmap_last, Hlast. simpl.
    eapply Forall_forall in Hbounds; [|exact Hin].
    by apply Nat.ltb_lt in Hbounds as ->.
  - split.
    + rewrite list_lookup_alter_ne; [done|]. intros ->.
      by eapply Forall_forall in Hne.
    + unfold with_output. clear Hl Hlast Hin Hbounds Hne Hst.
      induction Hrs as [|r zs rs stages Hr _ IH]; simpl; constructor; [|done].
      case_decide as Hrr.
      * subst r'. rewrite list_lookup_alter_eq, Hr. simpl. by rewrite map_app.
      * by rewrite list_lookup_alter_ne.
Qed.
End output_widths.

Local Arguments last_append : simpl never.
Local Arguments copy_deepcopy : simpl never.

(** C9.  The graph builder copies the configured structure specs before it
    appends the output widths: the objects of the configuration are left as
    they were, the last stage of the network structure ends with the number
    of classes, the last stage of the tutor structure ends with 1, and the two
    structures share no list object with each other or with the
    configuration, so that an append to one is not seen through the other. *)
Theorem build_structures_independent_copies
    (cfg : config) (s0 : store) (stages tstages : list (list Z)) :
  read_structure s0 (network_structure cfg) = Some stages →
  match tutor_structure cfg with
  | Some t => read_structure s0 t = Some tstages
  | None => tstages = stages
  end →
  stages ≠ [] → tstages ≠ [] →
  ∃ network tutor s' nst tst,
    build_structures cfg s0 = Ok (network, tutor, s')
    ∧ take (length s0) s' = s0
    ∧ read_structure s' (network_structure cfg) = Some stages
    ∧ read_structure s' network = Some nst
    ∧ length nst = length stages
    ∧ last nst = (fun zs => zs ++ [Z.of_nat (length (network_classes cfg))]) <$> last stages
    ∧ read_structure s' tutor = Some tst
    ∧ length tst = length tstages
    ∧ last tst = (fun zs => zs ++ [1%Z]) <$> last tstages
    ∧ (∀ o, o ∈ structure_objects s' network → o ∉ structure_objects s' tutor)
    ∧ (∀ o, o ∈ structure_objects s' network ++ structure_objects s' tutor → length s0 ≤ o).
Proof.
  intros Hnet Htut Hne Htne.
  apply read_structure_Some in Hnet as (l & rs & Hl & Hbase).
  (* the copy for the network *)
  destruct (copy_deepcopy_structure s0 l rs stages Hbase)
    as (rs1 & s1 & Hcopy1 & [new1 Hs1] & Hst1 & Hfresh1).
  (* the copy for the tutor, of its own spec or of the network copy *)
  assert (∃ lt rst, is_structure s1 lt rst tstages
                    ∧ match tutor_structure cfg with
                      | Some t => copy_deepcopy t s1
                      | None => copy_deepcopy (VRef (length s0)) s1
                      end = copy_deepcopy (VRef lt) s1) as (lt & rst & Htbase & Hsel).
  { destruct (tutor_structure cfg) as [t|].
    - apply read_structure_Some in Htut as (lt & rst & -> & Htst).
      exists lt, rst. split; [|done]. rewrite Hs1. by apply is_structure_app.
    - subst tstages. by exists (length s0), rs1. }
  destruct (copy_deepcopy_structure s1 lt rst tstages Htbase)
    as (rs2 & s2 & Hcopy2 & [new2 Hs2] & Hst2 & Hfresh2).
  assert (is_structure s2 (length s0) rs1 stages) as Hst1'.
  { rewrite Hs2. by apply is_structure_app. }
  (* the two appends *)
  assert (length rs1 = length stages) as Hlen1 by (destruct Hst1 as [_ H]; by eapply Forall2_length).
  assert (length rs2 = length tstages) as Hlen2 by (destruct Hst2 as [_ H]; by eapply Forall2_length).
  destruct (last rs1) as [r1|] eqn:Hlast1.
  2:{ apply last_None in Hlast1. subst rs1. by destruct stages. }
  destruct (last rs2) as [r2|] eqn:Hlast2.
  2:{ apply last_None in Hlast2. subst rs2. by destruct tstages. }
  set (k := Z.of_nat (length (network_classes cfg))).
  destruct (is_structure_append s2 (length s0) rs1 stages r1 k Hst1' Hlast1) as [Happ1 Hst1''].
  set (s3 := alter (fun o => o ++ [VInt k]) r1 s2) in *.
  assert (length s0 < length s1) as Hs01 by (destruct Hst1 as [H _]; by apply lookup_lt_Some in H).
  assert (length s1 < length s2) as Hs12 by (destruct Hst2 as [H _]; by apply lookup_lt_Some in H).
  assert (length s0 < r1 < length s1) as Hr1.
  { eapply Forall_forall in Hfresh1; [done|]. apply last_Some in Hlast1 as [? ->].
    apply elem_of_app. right. left. }
  assert (length s1 < r2 < length s2) as Hr2.
  { eapply Forall_forall in Hfresh2; [done|]. apply last_Some in Hlast2 as [? ->].
    apply elem_of_app. right. left. }
  assert (is_structure s3 (length s1) rs2 tstages) as Hst2'.
  { apply is_structure_alter_other; [done|]. intros [->|Hin]%elem_of_cons; [lia|].
    eapply Forall_forall in Hfresh2; [|done]. lia. }
  destruct (is_structure_append s3 (length s1) rs2 tstages r2 1 Hst2' Hlast2) as [Happ2 Hst2''].
  set (s4 := alter (fun o => o ++ [VInt 1]) r2 s3) in *.
  assert (is_structure s4 (length s0) rs1 (with_output r1 k rs1 stages)) as Hst1'''.
  { apply is_structure_alter_other; [done|]. intros [->|Hin]%elem_of_cons; [lia|].
    eapply Forall_forall in Hfresh1; [|done]. lia. }
  destruct (with_output_last r1 k rs1 stages Hlen1 Hlast1) as [Hwlen1 Hwlast1].
  destruct (with_output_last r2 1 rs2 tstages Hlen2 Hlast2) as [Hwlen2 Hwlast2].
  exists (VRef (length s0)), (VRef (length s1)), s4,
    (with_output r1 k rs1 stages), (with_output r2 1 rs2 tstages).
  split_and!; try done.
  - unfold build_structures. rewrite Hl, Hcopy1. csimpl. rewrite Hsel, Hcopy2. csimpl.
    fold k. rewrite Happ1. csimpl. by rewrite Happ2.
  - unfold s4, s3. rewrite !take_alter_ge by lia.
    rewrite Hs2, Hs1, <- app_assoc. by rewrite take_app_length.
  - rewrite Hl. apply read_structure_Some. exists l, rs. split; [done|].
    pose proof (is_structure_bounds _ _ _ _ Hbase) as [Hlb Hrsb].
    unfold s4, s3. do 2 (apply is_structure_alter_other;
      [|intros [->|Hin]%elem_of_cons; [lia|]; eapply Forall_forall in Hrsb; [|done]; lia]).
    rewrite Hs2, Hs1. by do 2 apply is_structure_app.
  - apply read_structure_Some. eauto.
  - apply read_structure_Some. eauto.
  - intros o. rewrite (structure_objects_is _ _ _ _ Hst1'''), (structure_objects_is _ _ _ _ Hst2'').
    intros [->|Hin]%elem_of_cons [Heq|Hin']%elem_of_cons; try lia.
    + eapply Forall_forall in Hfresh2; [|done]. lia.
    + eapply Forall_forall in Hfresh1; [|done]. lia.
    + eapply Forall_forall in Hfresh1; [|done]. eapply Forall_forall in Hfresh2; [|done]. lia.
  - intros o. rewrite (structure_objects_is _ _ _ _ Hst1'''), (structure_objects_is _ _ _ _ Hst2'').
    intros [[->|Hin]%elem_of_cons|[->|Hin]%elem_of_cons]%elem_of_app; try lia.
    + eapply Forall_forall in Hfresh1; [|done]. lia.
    + eapply Forall_forall in Hfresh2; [|done]. lia.
Qed.

(* ----------------------------------------------------------------- *)
(** ** Global step and checkpoints                                    *)
(* ----------------------------------------------------------------- *)

Lemma wrap_int32_succ g :
  (- 2 ^ 31 <= g < int32_max)%Z → wrap_int32 (g + 1) = (g + 1)%Z.
Proof.
  unfold wrap_int32, int32_max. intros Hg.
  rewrite Z.mod_small by lia. lia.
Qed.

Lemma global_step_apply_gradients rule gs with_global_step st :
  global_step (apply_gradients rule gs with_global_step st)
  = if with_global_step then wrap_int32 (global_step st + 1) else global_step st.
Proof. unfold apply_gradients. by destruct with_global_step. Qed.

Lemma training_iterator_apply_gradients rule gs with_global_step st :
  training_iterator (apply_gradients rule gs with_global_step st) = training_iterator st.
Proof. unfold apply_gradients. by destruct with_global_step. Qed.

Section dict_get.
Context {V W : Type}.

Lemma dict_get_map (f : V → W) (d : dict V) k :
  dict_get (map (fun kv : string * V => (kv.1, f kv.2)) d) k = f <$> dict_get d k.
Proof.
  induction d as [|[k0 v0] d IH]; simpl; [done|]. by case_decide.
Qed.

Lemma dict_get_elem (d : dict V) k : k ∈ map fst d → is_Some (dict_get d k).
Proof.
  induction d as [|[k0 v0] d IH]; simpl.
  - by intros ?%elem_of_nil.
  - intros [->|Hin]%elem_of_cons; case_decide; eauto; done.
Qed.
End dict_get.

(** Restoring a session from a checkpoint of a session with the same
    variables brings the saved global step back. *)
Lemma saver_restore_save_vars st st0 :
  "global_step:0" ∉ map fst (variables st) →
  map fst (variables st0) ⊆ map fst (variables st) →
  ∃ st1, saver_restore (save_vars st) st0 = Ok st1 ∧ global_step st1 = global_step st.
Proof.
  intros Hfresh Hsub. unfold saver_restore, save_vars.
  assert (∃ vs, restore_variables
                  (dict_set (map (fun kv : string * Q => (kv.1, SavedTensor kv.2)) (variables st))
                     "global_step:0" (SavedInt (global_step st))) (variables st0) = Ok vs)
    as [vs ->].
  { induction (variables st0) as [|[k q] vs0 IH]; [by eexists|].
    simpl in Hsub. destruct IH as [vs IH].
    { intros k' Hk'. apply Hsub. by right. }
    assert (k ∈ map fst (variables st)) as Hk by (apply Hsub; left).
    simpl. unfold restore_variable. simpl.
    rewrite dict_get_set_ne by (intros <-; done).
    rewrite dict_get_map. destruct (dict_get_elem _ _ Hk) as [q' ->]. csimpl.
    rewrite IH. csimpl. by eexists. }
  csimpl. rewrite dict_get_set_eq. by eexists.
Qed.

(** C6 as the code has it.  While the counter is below the largest int32: the
    application of the network optimiser increments the global step by one,
    the application of the tutor optimiser leaves it as it is, so that a
    training step, which applies both, increments it exactly once; a step that
    finds the iterator exhausted leaves it unchanged.  A save writes a
    checkpoint that holds the global step under the name of its variable, and
    a restore brings it back. *)
Theorem global_step_once_per_training_step
    (run_towers : dict Q → list batch → losses * grads)
    (adam gradient_descent : Q → Q → Q) (devices : nat) (st : session) :
  (- 2 ^ 31 <= global_step st < int32_max)%Z →
  (∀ gs, global_step (optimise_mesh_op adam gs st) = (global_step st + 1)%Z)
  ∧ (∀ gs, global_step (optimise_tutor_op gradient_descent gs st) = global_step st)
  ∧ (devices ≤ length (training_iterator st) →
     ∃ ls st', run_train run_towers adam gradient_descent devices st = (Ok ls, st')
               ∧ global_step st' = (global_step st + 1)%Z)
  ∧ (length (training_iterator st) < devices →
     ∃ st', run_train run_towers adam gradient_descent devices st = (Raise OutOfRangeError, st')
            ∧ global_step st' = global_step st)
  ∧ (∃ r st', save_model st = (r, st')
              ∧ last (checkpoints st') = Some (global_step st, save_vars st))
  ∧ dict_get (save_vars st) "global_step:0" = Some (SavedInt (global_step st))
  ∧ (∀ st0, "global_step:0" ∉ map fst (variables st) →
            map fst (variables st0) ⊆ map fst (variables st) →
            ∃ st1, saver_restore (save_vars st) st0 = Ok st1 ∧ global_step st1 = global_step st).
Proof.
  intros Hrange. split_and!.
  - intros gs. unfold optimise_mesh_op.
    by rewrite global_step_apply_gradients, wrap_int32_succ.
  - intros gs. unfold optimise_tutor_op. by rewrite global_step_apply_gradients.
  - intros Hlen. unfold run_train.
    destruct (length (training_iterator st) <? devices)%nat eqn:E.
    { apply Nat.ltb_lt in E. lia. }
    destruct (run_towers _ _) as [ls gs]. eexists _, _. split; [done|].
    unfold optimise_tutor_op, optimise_mesh_op.
    rewrite !global_step_apply_gradients. simpl. by rewrite wrap_int32_succ.
  - intros Hlen. unfold run_train. apply Nat.ltb_lt in Hlen. rewrite Hlen.
    by eexists.
  - unfold save_model, lift, get, modify. unfold mbind, M_bind, mret, M_ret.
    destruct (save_yaml_model (variables st)) as [out|e] eqn:Hexp; simpl; rewrite Hexp;
      eexists _, _; (split; [done|]); simpl; apply last_snoc.
  - unfold save_vars. apply dict_get_set_eq.
  - intros st0. apply saver_restore_save_vars.
Qed.

(** C6 as the claim has it fails: the tutor optimiser applies gradients and
    the global step stays at 0. *)
Lemma tutor_application_keeps_global_step :
  let st := Session [("Tutor/Conv_0/Layer_0/Weights:0", 5%Q)] 0 [] [] [] [] in
  let gs := Grads [] [(Some 1%Q, "Tutor/Conv_0/Layer_0/Weights:0")] in
  variables (optimise_tutor_op (fun x g => x - g)%Q gs st)
    = [("Tutor/Conv_0/Layer_0/Weights:0", (5 - 1)%Q)]
  ∧ global_step (optimise_tutor_op (fun x g => x - g)%Q gs st) ≠ (global_step st + 1)%Z.
Proof. split; [reflexivity|]. simpl. lia. Qed.

(* ----------------------------------------------------------------- *)
(** ** Model exporter                                                 *)
(* ----------------------------------------------------------------- *)

Section py_lists.
Context {B : Type}.
Implicit Types (l : list B) (i : Z).

Lemma py_position_nat l (j : nat) :
  j < length l → py_position l (Z.of_nat j) = Ok j.
Proof.
  intros Hj. unfold py_position.
  destruct (Z.ltb_spec (Z.of_nat j) 0); [lia|].
  destruct (Z.ltb_spec (Z.of_nat j) 0); [lia|]. rewrite Nat2Z.id.
  destruct (Nat.ltb_spec j (length l)); [done|lia].
Qed.

Lemma py_position_last l b :
  py_position (l ++ [b]) (-1) = Ok (length l).
Proof.
  unfold py_position. rewrite length_app. simpl.
  destruct (Z.ltb_spec (-1 + Z.of_nat (length l + 1)) 0); [lia|].
  replace (Z.to_nat (-1 + Z.of_nat (length l + 1))) with (length l) by lia.
  destruct (Nat.ltb_spec (length l) (length l + 1)); [done|lia].
Qed.

Lemma py_position_raises l i e : py_position l i = Raise e → e = IndexError.
Proof. unfold py_position. repeat case_match; congruence. Qed.

Lemma py_update_raises l i (f : B → res B) e :
  (∀ b e', f b = Raise e' → e' = IndexError) →
  py_update l i f = Raise e → e = IndexError.
Proof.
  intros Hf. unfold py_update.
  destruct (py_position l i) as [j|e'] eqn:Hpos; csimpl.
  - destruct (l !! j) as [b|]; [|congruence].
    destruct (f b) as [b'|e'] eqn:Hfb; csimpl; [done|]. intros [= <-]. eauto.
  - intros [= <-]. by eapply py_position_raises.
Qed.
End py_lists.

Section exporter_raises.
Context {A : Type}.

Lemma export_step_raises (st : exporter_state A) item e :
  export_step st item = Raise e → e = IndexError.
Proof.
  destruct item as [[[c l] var] v]. unfold export_step.
  set (st1 := if decide (Z.of_nat c ≠ conv st) then _ else st).
  destruct (decide (Z.of_nat l ≠ layer st1)); csimpl.
  - destruct (py_update (output st1) _ _) as [out|e'] eqn:Hup; csimpl.
    + destruct (py_update out _ _) as [out'|e'] eqn:Hup'; csimpl; [done|].
      intros [= <-]. eapply py_update_raises; [|exact Hup'].
      intros row e2. apply py_update_raises. done.
    + intros [= <-]. eapply py_update_raises; [|exact Hup]. done.
  - destruct (py_update (output st1) _ _) as [out'|e'] eqn:Hup'; csimpl; [done|].
    intros [= <-]. eapply py_update_raises; [|exact Hup'].
    intros row e2. apply py_update_raises. done.
Qed.

Lemma export_loop_raises items (st : exporter_state A) e :
  export_loop st items = Raise e → e = IndexError.
Proof.
  revert st. induction items as [|item items IH]; intros st; simpl; [done|].
  destruct (export_step st item) as [st'|e'] eqn:Hstep; csimpl; [apply IH|].
  intros [= <-]. by eapply export_step_raises.
Qed.

(** The only exception of the exporter is the IndexError of an index out
    of range. *)
Lemma save_yaml_model_raises (variables : dict A) e :
  save_yaml_model variables = Raise e → e = IndexError.
Proof.
  unfold save_yaml_model.
  destruct (export_loop _ _) as [st|e'] eqn:Hloop; csimpl; [done|].
  intros [= <-]. by eapply export_loop_raises.
Qed.
End exporter_raises.

Section key_order.
Implicit Types (k : key).

Global Instance key_le_trans : Transitive key_le.
Proof.
  intros [[c1 l1] v1] [[c2 l2] v2] [[c3 l3] v3]. unfold key_le.
  intros [?|[-> [?|[-> H12]]]] [?|[-> [?|[-> H23]]]]; try (left; lia);
    try (right; split; [done|left; lia]).
  right. split; [done|]. right. split; [done|]. by etrans.
Qed.

Global Instance key_le_total : Total key_le.
Proof.
  intros [[c1 l1] v1] [[c2 l2] v2]. unfold key_le.
  destruct (lt_eq_lt_dec c1 c2) as [[?| ->]|?]; [by left; left| |by right; left].
  destruct (lt_eq_lt_dec l1 l2) as [[?| ->]|?];
    [by left; right; split; [|left]| |by right; right; split; [|left]].
  destruct (total String.le v1 v2); [left|right]; right; split; try done; by right.
Qed.

Lemma key_le_conv c1 l1 v1 c2 l2 v2 :
  key_le (c1, l1, v1) (c2, l2, v2) → c1 < c2 ∨ (c1 = c2 ∧ l1 ≤ l2).
Proof. unfold key_le. intros [?|[-> [?|[-> _]]]]; [left|right|right]; lia. Qed.
End key_order.

Section item_order.
Context {A : Type}.

Global Instance item_le_trans : Transitive (@item_le A).
Proof. intros a b c. unfold item_le. apply key_le_trans. Qed.

Global Instance item_le_total : Total (@item_le A).
Proof. intros a b. unfold item_le. apply key_le_total. Qed.

Lemma sorted_items_sorted (items : list (key * A)) :
  StronglySorted item_le (sorted_items items).
Proof. apply StronglySorted_merge_sort; apply _. Qed.

Lemma sorted_items_perm (items : list (key * A)) : sorted_items items ≡ₚ items.
Proof. apply merge_sort_Permutation. Qed.
End item_order.

Section exporter_updates.
Context {A B : Type}.
Implicit Types (out : list (list (dict A))) (row : list (dict A)) (d : dict A) (k : key).

Lemma py_update_snoc_last (l : list B) b (f : B → res B) :
  py_update (l ++ [b]) (-1) f = (b' ← f b; Ok (l ++ [b'])).
Proof.
  unfold py_update. rewrite py_position_last. csimpl.
  rewrite lookup_app_r, Nat.sub_diag by lia. simpl.
  destruct (f b) as [b'|e]; csimpl; [|done].
  rewrite <- (Nat.add_0_r (length l)) at 1. by rewrite insert_app_r.
Qed.

Lemma py_update_snoc_nat (l : list B) b (f : B → res B) :
  py_update (l ++ [b]) (Z.of_nat (length l)) f = (b' ← f b; Ok (l ++ [b'])).
Proof.
  unfold py_update. rewrite py_position_nat by (rewrite length_app; simpl; lia). csimpl.
  rewrite lookup_app_r, Nat.sub_diag by lia. simpl.
  destruct (f b) as [b'|e]; csimpl; [|done].
  rewrite <- (Nat.add_0_r (length l)) at 1. by rewrite insert_app_r.
Qed.

Lemma lookup3_open_conv out k : lookup3 (out ++ [[]]) k = lookup3 out k.
Proof.
  destruct k as [[c l] var]. unfold lookup3. simpl.
  destruct (decide (c < length out)) as [Hc|Hc].
  - by rewrite lookup_app_l.
  - rewrite (lookup_ge_None_2 out) by lia. rewrite lookup_app_r by lia.
    destruct (c - length out) as [|n]; simpl; [|done]. done.
Qed.

Lemma lookup3_open_layer out row k :
  lookup3 (out ++ [row ++ [[]]]) k = lookup3 (out ++ [row]) k.
Proof.
  destruct k as [[c l] var]. unfold lookup3. simpl.
  destruct (decide (c < length out)) as [Hc|Hc].
  - by rewrite !lookup_app_l.
  - rewrite !lookup_app_r by lia.
    destruct (c - length out) as [|n]; simpl; [|done].
    destruct (decide (l < length row)) as [Hl|Hl].
    + by rewrite lookup_app_l.
    + rewrite (lookup_ge_None_2 row) by lia. rewrite lookup_app_r by lia.
      destruct (l - length row) as [|n]; simpl; done.
Qed.

Lemma lookup3_put out row d var v k :
  lookup3 (out ++ [row ++ [dict_set d var v]]) k
  = if decide (k = (length out, length row, var)) then Some v
    else lookup3 (out ++ [row ++ [d]]) k.
Proof.
  destruct k as [[c l] var']. unfold lookup3. simpl.
  destruct (decide (c < length out)) as [Hc|Hc].
  { rewrite !lookup_app_l by done. rewrite decide_False; [done|]. intros [=]. lia. }
  rewrite !lookup_app_r by lia.
  destruct (decide (c = length out)) as [->|Hc'].
  2:{ rewrite decide_False by congruence.
      destruct (c - length out) as [|n] eqn:E; [lia|]. done. }
  rewrite Nat.sub_diag. simpl.
  destruct (decide (l < length row)) as [Hl|Hl].
  { rewrite !lookup_app_l by done. rewrite decide_False; [done|]. intros [=]. lia. }
  rewrite !lookup_app_r by lia.
  destruct (decide (l = length row)) as [->|Hl'].
  2:{ rewrite decide_False by congruence.
      destruct (l - length row) as [|n] eqn:E; [lia|]. done. }
  rewrite Nat.sub_diag. simpl.
  destruct (decide (var = var')) as [->|Hv].
  - rewrite decide_True by done. apply dict_get_set_eq.
  - rewrite decide_False by congruence. by apply dict_get_set_ne.
Qed.

Lemma items_get_snoc (p : list (key * A)) k2 v2 k :
  items_get p k2 = None →
  items_get (p ++ [(k2, v2)]) k = if decide (k = k2) then Some v2 else items_get p k.
Proof.
  induction p as [|[k' v'] p IH]; simpl; intros Hnone.
  - destruct (decide (k2 = k)), (decide (k = k2)); congruence.
  - destruct (decide (k' = k2)); [done|]. rewrite IH by done.
    destruct (decide (k' = k)), (decide (k = k2)); congruence.
Qed.

Lemma items_get_None (p : list (key * A)) k : k ∉ map fst p → items_get p k = None.
Proof.
  induction p as [|[k' v'] p IH]; simpl; [done|].
  intros [? ?]%not_elem_of_cons. rewrite decide_False by done. auto.
Qed.

Lemma items_get_Some (p : list (key * A)) k v :
  NoDup (map fst p) → items_get p k = Some v ↔ (k, v) ∈ p.
Proof.
  induction p as [|[k' v'] p IH]; simpl; intros Hnd.
  - split; [done|]. by intros ?%elem_of_nil.
  - apply NoDup_cons in Hnd as [Hk' Hnd]. rewrite elem_of_cons, <- IH by done.
    case_decide as Hk.
    + subst k'. split; [intros [= ->]; by left|].
      intros [[= ->]|Hin]; [done|]. rewrite items_get_None in Hin; done.
    + split; [by right|]. intros [[= -> ->]|?]; done.
Qed.
End exporter_updates.

Section exporter_steps.
Context {A : Type}.
Implicit Types (st : exporter_state A) (out : list (list (dict A))) (row : list (dict A)).

Lemma put_snoc out row (d : dict A) var v :
  py_update (out ++ [row ++ [d]]) (Z.of_nat (length out))
    (fun row' => py_update row' (Z.of_nat (length row)) (fun d' => Ok (dict_set d' var v)))
  = Ok (out ++ [row ++ [dict_set d var v]]).
Proof. rewrite py_update_snoc_nat, py_update_snoc_nat. done. Qed.

(** The item belongs to the layer that is open. *)
Lemma export_step_same_layer st out row d c l var v :
  output st = out ++ [row ++ [d]] → length out = c → length row = l →
  conv st = Z.of_nat c → layer st = Z.of_nat l →
  export_step st ((c, l, var), v)
  = Ok {| output := out ++ [row ++ [dict_set d var v]];
          conv := Z.of_nat c; layer := Z.of_nat l |}.
Proof.
  intros Hout <- <- Hconv Hlayer. unfold export_step.
  destruct (decide (Z.of_nat (length out) ≠ conv st)) as [H|_]; [by destruct H|].
  destruct (decide (Z.of_nat (length row) ≠ layer st)) as [H|_]; [by destruct H|].
  csimpl. rewrite Hout, Hconv, Hlayer, put_snoc. done.
Qed.

(** The item opens the next layer of the convolution that is open. *)
Lemma export_step_next_layer st out row d c l var v :
  output st = out ++ [row ++ [d]] → length out = c → length row = l →
  conv st = Z.of_nat c → layer st = Z.of_nat l →
  export_step st ((c, S l, var), v)
  = Ok {| output := out ++ [(row ++ [d]) ++ [dict_set [] var v]];
          conv := Z.of_nat c; layer := Z.of_nat (S l) |}.
Proof.
  intros Hout <- <- Hconv Hlayer. unfold export_step.
  destruct (decide (Z.of_nat (length out) ≠ conv st)) as [H|_]; [by destruct H|].
  destruct (decide (Z.of_nat (S (length row)) ≠ layer st)) as [_|H].
  2:{ exfalso. apply H. rewrite Hlayer. lia. }
  csimpl. rewrite Hout, py_update_snoc_last. csimpl. rewrite Hconv.
  replace (S (length row)) with (length (row ++ [d])) by (rewrite length_app; simpl; lia).
  rewrite put_snoc. done.
Qed.

(** The item opens the next convolution, at its layer 0. *)
Lemma export_step_next_conv st c var v :
  length (output st) = c → conv st ≠ Z.of_nat c →
  export_step st ((c, 0, var), v)
  = Ok {| output := output st ++ [[] ++ [dict_set [] var v]];
          conv := Z.of_nat c; layer := Z.of_nat 0 |}.
Proof.
  intros <- Hconv. unfold export_step.
  destruct (decide (Z.of_nat (length (output st)) ≠ conv st)) as [_|H].
  2:{ exfalso. apply H. intros Heq. by apply Hconv. }
  cbn [output conv layer].
  destruct (decide (Z.of_nat 0 ≠ (-1)%Z)) as [_|H]; [|by destruct H].
  csimpl. rewrite py_update_snoc_last. csimpl.
  change [[]] with ([] ++ [[] : dict A]).
  change (Z.of_nat 0) with (Z.of_nat (length ([] : list (dict A)))).
  rewrite put_snoc. done.
Qed.
End exporter_steps.

Section sorted_contiguous.
Context {A : Type}.
Variables (its : list (key * A)) (C : nat) (L : nat → nat).
Hypothesis Hsorted : StronglySorted item_le its.
Hypothesis Hcont : contiguous C L its.

(** A position that the indices cover lies at or before the last processed
    item, or at or after the next one. *)
Lemma no_key_between p c l var v c2 l2 var2 v2 rest :
  its = (p ++ [((c, l, var), v)]) ++ ((c2, l2, var2), v2) :: rest →
  ∀ c' l', c' < C → l' < L c' →
  (c' < c ∨ (c' = c ∧ l' ≤ l)) ∨ (c2 < c' ∨ (c2 = c' ∧ l2 ≤ l')).
Proof.
  intros Hits c' l' Hc' Hl'. destruct Hcont as (_ & _ & Hall).
  destruct (Hall c' l' Hc' Hl') as (var' & v' & Hin).
  rewrite Hits in Hin, Hsorted.
  apply elem_of_app in Hin as [Hin|Hin].
  - left. apply StronglySorted_app_1_l in Hsorted.
    apply elem_of_app in Hin as [Hin|Hin%list_elem_of_singleton].
    + eapply StronglySorted_app_1_elem_of in Hsorted; [|exact Hin|left].
      apply key_le_conv in Hsorted. lia.
    + injection Hin as -> -> -> ->. lia.
  - right. apply StronglySorted_app_1_r in Hsorted.
    apply elem_of_cons in Hin as [Hin|Hin].
    + injection Hin as -> -> -> ->. lia.
    + apply StronglySorted_cons in Hsorted as [Hall' _].
      eapply Forall_forall in Hall'; [|exact Hin].
      apply key_le_conv in Hall'. lia.
Qed.

Lemma next_key p c l var v c2 l2 var2 v2 rest :
  its = (p ++ [((c, l, var), v)]) ++ ((c2, l2, var2), v2) :: rest →
  (c2 = c ∧ l2 = l) ∨ (c2 = c ∧ l2 = S l) ∨ (c2 = S c ∧ l2 = 0 ∧ S l = L c).
Proof.
  intros Hits. pose proof (no_key_between _ _ _ _ _ _ _ _ _ _ Hits) as Hgap.
  destruct Hcont as (Hin & Hpos & _).
  destruct (Hin c l var v) as [Hc Hl].
  { rewrite Hits. apply elem_of_app. left. apply elem_of_app. right. left. }
  destruct (Hin c2 l2 var2 v2) as [Hc2 Hl2].
  { rewrite Hits. apply elem_of_app. right. left. }
  assert (key_le (c, l, var) (c2, l2, var2)) as Hle.
  { rewrite Hits in Hsorted.
    eapply (StronglySorted_app_1_elem_of item_le _ _ ((c, l, var), v) ((c2, l2, var2), v2))
      in Hsorted; [done| |left]. apply elem_of_app. right. left. }
  apply key_le_conv in Hle.
  destruct (decide (c2 = c)) as [->|Hne].
  - pose proof (Hgap c (S l) Hc). lia.
  - pose proof (Hgap c (S l) Hc). pose proof (Hpos (S c)). pose proof (Hpos c2 Hc2).
    pose proof (Hgap (S c) 0). pose proof (Hgap c2 0 Hc2).
    assert (c2 = S c) as -> by lia. lia.
Qed.

Lemma first_key c2 l2 var2 v2 rest :
  its = ((c2, l2, var2), v2) :: rest → c2 = 0 ∧ l2 = 0.
Proof.
  intros Hits. destruct Hcont as (Hin & Hpos & Hall).
  destruct (Hin c2 l2 var2 v2) as [Hc2 Hl2]; [rewrite Hits; left|].
  assert (0 < C) as HC by lia.
  destruct (Hall 0 0 HC (Hpos 0 HC)) as (var' & v' & Hin0).
  rewrite Hits in Hin0, Hsorted.
  apply elem_of_cons in Hin0 as [Heq|Hin0].
  - by injection Heq as <- <- _ _.
  - apply StronglySorted_cons in Hsorted as [Hall' _].
    eapply Forall_forall in Hall'; [|exact Hin0].
    apply key_le_conv in Hall'. lia.
Qed.

Lemma last_key p c l var v :
  its = p ++ [((c, l, var), v)] → C = S c ∧ L c = S l.
Proof.
  intros Hits. destruct Hcont as (Hin & Hpos & Hall).
  destruct (Hin c l var v) as [Hc Hl].
  { rewrite Hits. apply elem_of_app. right. left. }
  assert (∀ c' l', c' < C → l' < L c' → c' < c ∨ (c' = c ∧ l' ≤ l)) as Hbefore.
  { intros c' l' Hc' Hl'. destruct (Hall c' l' Hc' Hl') as (var' & v' & Hin').
    rewrite Hits in Hin', Hsorted.
    apply elem_of_app in Hin' as [Hin'|Hin'%list_elem_of_singleton].
    - eapply StronglySorted_app_1_elem_of in Hsorted; [|exact Hin'|left].
      apply key_le_conv in Hsorted. lia.
    - injection Hin' as -> -> -> ->. lia. }
  pose proof (Hbefore c (S l) Hc). pose proof (Hpos (S c)). pose proof (Hbefore (S c) 0).
  lia.
Qed.
End sorted_contiguous.

Section export_loop.
Context {A : Type}.
Variables (its : list (key * A)) (C : nat) (L : nat → nat).
Hypothesis Hsorted : StronglySorted item_le its.
Hypothesis Hnodup : NoDup (map fst its).
Hypothesis Hcont : contiguous C L its.

Lemma export_step_inv p item rest (st : exporter_state A) :
  its = p ++ item :: rest → exporter_inv L p st →
  ∃ st', export_step st item = Ok st' ∧ exporter_inv L (p ++ [item]) st'.
Proof.
  intros Hits [Hcontent Hshape]. destruct item as [[[c2 l2] var2] v2].
  assert (items_get p (c2, l2, var2) = None) as Hfresh.
  { apply items_get_None. rewrite Hits, map_app in Hnodup.
    apply NoDup_app in Hnodup as (_ & Hdisj & _). intros Hin.
    apply (Hdisj _ Hin). left. }
  assert (∀ out' : list (list (dict A)),
            (∀ k, lookup3 out' k
                  = if decide (k = (c2, l2, var2)) then Some v2 else lookup3 (output st) k) →
            ∀ k, lookup3 out' k = items_get (p ++ [((c2, l2, var2), v2)]) k) as Hnew.
  { intros out' Hout' k. by rewrite Hout', items_get_snoc, Hcontent. }
  destruct (last p) as [[[[c l] var] v]|] eqn:Hlast.
  - apply last_Some in Hlast as [p0 ->].
    destruct Hshape as (Hconv & Hlayer & out & row & d & Hout & Hlen & Hlen' & Hrows).
    destruct (next_key its C L Hsorted Hcont p0 c l var v c2 l2 var2 v2 rest Hits)
      as [[-> ->]|[[-> ->]|(-> & -> & HL)]].
    + eexists. split; [by eapply export_step_same_layer|].
      split; cbn [output conv layer].
      * apply Hnew. intros k. rewrite lookup3_put, Hout, Hlen, Hlen'. done.
      * rewrite last_snoc. split_and!; [done..|]. by exists out, row, (dict_set d var2 v2).
    + eexists. split; [by eapply export_step_next_layer|].
      split; cbn [output conv layer].
      * apply Hnew. intros k. rewrite lookup3_put, lookup3_open_layer, Hout.
        rewrite length_app, Hlen, Hlen'. simpl. by rewrite Nat.add_1_r.
      * rewrite last_snoc. split_and!; [done..|].
        exists out, (row ++ [d]), (dict_set [] var2 v2). split_and!; [done..| |done].
        rewrite length_app. simpl. lia.
    + assert (length (output st) = S c) as Hlenout.
      { rewrite Hout, length_app. simpl. lia. }
      eexists. split; [eapply export_step_next_conv; [done|lia]|].
      split; cbn [output conv layer].
      * apply Hnew. intros k.
        rewrite lookup3_put, lookup3_open_layer, lookup3_open_conv, Hlenout. done.
      * rewrite last_snoc. split_and!; [done..|].
        exists (output st), [], (dict_set [] var2 v2). split_and!; [done..|].
        intros c' row'. rewrite Hout. intros Hc'.
        apply lookup_app_Some in Hc' as [Hc'|[Hge Hc']]; [by apply Hrows|].
        apply list_lookup_singleton_Some in Hc' as [Hc' <-].
        rewrite length_app. simpl. replace c' with c by lia. lia.
  - apply last_None in Hlast as ->. destruct Hshape as [Hout Hconv].
    destruct (first_key its C L Hsorted Hcont c2 l2 var2 v2 rest Hits) as [-> ->].
    eexists. split; [eapply export_step_next_conv; [by rewrite Hout|lia]|].
    split; cbn [output conv layer].
    + apply Hnew. intros k.
      rewrite lookup3_put, lookup3_open_layer, lookup3_open_conv, Hout. done.
    + simpl. split_and!; [done..|].
      exists (output st), [], (dict_set [] var2 v2). rewrite Hout. split_and!; [done..|].
      intros c' row' Hc'. by rewrite lookup_nil in Hc'.
Qed.

Lemma export_loop_inv rest p (st : exporter_state A) :
  its = p ++ rest → exporter_inv L p st →
  ∃ st', export_loop st rest = Ok st' ∧ exporter_inv L its st'.
Proof.
  revert p st. induction rest as [|item rest IH]; intros p st Hits Hinv.
  - rewrite app_nil_r in Hits. subst p. by exists st.
  - destruct (export_step_inv p item rest st Hits Hinv) as (st1 & Hstep & Hinv1).
    destruct (IH (p ++ [item]) st1) as (st' & Hloop & Hinv'); [by rewrite <- app_assoc|done|].
    exists st'. split; [|done]. simpl. rewrite Hstep. done.
Qed.
End export_loop.

Lemma lookup3_Some {A} (out : list (list (dict A))) c l var v :
  lookup3 out (c, l, var) = Some v
  ↔ ∃ row d, out !! c = Some row ∧ row !! l = Some d ∧ dict_get d var = Some v.
Proof.
  unfold lookup3. simpl. split.
  - intros (row & Hrow & (d & Hd & Hv)%bind_Some)%bind_Some. eauto.
  - intros (row & d & -> & Hd & Hv). csimpl. rewrite Hd. done.
Qed.

(** C10.  When the keys of the matching parameters are pairwise distinct,
    their convolution indices are exactly 0 .. C-1 and, within convolution
    [c], their layer indices are exactly 0 .. L c - 1, the exporter returns a
    structure of outer length C whose entry [c] has length [L c] and whose
    position [c][l] maps each role of that layer to its array, and nothing
    else.  With a gap in the convolution indices (0 and 2) or in the layer
    indices (0 and 2) the exporter raises an IndexError. *)
Theorem save_yaml_model_contiguous_indices {A : Type} :
  (∀ (variables : dict A) (C : nat) (L : nat → nat),
     NoDup (map fst (export_items variables)) →
     contiguous C L (export_items variables) →
     ∃ out,
       save_yaml_model variables = Ok out
       ∧ length out = C
       ∧ (∀ c row, out !! c = Some row → length row = L c)
       ∧ (∀ c l var v,
            ((c, l, var), v) ∈ export_items variables
            ↔ ∃ row d, out !! c = Some row ∧ row !! l = Some d ∧ dict_get d var = Some v))
  ∧ (∀ w0 w2 : A,
       save_yaml_model [("Network/Conv_0/Layer_0/Weights:0", w0);
                        ("Network/Conv_2/Layer_0/Weights:0", w2)] = Raise IndexError)
  ∧ (∀ w0 w2 : A,
       save_yaml_model [("Network/Conv_0/Layer_0/Weights:0", w0);
                        ("Network/Conv_0/Layer_2/Weights:0", w2)] = Raise IndexError).
Proof.
  split; [|split; reflexivity].
  intros variables C L Hnodup Hcont.
  set (items := export_items variables) in *.
  pose proof (sorted_items_sorted items) as Hsorted.
  pose proof (sorted_items_perm items) as Hperm.
  set (its := sorted_items items) in *.
  assert (NoDup (map fst its)) as Hnodup' by (by rewrite Hperm).
  assert (contiguous C L its) as Hcont'.
  { destruct Hcont as (H1 & H2 & H3). split_and!; [|done|].
    - intros c l var v Hin. rewrite Hperm in Hin. eauto.
    - intros c l Hc Hl. destruct (H3 c l Hc Hl) as (var & v & Hin).
      exists var, v. by rewrite Hperm. }
  destruct (export_loop_inv its C L Hsorted Hnodup' Hcont' its []
              {| output := []; conv := (-1)%Z; layer := (-1)%Z |})
    as (st & Hloop & Hcontent & Hshape); [done| |].
  { split; [|done]. by intros [[c l] var]. }
  exists (output st). unfold save_yaml_model. fold items. fold its. rewrite Hloop. csimpl.
  split; [done|].
  assert (∀ c l var v, ((c, l, var), v) ∈ items
            ↔ ∃ row d, output st !! c = Some row ∧ row !! l = Some d ∧ dict_get d var = Some v)
    as Hmembers.
  { intros c l var v. rewrite <- lookup3_Some, Hcontent, items_get_Some by done.
    by rewrite Hperm. }
  destruct (last its) as [[[[c l] var] v]|] eqn:Hlast.
  - apply last_Some in Hlast as [p Hp].
    destruct (last_key its C L Hsorted Hcont' p c l var v Hp) as [-> HL].
    destruct Hshape as (_ & _ & out & row & d & Hout & Hlen & Hlen' & Hrows).
    rewrite Hout. split_and!; [|by (intros c' row' Hc';
      apply lookup_app_Some in Hc' as [Hc'|[Hge Hc']]; [by apply Hrows|];
      apply list_lookup_singleton_Some in Hc' as [Hc' <-];
      rewrite length_app; simpl; replace c' with c by lia; lia)|].
    + rewrite length_app. simpl. lia.
    + by rewrite <- Hout.
  - apply last_None in Hlast. destruct Hshape as [Hout _]. rewrite Hout.
    destruct Hcont' as (_ & Hpos & Hall).
    assert (C = 0) as ->.
    { destruct C as [|C']; [done|].
      destruct (Hall 0 0) as (var & v & Hin); [lia|apply Hpos; lia|].
      rewrite Hlast in Hin. by apply elem_of_nil in Hin. }
    split_and!; [done| |by rewrite <- Hout].
    intros c row Hc. by rewrite lookup_nil in Hc.
Qed.

(* ----------------------------------------------------------------- *)
(** ** Training loop driver                                           *)
(* ----------------------------------------------------------------- *)

Section driver_facts.
Variable run_towers : dict Q → list batch → losses * grads.
Variables adam gradient_descent : Q → Q → Q.
Variable cfg : config.
Variable devices : nat.

(** The handler stops at the first name that nothing binds, before it has
    any effect on the session. *)
Lemma wind_down_NameError st :
  wind_down st = (Raise (NameError "validation_summary"), st).
Proof. reflexivity. Qed.

Lemma run_train_cases st :
  (length (training_iterator st) < devices
   ∧ run_train run_towers adam gradient_descent devices st
     = (Raise OutOfRangeError, set_training_iterator [] st))
  ∨ (devices ≤ length (training_iterator st)
     ∧ ∃ ls st1, run_train run_towers adam gradient_descent devices st = (Ok ls, st1)
                 ∧ training_iterator st1 = drop devices (training_iterator st)).
Proof.
  unfold run_train. destruct (_ <? _)%nat eqn:E.
  - left. by apply Nat.ltb_lt in E.
  - right. apply Nat.ltb_ge in E. split; [done|].
    destruct (run_towers _ _) as [ls gs]. eexists _, _. split; [done|].
    unfold optimise_tutor_op, optimise_mesh_op.
    by rewrite !training_iterator_apply_gradients.
Qed.

(** What follows the training op in the [try] block leaves the iterator as
    it is, and it raises nothing but a division by a zero frequency or the
    IndexError of the exporter. *)
Lemma training_step_cases st ls st1 :
  run_train run_towers adam gradient_descent devices st = (Ok ls, st1) →
  ∃ r st', training_step run_towers adam gradient_descent cfg devices st = (r, st')
    ∧ training_iterator st' = training_iterator st1
    ∧ (r = Ok () ∨ r = Raise ZeroDivisionError ∨ r = Raise IndexError).
Proof.
  intros Hrun. unfold training_step, save_model, py_mod, lift, get, modify.
  unfold mbind, M_bind, mret, M_ret. rewrite Hrun.
  destruct (validation_frequency cfg =? 0)%Z; [by eexists _, _; eauto|].
  destruct (save_frequency cfg =? 0)%Z;
    [by destruct (_ =? 0)%Z; eexists _, _; eauto|].
  destruct (_ =? 0)%Z; (destruct (_ =? 0)%Z; [|by eexists _, _; eauto]); simpl;
    (destruct (save_yaml_model _) as [out|e] eqn:Hexp;
     [by eexists _, _; eauto|];
     apply save_yaml_model_raises in Hexp as ->; by eexists _, _; eauto).
Qed.
End driver_facts.

Section training_loop_facts.
Variable run_towers : dict Q → list batch → losses * grads.
Variables adam gradient_descent : Q → Q → Q.
Variable cfg : config.
Variable devices : nat.
Hypothesis Hdevices : 0 < devices.

Lemma iteration_exhausted st :
  length (training_iterator st) < devices →
  iteration run_towers adam gradient_descent cfg devices st
  = (Raise (NameError "validation_summary"), set_training_iterator [] st).
Proof.
  intros Hlen. unfold iteration, try_except_OutOfRangeError, training_step.
  unfold mbind at 1. unfold M_bind. unfold mbind at 1. unfold M_bind.
  destruct (run_train_cases run_towers adam gradient_descent devices st)
    as [[_ ->]|[Hge _]]; [|lia]. reflexivity.
Qed.

Lemma iteration_step st :
  devices ≤ length (training_iterator st) →
  ∃ r st', iteration run_towers adam gradient_descent cfg devices st = (r, st')
    ∧ length (training_iterator st') < length (training_iterator st)
    ∧ (r = Ok Continue ∨ r = Raise ZeroDivisionError ∨ r = Raise IndexError).
Proof.
  intros Hlen.
  destruct (run_train_cases run_towers adam gradient_descent devices st)
    as [[Hlt _]|[_ (ls & st1 & Hrun & Hit)]]; [lia|].
  destruct (training_step_cases run_towers adam gradient_descent cfg devices st ls st1 Hrun)
    as (r & st' & Hstep & Hit' & Hr).
  assert (length (training_iterator st') < length (training_iterator st)) as Hdec.
  { rewrite Hit', Hit, length_drop. lia. }
  unfold iteration, try_except_OutOfRangeError. unfold mbind at 1. unfold M_bind.
  rewrite Hstep. destruct Hr as [->|[->| ->]]; eexists _, _; eauto.
Qed.

Lemma while_true_raises fuel st :
  length (training_iterator st) < fuel →
  ∃ e st', while_true fuel (iteration run_towers adam gradient_descent cfg devices) st
           = (Raise e, st')
    ∧ (e = NameError "validation_summary" ∨ e = ZeroDivisionError ∨ e = IndexError).
Proof.
  revert st. induction fuel as [|fuel IH]; intros st Hfuel; [lia|].
  cbn [while_true].
  destruct (decide (length (training_iterator st) < devices)) as [Hlt|Hge].
  - rewrite (iteration_exhausted st Hlt). eauto.
  - destruct (iteration_step st) as (r & st' & -> & Hdec & [->|[->| ->]]); [lia|..].
    + apply IH. lia.
    + eexists _, _. eauto.
    + eexists _, _. eauto.
Qed.
End training_loop_facts.

(** C2 (the code departs from the claim).  With at least one device: when the
    training iterator is exhausted, the iteration ends with the NameError of
    the first name of the handler, validation_summary, and the session is the
    one the failed training op left: nothing has been validated, drawn, saved
    or exported; and no run of the loop returns normally: every run ends with
    that NameError, or before with the division by a zero frequency or the
    IndexError of the exporter. *)
Theorem training_loop_wind_down_raises
    (run_towers : dict Q → list batch → losses * grads)
    (adam gradient_descent : Q → Q → Q) (cfg : config) (devices : nat) :
  0 < devices →
  (∀ st, length (training_iterator st) < devices →
         run_train run_towers adam gradient_descent devices st
         = (Raise OutOfRangeError, set_training_iterator [] st)
         ∧ iteration run_towers adam gradient_descent cfg devices st
           = (Raise (NameError "validation_summary"), set_training_iterator [] st)
         ∧ events (set_training_iterator [] st) = events st
         ∧ checkpoints (set_training_iterator [] st) = checkpoints st
         ∧ yaml_models (set_training_iterator [] st) = yaml_models st)
  ∧ (∀ st, ∃ e st',
        training_loop run_towers adam gradient_descent cfg devices st = (Raise e, st')
        ∧ (e = NameError "validation_summary" ∨ e = ZeroDivisionError ∨ e = IndexError)).
Proof.
  intros Hdevices. split.
  - intros st Hlen. split_and!; [|by apply iteration_exhausted|done..].
    destruct (run_train_cases run_towers adam gradient_descent devices st)
      as [[_ ->]|[Hge _]]; [done|lia].
  - intros st. unfold training_loop. apply while_true_raises; [done|lia].
Qed.

Lemma device_count_pos gpus : 0 < device_count gpus.
Proof. unfold device_count. destruct (Nat.eqb_spec gpus 0); lia. Qed.

(** The graph construction and the restore raise Python exceptions only. *)
Lemma deepcopy_list_loop_raises rec y xs memo s e :
  (∀ a memo' s' e', rec a memo' s' = Raise e' → e' ≠ OutOfFuel) →
  deepcopy_list_loop rec y xs memo s = Raise e → e ≠ OutOfFuel.
Proof.
  intros Hrec. revert memo s. induction xs as [|a xs IH]; intros memo s; simpl; [done|].
  destruct (rec a memo s) as [[[a' memo'] s']|e'] eqn:Ha; [apply IH|].
  intros [= <-]. by eapply Hrec.
Qed.

Lemma deepcopy_raises fuel x memo s e :
  deepcopy fuel x memo s = Raise e → e ≠ OutOfFuel.
Proof.
  revert x memo s e. induction fuel as [|fuel IH]; intros [z|l] memo s e; simpl; try done.
  - destruct (memo_get memo l); [done|]. by intros [= <-].
  - destruct (memo_get memo l); [done|]. destruct (s !! l) as [xs|]; [|by intros [= <-]].
    destruct (deepcopy_list_loop _ _ _ _ _) as [[memo' s']|e'] eqn:Hloop; [done|].
    intros [= <-]. eapply deepcopy_list_loop_raises; [|exact Hloop]. apply IH.
Qed.

Lemma build_structures_raises cfg s e :
  build_structures cfg s = Raise e → e ≠ OutOfFuel.
Proof.
  assert (∀ x s' e', copy_deepcopy x s' = Raise e' → e' ≠ OutOfFuel) as Hcopy.
  { intros x s' e'. unfold copy_deepcopy.
    destruct (deepcopy _ _ _ _) as [[[y memo] s'']|e''] eqn:Hd; [done|].
    intros [= <-]. by eapply deepcopy_raises. }
  assert (∀ x k s' e', last_append x k s' = Raise e' → e' ≠ OutOfFuel) as Happend.
  { intros x k s' e'. unfold last_append. repeat case_match; by intros [= <-]. }
  unfold build_structures.
  destruct (copy_deepcopy (network_structure cfg) s) as [[network s1]|e1] eqn:H1; csimpl;
    [|intros [= <-]; by eapply Hcopy].
  destruct (match tutor_structure cfg with
            | Some t => copy_deepcopy t s1
            | None => copy_deepcopy network s1
            end) as [[tutor s2]|e2] eqn:H2; csimpl.
  2:{ intros [= <-]. destruct (tutor_structure cfg); by eapply Hcopy. }
  destruct (last_append network _ s2) as [s3|e3] eqn:H3; csimpl;
    [|intros [= <-]; by eapply Happend].
  destruct (last_append tutor 1 s3) as [s4|e4] eqn:H4; csimpl; [done|].
  intros [= <-]. by eapply Happend.
Qed.

Lemma saver_restore_raises file st e : saver_restore file st = Raise e → e = KeyError.
Proof.
  assert (∀ vs e', restore_variables file vs = Raise e' → e' = KeyError) as Hvs.
  { induction vs as [|kv vs IH]; intros e'; simpl; [done|].
    unfold restore_variable. destruct (dict_get file kv.1) as [[q|z]|]; csimpl;
      try (by intros [= <-]).
    destruct (restore_variables file vs) as [vs'|e''] eqn:Hr; csimpl; [done|].
    intros [= <-]. by apply IH. }
  unfold saver_restore.
  destruct (restore_variables file (variables st)) as [vs|e'] eqn:Hr; csimpl.
  - repeat case_match; by intros [= <-].
  - intros [= <-]. by eapply Hvs.
Qed.

(** Hence no call of [train] returns normally: it ends with a Python
    exception, which is not the model's lack of fuel. *)
Lemma train_never_returns_normally
    (run_towers : dict Q → list batch → losses * grads)
    (adam gradient_descent : Q → Q → Q) (cfg : config) (gpus : nat)
    (s : store) (initial : dict Q) (dataset : list batch) (disk : list (Z * dict saved)) :
  ∃ e st, train run_towers adam gradient_descent cfg gpus s initial dataset disk = (Raise e, st)
          ∧ e ≠ OutOfFuel.
Proof.
  assert (∀ st, ∃ e st',
            training_loop run_towers adam gradient_descent cfg (device_count gpus) st
            = (Raise e, st') ∧ e ≠ OutOfFuel) as Hloop.
  { intros st. unfold training_loop.
    destruct (while_true_raises run_towers adam gradient_descent cfg (device_count gpus)
                (device_count_pos gpus) (S (length (training_iterator st))) st)
      as (e & st' & -> & He); [lia|].
    exists e, st'. split; [done|]. by destruct He as [->|[->| ->]]. }
  unfold train. destruct (build_structures cfg s) as [?|e] eqn:Hbuild.
  2:{ eexists _, _. split; [done|]. by eapply build_structures_raises. }
  destruct (last disk) as [[step file]|]; [|apply Hloop].
  destruct (saver_restore file _) as [st'|e] eqn:Hrestore; [apply Hloop|].
  eexists _, _. split; [done|]. by apply saver_restore_raises in Hrestore as ->.
Qed.

(** A run of [train] on a dataset of two batches, one epoch, no accelerator
    (hence one device) and frequencies 2 and 3: two training steps, the validation of step 2, then
    the exhaustion of the iterator and the NameError of the handler; no final
    validation, image, checkpoint or export is in the session. *)
Example train_two_batches :
  let cfg :=
    {| network_classes := [("ball", (255, 0, 0)%Z); ("goal", (0, 255, 0)%Z)];
       network_structure := VRef 0; tutor_structure := None;
       tutor_threshold := 1 # 10; tutor_base_weight := 1 # 2; epochs := 1;
       validation_frequency := 2; save_frequency := 3 |} in
  let s : store := [[VRef 1; VRef 2]; [VInt 4; VInt 8]; [VInt 16]] in
  let b := Batch [] [] [] [] [] [] [] in
  let run_towers (vs : dict Q) (bs : list batch) :=
    (Losses (Fin 1) (Fin 1) (Fin 1),
     Grads [(Some 1%Q, "Network/Conv_0/Layer_0/Weights:0")] []) in
  let descent (x g : Q) := (x - g)%Q in
  train run_towers descent descent cfg 0 s
    [("Network/Conv_0/Layer_0/Weights:0", 5%Q)] [b; b] []
  = (Raise (NameError "validation_summary"),
     {| variables := [("Network/Conv_0/Layer_0/Weights:0", (5 - 1 - 1)%Q)];
        global_step := 2;
        training_iterator := [];
        events := [TrainingSummary 1; PrintBatch 1 (Fin 1) (Fin 1);
                   TrainingSummary 2; PrintBatch 2 (Fin 1) (Fin 1);
                   ValidationSummary 2];
        checkpoints := [];
        yaml_models := [] |}).
Proof. reflexivity. Qed.

(* ----------------------------------------------------------------- *)
(** ** The theorems on concrete inputs                                *)
(* ----------------------------------------------------------------- *)


(** The merged lists of these two devices. *)
Example merge_ops_grads_two_devices_value :
  let data := Batch [] [] [] [] [] [] [] in
  let bundle (gx gt : list grad_entry) : device_bundle :=
    Ops data [] [] (Losses (Fin 1) (Fin 1) (Fin 1)) (Grads gx gt)
        [("Global", Metric (Fin 1) 0 0 0 0)] in
  op_grads <$>
    _merge_ops
      [bundle [(Some 4%Q, "a"); (Some 1%Q, "b"); (Some 1%Q, "c")] [(Some 3%Q, "t")];
       bundle [(Some 2%Q, "a"); (None, "b"); (Some 1%Q, "c")] [(Some 5%Q, "t")]]
  = Some (Grads [(Some ((4 + (2 + 0)) / inject_Z 2)%Q, "a");
                 (Some ((1 + (1 + 0)) / inject_Z 2)%Q, "c")]
                [(Some ((3 + (5 + 0)) / inject_Z 2)%Q, "t")]).
Proof. reflexivity. Qed.

(** The absent gradient excludes the parameter: it is not averaged as zero. *)
Example merge_grads_two_devices_value :
  merge_grads 2
    [[(Some 4%Q, "a"); (Some 1%Q, "b"); (Some 1%Q, "c")];
     [(Some 2%Q, "a"); (None, "b"); (Some 1%Q, "c")]]
  = [(Some ((4 + (2 + 0)) / inject_Z 2)%Q, "a"); (Some ((1 + (1 + 0)) / inject_Z 2)%Q, "c")].
Proof. reflexivity. Qed.


(** The mapping of that batch: the counts of the two classes and their sums. *)
Example metrics_global_counts_two_classes_value :
  let softmax (X : list (list Q)) := X in
  let cross_entropy (X Y : list (list Q)) := map (fun _ => (7 # 10)) X in
  let X := [[2; 1]; [0; 3]; [1; 0]]%Q in
  let Y := [[1; 0]; [0; 1]; [0; 1]]%Q in
  let classes := [("ball", (255, 0, 0)%Z); ("goal", (0, 255, 0)%Z)] in
  map (fun km : string * metric => (km.1, (m_tp km.2, m_tn km.2, m_fp km.2, m_fn km.2)))
    <$> _metrics softmax cross_entropy X Y classes
  = Some [("ball", (1, 1, 1, 0)%Z); ("goal", (1, 1, 0, 1)%Z); ("Global", (2, 2, 1, 1)%Z)].
Proof. reflexivity. Qed.

(** The failing input of C1 with 7/10 standing for ln 2, the cross-entropy of
    a point with two equal logits: the class losses are 7/10 and 7/10, their
    mean is 7/10, the Global loss is 1. *)
Lemma metrics_global_loss_uniform_logits :
  let softmax (X : list (list Q)) := map (map (fun _ => (1 # 2))) X in
  let cross_entropy (X Y : list (list Q)) := map (fun _ => (7 # 10)) X in
  let X := [[0; 0]; [0; 0]]%Q in
  let Y := [[1; 0]; [0; 1]]%Q in
  let classes := [("ball", (255, 0, 0)%Z); ("goal", (0, 255, 0)%Z)] in
  cross_entropy X Y = [(7 # 10); (7 # 10)]
  ∧ ¬ ((7 # 10) == 0)%Q
  ∧ ¬ (((7 # 10) + (7 # 10)) / 2 == 1)%Q
  ∧ ∃ m ball goal g q,
      _metrics softmax cross_entropy X Y classes = Some m
      ∧ dict_get m "ball" = Some ball ∧ (∃ qa, m_loss ball = Fin qa ∧ (qa == (7 # 10))%Q)
      ∧ dict_get m "goal" = Some goal ∧ (∃ qb, m_loss goal = Fin qb ∧ (qb == (7 # 10))%Q)
      ∧ dict_get m "Global" = Some g ∧ m_loss g = Fin q ∧ (q == 1)%Q.
Proof.
  intros softmax cross_entropy X Y classes.
  split; [reflexivity|]. split; [by intros H; vm_compute in H|].
  split; [by intros H; vm_compute in H|].
  apply (metrics_global_loss_counts_classes softmax cross_entropy (7 # 10) (7 # 10));
    [reflexivity|by intros H; vm_compute in H..].
Defined.


Example tutor_loss_three_points_value :
  let cfg :=
    {| network_classes := [("ball", (255, 0, 0)%Z); ("goal", (0, 255, 0)%Z)];
       network_structure := VRef 0; tutor_structure := None;
       tutor_threshold := 1 # 10; tutor_base_weight := 1 # 2; epochs := 1;
       validation_frequency := 2; save_frequency := 3 |} in
  (tutor_loss cfg [1 # 2; 1 # 4; 1 # 2] [1 # 2; 1 # 4; 1] == 1 # 4)%Q
  ∧ (tutor_loss cfg [1 # 2; 1 # 4; 1 # 2] [1 # 2; 1 # 4; 1 # 2] == 0)%Q.
Proof. split; reflexivity. Qed.

(** The scenario of the specification after masking: three points labelled
    class 0, class 1 and class 2. *)
Lemma class_weights_three_points :
  let cfg :=
    {| network_classes :=
         [("ball", (255, 0, 0)%Z); ("goal", (0, 255, 0)%Z); ("line", (0, 0, 255)%Z)];
       network_structure := VRef 0; tutor_structure := None;
       tutor_threshold := 1 # 10; tutor_base_weight := 1 # 2; epochs := 1;
       validation_frequency := 2; save_frequency := 3 |} in
  let T := [1 # 2; 1 # 4; 3 # 4]%Q in
  let Y := [[1; 0; 0]; [0; 1; 0]; [0; 0; 1]]%Q in
  length T = length Y
  ∧ Forall (fun t => (0 < t + tutor_base_weight cfg)%Q) T
  ∧ (∃ i, i < length (network_classes cfg) ∧ has_member Y i)
  ∧ (∀ i, i < length (network_classes cfg) →
          (has_member Y i →
             (reduce_sum (class_scatter cfg T Y i) == 1)%Q
             ∧ ¬ (reduce_sum (map (fun t => t + tutor_base_weight cfg)
                               (gather_nd T (tf_where Qnonzero (column Y i)))) == 0)%Q)
          ∧ (¬ has_member Y i → class_scatter cfg T Y i = replicate (length T) 0%Q))
  ∧ (0 < active_classes cfg T Y)%Z
  ∧ ∃ w, W cfg T Y = Some w ∧ length w = length T ∧ (reduce_sum w == 1)%Q.
Proof.
  intros cfg T Y.
  assert (Forall (fun t => (0 < t + tutor_base_weight cfg)%Q) T) as Hpos.
  { repeat constructor. }
  assert (∃ i, i < length (network_classes cfg) ∧ has_member Y i) as Hlab.
  { exists 2. split; [simpl; lia|]. exists 2, [0; 0; 1]%Q.
    split; [reflexivity|]. by intros H; vm_compute in H. }
  split; [reflexivity|]. split; [done|]. split; [done|].
  apply (class_weights_normalised cfg T Y); [reflexivity|done..].
Defined.

(** The class weight of class 2 is 1 on its one point and 0 elsewhere. *)
Example class_scatter_single_member :
  let cfg :=
    {| network_classes :=
         [("ball", (255, 0, 0)%Z); ("goal", (0, 255, 0)%Z); ("line", (0, 0, 255)%Z)];
       network_structure := VRef 0; tutor_structure := None;
       tutor_threshold := 1 # 10; tutor_base_weight := 1 # 2; epochs := 1;
       validation_frequency := 2; save_frequency := 3 |} in
  Forall2 Qeq
    (class_scatter cfg [1 # 2; 1 # 4; 3 # 4]%Q [[1; 0; 0]; [0; 1; 0]; [0; 0; 1]]%Q 2)
    [0; 0; 1]%Q.
Proof. repeat constructor. Qed.

(** A session at step 41. *)
Lemma global_step_at_step_41 :
  let run_towers (vs : dict Q) (bs : list batch) :=
    (Losses (Fin 1) (Fin 1) (Fin 1),
     Grads [(Some 1%Q, "Network/Conv_0/Layer_0/Weights:0")]
           [(Some 1%Q, "Tutor/Conv_0/Layer_0/Weights:0")]) in
  let descent (x g : Q) := (x - g)%Q in
  let b := Batch [] [] [] [] [] [] [] in
  let st :=
    {| variables := [("Network/Conv_0/Layer_0/Weights:0", 5%Q);
                     ("Tutor/Conv_0/Layer_0/Weights:0", 7%Q)];
       global_step := 41; training_iterator := [b; b]; events := [];
       checkpoints := []; yaml_models := [] |} in
  (- 2 ^ 31 <= global_step st < int32_max)%Z
  ∧ (∀ gs, global_step (optimise_mesh_op descent gs st) = 42%Z)
  ∧ (∀ gs, global_step (optimise_tutor_op descent gs st) = 41%Z)
  ∧ dict_get (save_vars st) "global_step:0" = Some (SavedInt 41).
Proof.
  intros run_towers descent b st.
  assert ((- 2 ^ 31 <= global_step st < int32_max)%Z) as Hrange.
  { unfold int32_max. simpl. lia. }
  split; [done|].
  destruct (global_step_once_per_training_step run_towers descent descent 1 st Hrange)
    as (Hmesh & Htutor & _ & _ & _ & Hsaved & _).
  split; [exact Hmesh|]. split; [exact Htutor|]. exact Hsaved.
Defined.

(** One device and a session whose training iterator is exhausted. *)
Lemma wind_down_one_device :
  let run_towers (vs : dict Q) (bs : list batch) :=
    (Losses (Fin 1) (Fin 1) (Fin 1),
     Grads [(Some 1%Q, "Network/Conv_0/Layer_0/Weights:0")] []) in
  let descent (x g : Q) := (x - g)%Q in
  let cfg :=
    {| network_classes := [("ball", (255, 0, 0)%Z); ("goal", (0, 255, 0)%Z)];
       network_structure := VRef 0; tutor_structure := None;
       tutor_threshold := 1 # 10; tutor_base_weight := 1 # 2; epochs := 1;
       validation_frequency := 2; save_frequency := 3 |} in
  let st :=
    {| variables := [("Network/Conv_0/Layer_0/Weights:0", 5%Q)];
       global_step := 2; training_iterator := []; events := [];
       checkpoints := []; yaml_models := [] |} in
  0 < 1
  ∧ iteration run_towers descent descent cfg 1 st
    = (Raise (NameError "validation_summary"), st)
  ∧ ∃ e st', training_loop run_towers descent descent cfg 1 st = (Raise e, st')
             ∧ (e = NameError "validation_summary" ∨ e = ZeroDivisionError ∨ e = IndexError).
Proof.
  intros run_towers descent cfg st. split; [lia|].
  destruct (training_loop_wind_down_raises run_towers descent descent cfg 1) as [Hex Hloop];
    [lia|].
  split; [|exact (Hloop st)].
  destruct (Hex st) as (_ & Hit & _); [simpl; lia|]. exact Hit.
Defined.

(** A structure of two stages, and no structure of its own for the tutor. *)
Lemma build_structures_two_stages :
  let cfg :=
    {| network_classes := [("ball", (255, 0, 0)%Z); ("goal", (0, 255, 0)%Z)];
       network_structure := VRef 0; tutor_structure := None;
       tutor_threshold := 1 # 10; tutor_base_weight := 1 # 2; epochs := 1;
       validation_frequency := 2; save_frequency := 3 |} in
  let s0 : store := [[VRef 1; VRef 2]; [VInt 4; VInt 8]; [VInt 16]] in
  let stages := [[4; 8]; [16]]%Z in
  read_structure s0 (network_structure cfg) = Some stages
  ∧ stages ≠ []
  ∧ ∃ network tutor s' nst tst,
      build_structures cfg s0 = Ok (network, tutor, s')
      ∧ take (length s0) s' = s0
      ∧ read_structure s' (network_structure cfg) = Some stages
      ∧ read_structure s' network = Some nst
      ∧ length nst = length stages
      ∧ last nst = (fun zs => zs ++ [Z.of_nat (length (network_classes cfg))]) <$> last stages
      ∧ read_structure s' tutor = Some tst
      ∧ length tst = length stages
      ∧ last tst = (fun zs => zs ++ [1%Z]) <$> last stages
      ∧ (∀ o, o ∈ structure_objects s' network → o ∉ structure_objects s' tutor)
      ∧ (∀ o, o ∈ structure_objects s' network ++ structure_objects s' tutor → length s0 ≤ o).
Proof.
  intros cfg s0 stages. split; [reflexivity|]. split; [done|].
  apply (build_structures_independent_copies cfg s0 stages stages); [reflexivity|reflexivity|done..].
Defined.

Example build_structures_two_stages_value :
  let cfg :=
    {| network_classes := [("ball", (255, 0, 0)%Z); ("goal", (0, 255, 0)%Z)];
       network_structure := VRef 0; tutor_structure := None;
       tutor_threshold := 1 # 10; tutor_base_weight := 1 # 2; epochs := 1;
       validation_frequency := 2; save_frequency := 3 |} in
  build_structures cfg [[VRef 1; VRef 2]; [VInt 4; VInt 8]; [VInt 16]]
  = Ok (VRef 3, VRef 6,
        [[VRef 1; VRef 2]; [VInt 4; VInt 8]; [VInt 16];
         [VRef 4; VRef 5]; [VInt 4; VInt 8]; [VInt 16; VInt 2];
         [VRef 7; VRef 8]; [VInt 4; VInt 8]; [VInt 16; VInt 1]]).
Proof. reflexivity. Qed.

(** The scenario of the specification: two convolutions of one layer each. *)
Lemma save_yaml_model_two_convolutions :
  let variables : dict Z :=
    [("Network/Conv_1/Layer_0/Weights:0", 3%Z);
     ("Network/Conv_0/Layer_0/Weights:0", 1%Z);
     ("Tutor/Conv_0/Layer_0/Weights:0", 9%Z);
     ("Network/Conv_0/Layer_0/Biases:0", 2%Z);
     ("Network/Conv_1/Layer_0/Biases:0", 4%Z)] in
  NoDup (map fst (export_items variables))
  ∧ contiguous 2 (fun _ => 1) (export_items variables)
  ∧ ∃ out,
      save_yaml_model variables = Ok out
      ∧ length out = 2
      ∧ (∀ c row, out !! c = Some row → length row = 1)
      ∧ (∀ c l var v,
           ((c, l, var), v) ∈ export_items variables
           ↔ ∃ row d, out !! c = Some row ∧ row !! l = Some d ∧ dict_get d var = Some v).
Proof.
  intros variables.
  assert (NoDup (map fst (export_items variables))) as Hnodup.
  { vm_compute export_items. cbn [map fst].
    repeat (apply NoDup_cons; split;
      [intros H; repeat (apply elem_of_cons in H as [H|H]; [discriminate H|]);
       by apply elem_of_nil in H|]).
    apply NoDup_nil_2. }
  assert (contiguous 2 (fun _ => 1) (export_items variables)) as Hcont.
  { split_and!.
    - intros c l var v Hin. vm_compute export_items in Hin.
      repeat (apply elem_of_cons in Hin as [Hin|Hin]; [injection Hin as -> -> -> ->; lia|]).
      by apply elem_of_nil in Hin.
    - intros c Hc. lia.
    - intros c l Hc Hl. assert (l = 0) as -> by lia. vm_compute export_items.
      destruct c as [|[|c]]; [| |lia].
      + exists "weights", 1%Z. right. left.
      + exists "weights", 3%Z. left. }
  split; [done|]. split; [done|].
  destruct (@save_yaml_model_contiguous_indices Z) as [Hexport _].
  exact (Hexport variables 2 (fun _ => 1) Hnodup Hcont).
Defined.

Example save_yaml_model_two_convolutions_value :
  save_yaml_model
    [("Network/Conv_1/Layer_0/Weights:0", 3%Z);
     ("Network/Conv_0/Layer_0/Weights:0", 1%Z);
     ("Tutor/Conv_0/Layer_0/Weights:0", 9%Z);
     ("Network/Conv_0/Layer_0/Biases:0", 2%Z);
     ("Network/Conv_1/Layer_0/Biases:0", 4%Z)]
  = Ok [[[("biases", 2%Z); ("weights", 1%Z)]]; [[("biases", 4%Z); ("weights", 3%Z)]]].
Proof. reflexivity. Qed.

(* ================================================================= *)
(** * Part III: further properties                                    *)
(* ================================================================= *)

(* ----------------------------------------------------------------- *)
(** ** Metrics engine: the confusion counts                           *)
(* ----------------------------------------------------------------- *)

Section confusion.
Implicit Types (X Y : list (list Q)) (i : nat).


Lemma count_nonzero_Zs_nil : count_nonzero_Zs [] = 0%Z.
Proof. done. Qed.






End confusion.

Section dict_members.
Context {V : Type}.

Lemma dict_set_elem (d : dict V) k v kv :
  kv ∈ dict_set d k v → kv = (k, v) ∨ kv ∈ d.
Proof.
  induction d as [|[k' v'] d IH]; simpl.
  - intros ->%list_elem_of_singleton. by left.
  - case_decide; rewrite !elem_of_cons; intros [?|?]; auto.
    destruct IH; auto.
Qed.

Lemma dict_get_Some_elem (d : dict V) k v : dict_get d k = Some v → (k, v) ∈ d.
Proof.
  induction d as [|[k' v'] d IH]; simpl; [done|].
  case_decide; [intros [= ->]; subst; left|intros ?; right; auto].
Qed.
End dict_members.

Section class_loop_facts.
Variable nl : list Q.
Variables X Y : list (list Q).

Lemma class_loop_elem i classes acc kv :
  kv ∈ class_loop nl X Y i classes acc →
  kv ∈ acc ∨ ∃ j, kv.2 = class_metric nl X Y j.
Proof.
  revert i acc. induction classes as [|c classes IH]; intros i acc; simpl; [auto|].
  intros [Hin|?]%IH; [|auto].
  apply dict_set_elem in Hin as [->|?]; [right; by eexists|by left].
Qed.


End class_loop_facts.




(* ----------------------------------------------------------------- *)
(** ** Model exporter: a run without error had contiguous indices     *)
(* ----------------------------------------------------------------- *)

Section py_lists_out.
Context {B : Type}.

Lemma py_position_ge (l : list B) (j : nat) :
  length l ≤ j → py_position l (Z.of_nat j) = Raise IndexError.
Proof.
  intros Hj. unfold py_position.
  destruct (Z.ltb_spec (Z.of_nat j) 0); [lia|].
  destruct (Z.ltb_spec (Z.of_nat j) 0); [lia|]. rewrite Nat2Z.id.
  destruct (Nat.ltb_spec j (length l)); [lia|done].
Qed.

Lemma py_update_ge (l : list B) (j : nat) (f : B → res B) :
  length l ≤ j → py_update l (Z.of_nat j) f = Raise IndexError.
Proof. intros Hj. unfold py_update. by rewrite py_position_ge. Qed.
End py_lists_out.

Section exporter_gaps.
Context {A : Type}.
Implicit Types (st : exporter_state A) (out : list (list (dict A))) (row : list (dict A)).

(** An item beyond the next layer of the open convolution. *)
Lemma export_step_layer_gap st out row c l var v :
  output st = out ++ [row] → length out = c →
  conv st = Z.of_nat c → layer st ≠ Z.of_nat l → S (length row) ≤ l →
  export_step st ((c, l, var), v) = Raise IndexError.
Proof.
  intros Hout <- Hconv Hlayer Hl. unfold export_step.
  destruct (decide (Z.of_nat (length out) ≠ conv st)) as [H|_]; [by destruct H|].
  destruct (decide (Z.of_nat l ≠ layer st)) as [_|H].
  2:{ exfalso. apply H. intros Heq. by apply Hlayer. }
  csimpl. rewrite Hout, py_update_snoc_last. csimpl. rewrite Hconv.
  rewrite py_update_snoc_nat. rewrite py_update_ge; [done|].
  rewrite length_app. simpl. lia.
Qed.

(** An item of a new convolution that is not the next one, or that does not
    start at layer 0. *)
Lemma export_step_conv_gap st c l var v :
  conv st ≠ Z.of_nat c → length (output st) ≤ c →
  ¬ (c = length (output st) ∧ l = 0) →
  export_step st ((c, l, var), v) = Raise IndexError.
Proof.
  intros Hconv Hc Hgap. unfold export_step.
  destruct (decide (Z.of_nat c ≠ conv st)) as [_|H].
  2:{ exfalso. apply H. intros Heq. by apply Hconv. }
  cbn [output conv layer].
  destruct (decide (Z.of_nat l ≠ (-1)%Z)) as [_|H]; [|exfalso; apply H; lia].
  csimpl. rewrite py_update_snoc_last. csimpl.
  destruct (decide (c = length (output st))) as [->|Hne].
  - rewrite py_update_snoc_nat. rewrite py_update_ge; [done|]. simpl. lia.
  - rewrite py_update_ge; [done|]. rewrite length_app. simpl. lia.
Qed.
End exporter_gaps.

Section export_shape.
Context {A : Type}.
Variable its : list (key * A).
Hypothesis Hsorted : StronglySorted item_le its.

Lemma lookup_snoc_row (out : list (list (dict A))) row0 row1 c :
  (∃ row, (out ++ [row1]) !! c = Some row)
  ↔ (∃ row, (out ++ [row0]) !! c = Some row).
Proof.
  split; intros [row Hrow]; apply lookup_lt_Some in Hrow;
    apply lookup_lt_is_Some; rewrite length_app in *; simpl in *; lia.
Qed.

Lemma export_step_shape p item rest (st st' : exporter_state A) :
  its = p ++ item :: rest → exporter_shape p st →
  export_step st item = Ok st' → exporter_shape (p ++ [item]) st'.
Proof.
  intros Hits (Hlast & Hrows & Hpos) Hstep. destruct item as [[[c2 l2] var2] v2].
  unfold exporter_shape. rewrite last_snoc.
  destruct (last p) as [[[[c l] var] v]|] eqn:Hp.
  - apply last_Some in Hp as [p0 ->].
    destruct Hlast as (Hconv & Hlayer & out & row & d & Hout & Hlen & Hlen').
    assert (key_le (c, l, var) (c2, l2, var2)) as Hle.
    { rewrite Hits in Hsorted.
      eapply (StronglySorted_app_1_elem_of item_le _ _ ((c, l, var), v) ((c2, l2, var2), v2))
        in Hsorted; [done| |left]. apply elem_of_app. right. left. }
    apply key_le_conv in Hle.
    assert ((c2 = c ∧ l2 = l) ∨ (c2 = c ∧ l2 = S l) ∨ (c2 = S c ∧ l2 = 0)) as Hnext.
    { destruct (decide (c2 = c)) as [->|Hne].
      - destruct (decide (l2 = l)) as [->|Hl]; [by left|].
        destruct (decide (l2 = S l)) as [->|Hl']; [right; by left|].
        rewrite (export_step_layer_gap st out (row ++ [d]) c l2) in Hstep; try done.
        + rewrite Hlayer. lia.
        + rewrite length_app. simpl. lia.
      - destruct (decide (c2 = S c ∧ l2 = 0)) as [?|Hgap]; [right; by right|].
        rewrite export_step_conv_gap in Hstep; try done.
        + rewrite Hconv. lia.
        + rewrite Hout, length_app. simpl. lia.
        + rewrite Hout, length_app. simpl. lia. }
    destruct Hnext as [[-> ->]|[[-> ->]|[-> ->]]].
    + rewrite (export_step_same_layer st out row d c l) in Hstep by done.
      injection Hstep as <-. cbn [output conv layer].
      split; [split_and!; [done..|]; by exists out, row, (dict_set d var2 v2)|].
      split.
      * intros c' row' Hc'.
        apply lookup_app_Some in Hc' as [Hc'|[Hge Hc']].
        -- apply (Hrows c'). rewrite Hout. by apply lookup_app_l_Some.
        -- apply list_lookup_singleton_Some in Hc' as [_ <-]. rewrite length_app. simpl. lia.
      * intros c' l'. setoid_rewrite elem_of_app. setoid_rewrite list_elem_of_singleton.
        assert ((∃ row', (out ++ [row ++ [dict_set d var2 v2]]) !! c' = Some row' ∧ l' < length row')
                ↔ (∃ row', output st !! c' = Some row' ∧ l' < length row')) as ->.
        { rewrite Hout. destruct (decide (c' < length out)) as [Hc'|Hc'].
          - by rewrite !lookup_app_l.
          - rewrite !lookup_app_r by lia. destruct (c' - length out) as [|n]; simpl.
            + split; intros (row' & [= <-] & Hl'); eexists; (split; [done|]);
                rewrite length_app in *; simpl in *; lia.
            + split; intros (row' & ? & _); done. }
        rewrite Hpos. split.
        -- intros (var' & v' & Hin). exists var', v'. by left.
        -- intros (var' & v' & [Hin|Heq]); [eauto|].
           injection Heq as -> -> -> ->. exists var, v. apply elem_of_app. right. left.
    + rewrite (export_step_next_layer st out row d c l) in Hstep by done.
      injection Hstep as <-. cbn [output conv layer].
      split.
      { split_and!; [done..|]. exists out, (row ++ [d]), (dict_set [] var2 v2).
        split_and!; [done|done|]. rewrite length_app. simpl. lia. }
      split.
      * intros c' row' Hc'.
        apply lookup_app_Some in Hc' as [Hc'|[Hge Hc']].
        -- apply (Hrows c'). rewrite Hout. by apply lookup_app_l_Some.
        -- apply list_lookup_singleton_Some in Hc' as [_ <-]. rewrite !length_app. simpl. lia.
      * intros c' l'. setoid_rewrite elem_of_app. setoid_rewrite list_elem_of_singleton.
        split.
        -- intros (row' & Hc' & Hl').
           apply lookup_app_Some in Hc' as [Hc'|[Hge Hc']].
           ++ destruct (proj1 (Hpos c' l')) as (var' & v' & Hin); [|by exists var', v'; left].
              exists row'. split; [|done]. rewrite Hout. by apply lookup_app_l_Some.
           ++ apply list_lookup_singleton_Some in Hc' as [Hc' <-].
              assert (c' = c) as -> by lia.
              rewrite !length_app in Hl'. simpl in Hl'.
              destruct (decide (l' = S l)) as [->|Hne]; [exists var2, v2; by right|].
              destruct (proj1 (Hpos c l')) as (var' & v' & Hin); [|by exists var', v'; left].
              exists (row ++ [d]). split; [|rewrite length_app; simpl; lia].
              rewrite Hout, lookup_app_r by lia. by rewrite Hlen, Nat.sub_diag.
        -- intros (var' & v' & [Hin|Heq]).
           ++ destruct (proj2 (Hpos c' l')) as (row' & Hc' & Hl'); [eauto|].
              rewrite Hout in Hc'. apply lookup_app_Some in Hc' as [Hc'|[Hge Hc']].
              ** exists row'. split; [|done]. by apply lookup_app_l_Some.
              ** apply list_lookup_singleton_Some in Hc' as [Hc' <-].
                 exists ((row ++ [d]) ++ [dict_set [] var2 v2]).
                 split; [|rewrite length_app; simpl; lia].
                 rewrite lookup_app_r by lia. replace (c' - length out) with 0 by lia. done.
           ++ injection Heq as -> -> -> ->.
              exists ((row ++ [d]) ++ [dict_set [] var2 v2]).
              split; [|rewrite !length_app; simpl; lia].
              rewrite lookup_app_r by lia. by rewrite Hlen, Nat.sub_diag.
    + assert (length (output st) = S c) as Hlenout.
      { rewrite Hout, length_app. simpl. lia. }
      rewrite (export_step_next_conv st (S c)) in Hstep by (try done; lia).
      injection Hstep as <-. cbn [output conv layer].
      split.
      { split_and!; [done..|]. by exists (output st), [], (dict_set [] var2 v2). }
      split.
      * intros c' row' Hc'.
        apply lookup_app_Some in Hc' as [Hc'|[Hge Hc']]; [by apply (Hrows c')|].
        apply list_lookup_singleton_Some in Hc' as [_ <-]. simpl. lia.
      * intros c' l'. setoid_rewrite elem_of_app. setoid_rewrite list_elem_of_singleton.
        split.
        -- intros (row' & Hc' & Hl').
           apply lookup_app_Some in Hc' as [Hc'|[Hge Hc']].
           ++ destruct (proj1 (Hpos c' l')) as (var' & v' & Hin); [eauto|by exists var', v'; left].
           ++ apply list_lookup_singleton_Some in Hc' as [Hc' <-].
              simpl in Hl'. assert (l' = 0) as -> by lia. assert (c' = S c) as -> by lia.
              exists var2, v2. by right.
        -- intros (var' & v' & [Hin|Heq]).
           ++ destruct (proj2 (Hpos c' l')) as (row' & Hc' & Hl'); [eauto|].
              exists row'. split; [|done]. by apply lookup_app_l_Some.
           ++ injection Heq as -> -> -> ->. exists [dict_set [] var2 v2].
              split; [|simpl; lia].
              rewrite lookup_app_r by lia. by rewrite Hlenout, Nat.sub_diag.
  - apply last_None in Hp as ->. destruct Hlast as [Hout Hconv].
    assert (c2 = 0 ∧ l2 = 0) as [-> ->].
    { destruct (decide (c2 = 0 ∧ l2 = 0)) as [?|Hgap]; [done|].
      rewrite export_step_conv_gap in Hstep; try done.
      - rewrite Hconv. lia.
      - rewrite Hout. simpl. lia.
      - by rewrite Hout. }
    rewrite (export_step_next_conv st 0) in Hstep by (rewrite ?Hout, ?Hconv; done).
    injection Hstep as <-. cbn [output conv layer]. rewrite Hout.
    split.
    { split_and!; [done..|]. by exists [], [], (dict_set [] var2 v2). }
    split.
    + intros c' row' Hc'. apply list_lookup_singleton_Some in Hc' as [_ <-]. simpl. lia.
    + intros c' l'. simpl. setoid_rewrite list_elem_of_singleton. split.
      * intros (row' & Hc' & Hl'). apply list_lookup_singleton_Some in Hc' as [-> <-].
        simpl in Hl'. assert (l' = 0) as -> by lia. by exists var2, v2.
      * intros (var' & v' & Heq). injection Heq as -> -> -> ->.
        exists [dict_set [] var2 v2]. split; [done|simpl; lia].
Qed.

Lemma export_loop_shape rest p (st st' : exporter_state A) :
  its = p ++ rest → exporter_shape p st →
  export_loop st rest = Ok st' → exporter_shape its st'.
Proof.
  revert p st. induction rest as [|item rest IH]; intros p st Hits Hinv; simpl.
  - rewrite app_nil_r in Hits. subst p. by intros [= <-].
  - destruct (export_step st item) as [st1|e] eqn:Hstep; csimpl; [|done].
    apply (IH (p ++ [item])); [by rewrite <- app_assoc|].
    by eapply export_step_shape.
Qed.
End export_shape.

(** X3.  Whenever the exporter returns, the indices of the matching parameters
    were contiguous: the convolution indices are exactly those of the
    structure returned, and within each convolution the layer indices are
    exactly those of its entry, which is never empty.  A gap therefore never
    yields a structure with a missing or misplaced layer. *)
Theorem save_yaml_model_returns_only_contiguous {A : Type}
    (variables : dict A) (out : list (list (dict A))) :
  save_yaml_model variables = Ok out →
  contiguous (length out) (fun c => length (default [] (out !! c))) (export_items variables).
Proof.
  unfold save_yaml_model. intros Hsave.
  destruct (export_loop _ _) as [st|e] eqn:Hloop; csimpl; [|done].
  injection Hsave as <-.
  pose proof (sorted_items_sorted (export_items variables)) as Hsorted.
  pose proof (sorted_items_perm (export_items variables)) as Hperm.
  eapply (export_loop_shape _ Hsorted _ []) in Hloop; [|done|].
  2:{ split; [done|]. cbn [output]. split.
      - intros c row Hc. by rewrite lookup_nil in Hc.
      - intros c l. split.
        + intros (row & Hc & _). by rewrite lookup_nil in Hc.
        + intros (var & v & Hin). by apply elem_of_nil in Hin. }
  destruct Hloop as (_ & Hrows & Hpos).
  split_and!.
  - intros c l var v Hin. rewrite <- Hperm in Hin.
    destruct (proj2 (Hpos c l)) as (row & Hc & Hl); [eauto|].
    rewrite Hc. simpl. split; [by apply lookup_lt_Some in Hc|done].
  - intros c Hc. apply lookup_lt_is_Some in Hc as [row Hrow]. rewrite Hrow. simpl. eauto.
  - intros c l Hc Hl. apply lookup_lt_is_Some in Hc as [row Hrow]. rewrite Hrow in Hl.
    destruct (proj1 (Hpos c l)) as (var & v & Hin); [eauto|].
    exists var, v. by rewrite <- Hperm.
Qed.

(* ----------------------------------------------------------------- *)
(** ** Model exporter: parameter names                                *)
(* ----------------------------------------------------------------- *)

Section names.
Implicit Types (s p rest : string).

Lemma append_String a s rest : String a s +:+ rest = String a (s +:+ rest).
Proof. done. Qed.

Lemma append_Empty rest : "" +:+ rest = rest.
Proof. done. Qed.

Lemma append_assoc s p rest : (s +:+ p) +:+ rest = s +:+ (p +:+ rest).
Proof. induction s as [|a s IH]; [done|]. by rewrite !append_String, IH. Qed.

Lemma strip_prefix_str_app p rest : strip_prefix_str p (p +:+ rest) = Some rest.
Proof.
  induction p as [|a p IH]; [by destruct rest|].
  rewrite append_String. simpl. by rewrite decide_True.
Qed.

Lemma read_digits_no_digit acc s : no_digit s → read_digits acc s = (acc, s).
Proof. destruct s as [|a s]; simpl; [done|]. by intros ->. Qed.

Lemma read_digits_uint d acc rest :
  no_digit rest →
  read_digits acc (DecimalString.NilEmpty.string_of_uint d +:+ rest) = (Nat.of_uint_acc d acc, rest).
Proof.
  intros Hrest. revert acc.
  induction d as [|d IH|d IH|d IH|d IH|d IH|d IH|d IH|d IH|d IH|d IH]; intros acc;
    cbn [DecimalString.NilEmpty.string_of_uint Nat.of_uint_acc];
    [by apply read_digits_no_digit|..];
    rewrite append_String; cbn [read_digits Ascii.is_nat]; rewrite IH;
    f_equal; f_equal; rewrite Nat.tail_mul_spec; lia.
Qed.

Lemma to_uint_not_Nil n : Nat.to_uint n ≠ Decimal.Nil.
Proof.
  rewrite <- (DecimalNat.Unsigned.of_to n) at 1. rewrite DecimalNat.Unsigned.to_of.
  unfold Decimal.unorm. by destruct (Decimal.nzhead _).
Qed.

Lemma read_int_decimal n rest :
  no_digit rest → read_int (decimal n +:+ rest) = Some (n, rest).
Proof.
  intros Hrest. unfold decimal.
  pose proof (to_uint_not_Nil n) as Hnil. pose proof (DecimalNat.Unsigned.of_to n) as Hof.
  unfold Nat.of_uint in Hof.
  pose proof (read_digits_uint (Nat.to_uint n) 0 rest Hrest) as Hread.
  rewrite Hof in Hread.
  destruct (Nat.to_uint n) as [|d|d|d|d|d|d|d|d|d|d]; [done|..];
    cbn [DecimalString.NilEmpty.string_of_uint] in *; rewrite append_String in *;
    cbn [read_int read_digits Ascii.is_nat] in *; by rewrite <- Hread.
Qed.
End names.

(** X4.  The pattern of the exporter decodes the names of the network's
    parameters: the name built from the indices [c] and [l] and the role
    Weights or Biases, followed by anything, parses to [(c, l, role.lower())]. *)
Theorem parse_name_variable_name (c l : nat) (suffix : string) :
  parse_name (variable_name c l "Weights" +:+ suffix) = Some (c, l, "weights")
  ∧ parse_name (variable_name c l "Biases" +:+ suffix) = Some (c, l, "biases").
Proof.
  assert (∀ role s, variable_name c l role +:+ s
            = "Network/Conv_" +:+ (decimal c +:+ ("/Layer_" +:+ (decimal l +:+ ("/" +:+ (role +:+ (":0" +:+ s)))))))
    as Hname.
  { intros role s. unfold variable_name. by rewrite !append_assoc. }
  split; rewrite Hname; unfold parse_name;
    rewrite strip_prefix_str_app; cbn [mbind option_bind];
    rewrite read_int_decimal by done; cbn [mbind option_bind];
    rewrite strip_prefix_str_app; cbn [mbind option_bind];
    rewrite read_int_decimal by done; cbn [mbind option_bind];
    rewrite strip_prefix_str_app; cbn [mbind option_bind].
  - rewrite strip_prefix_str_app. cbn [mbind option_bind]. by rewrite strip_prefix_str_app.
  - change (strip_prefix_str "Weights" ("Biases" +:+ (":0" +:+ suffix))) with (@None string).
    rewrite strip_prefix_str_app. cbn [mbind option_bind]. by rewrite strip_prefix_str_app.
Qed.

(* ----------------------------------------------------------------- *)
(** ** Model exporter: which variables matter                         *)
(* ----------------------------------------------------------------- *)

Lemma key_le_antisym (k1 k2 : key) : key_le k1 k2 → key_le k2 k1 → k1 = k2.
Proof.
  destruct k1 as [[c1 l1] v1], k2 as [[c2 l2] v2]. unfold key_le.
  intros [?|[-> [?|[-> H12]]]] [?|[? [?|[? H21]]]]; try lia.
  f_equal. by apply (anti_symm String.le).
Qed.

Section export_items_facts.
Context {A : Type}.

Lemma export_items_dict_set (variables : dict A) name v :
  parse_name name = None → export_items (dict_set variables name v) = export_items variables.
Proof.
  intros Hname. unfold export_items.
  induction variables as [|[k' v'] variables IH]; csimpl.
  - by rewrite Hname.
  - case_decide as Hk; csimpl.
    + subst k'. by rewrite Hname.
    + by rewrite IH.
Qed.

Lemma sorted_items_unique (items items' : list (key * A)) :
  items ≡ₚ items' → NoDup (map fst items) → sorted_items items = sorted_items items'.
Proof.
  intros Hperm Hnd.
  apply (StronglySorted_unique_strong item_le); [|apply sorted_items_sorted..|].
  - intros x1 x2 Hx1 Hx2 H12 H21.
    rewrite sorted_items_perm in Hx1. rewrite sorted_items_perm, <- Hperm in Hx2.
    pose proof (key_le_antisym _ _ H12 H21) as Hkey.
    apply list_elem_of_lookup in Hx1 as [i Hi]. apply list_elem_of_lookup in Hx2 as [j Hj].
    assert (i = j) as ->; [|congruence].
    apply (NoDup_lookup _ i j x1.1 Hnd); rewrite list_lookup_fmap.
    + by rewrite Hi.
    + rewrite Hj. simpl. by rewrite Hkey.
  - by rewrite !sorted_items_perm.
Qed.
End export_items_facts.

(** X5.  A variable whose name the pattern does not match (a tutor variable, the
    global step) has no part in the export: adding it to the snapshot, or
    changing its value, leaves the result the same. *)
Theorem save_yaml_model_ignores_other_names {A : Type}
    (variables : dict A) (name : string) (v : A) :
  parse_name name = None →
  save_yaml_model (dict_set variables name v) = save_yaml_model variables.
Proof. intros Hname. unfold save_yaml_model. by rewrite export_items_dict_set. Qed.

(** X6.  The export does not depend on the order in which the snapshot lists the
    variables, when the matching names have pairwise distinct keys. *)
Theorem save_yaml_model_order_independent {A : Type} (variables variables' : dict A) :
  variables ≡ₚ variables' →
  NoDup (map fst (export_items variables)) →
  save_yaml_model variables = save_yaml_model variables'.
Proof.
  intros Hperm Hnd. unfold save_yaml_model.
  rewrite (sorted_items_unique (export_items variables) (export_items variables')); [done| |done].
  unfold export_items. by apply omap_Permutation.
Qed.

(* ----------------------------------------------------------------- *)
(** ** Multi-device merger: losses and metrics                        *)
(* ----------------------------------------------------------------- *)

Section merge_scalars.
Local Open Scope Q_scope.

Lemma foldl_scalar_add_Fin q qs :
  ∃ r, foldl scalar_add (Fin q) (map Fin qs) = Fin r ∧ r == q + reduce_sum qs.
Proof.
  revert q. induction qs as [|x qs IH]; intros q; simpl.
  - exists q. split; [done|]. rewrite reduce_sum_nil. ring.
  - destruct (IH (q + x)) as (r & -> & Hr). exists r. split; [done|].
    rewrite Hr, reduce_sum_cons. ring.
Qed.

(** [tf.add_n] then the division by the device count, on finite values. *)
Lemma add_n_mean (ss : list scalar) (qs : list Q) (s : scalar) :
  ss = map Fin qs → add_n ss = Some s →
  ∃ r, scalar_div s (length ss) = Fin r ∧ r == mean qs.
Proof.
  intros -> Hadd. destruct qs as [|q qs]; [done|]. simpl in Hadd. injection Hadd as <-.
  destruct (foldl_scalar_add_Fin q qs) as (r & -> & Hr).
  eexists. split; [done|]. unfold mean. rewrite length_map, reduce_sum_cons, Hr. reflexivity.
Qed.
End merge_scalars.

Lemma bind_Some_inv {A B} (f : A → option B) (m : option A) (b : B) :
  m ≫= f = Some b → ∃ a, m = Some a ∧ f a = Some b.
Proof. destruct m as [a|]; csimpl; [|done]. eauto. Qed.


Lemma merge_ops_Some device_ops merged :
  _merge_ops device_ops = Some merged →
  ∃ u x t metrics,
    add_n (map (fun op => loss_u (op_loss op)) device_ops) = Some u
    ∧ add_n (map (fun op => loss_x (op_loss op)) device_ops) = Some x
    ∧ add_n (map (fun op => loss_t (op_loss op)) device_ops) = Some t
    ∧ _merge_metrics (map op_metrics device_ops) = Some metrics
    ∧ op_loss merged = {| loss_u := scalar_div u (length device_ops);
                          loss_x := scalar_div x (length device_ops);
                          loss_t := scalar_div t (length device_ops) |}
    ∧ op_metrics merged
      = map (fun km : string * metric =>
               (km.1, {| m_loss := scalar_div (m_loss km.2) (length device_ops);
                         m_tp := m_tp km.2; m_tn := m_tn km.2;
                         m_fp := m_fp km.2; m_fn := m_fn km.2 |})) metrics.
Proof.
  unfold _merge_ops. intros H.
  apply bind_Some_inv in H as (u & Hu & H). apply bind_Some_inv in H as (x & Hx & H).
  apply bind_Some_inv in H as (t & Ht & H). apply bind_Some_inv in H as (metrics & Hm & H).
  injection H as <-. by exists u, x, t, metrics.
Qed.

(** X7.  The merged losses are the means of the losses of the devices. *)
Theorem merge_ops_losses_are_means
    (device_ops : list device_bundle) (merged : merged_bundle) (us xs ts : list Q) :
  _merge_ops device_ops = Some merged →
  map (fun op => loss_u (op_loss op)) device_ops = map Fin us →
  map (fun op => loss_x (op_loss op)) device_ops = map Fin xs →
  map (fun op => loss_t (op_loss op)) device_ops = map Fin ts →
  ∃ u x t,
    op_loss merged = {| loss_u := Fin u; loss_x := Fin x; loss_t := Fin t |}
    ∧ (u == mean us)%Q ∧ (x == mean xs)%Q ∧ (t == mean ts)%Q.
Proof.
  intros Hmerge Hus Hxs Hts.
  apply merge_ops_Some in Hmerge as (u & x & t & metrics & Hu & Hx & Ht & _ & Hloss & _).
  destruct (add_n_mean _ us u Hus Hu) as (u' & Hu' & Hmu).
  destruct (add_n_mean _ xs x Hxs Hx) as (x' & Hx' & Hmx).
  destruct (add_n_mean _ ts t Hts Ht) as (t' & Ht' & Hmt).
  rewrite length_map in Hu', Hx', Ht'.
  exists u', x', t'. split; [|done]. rewrite Hloss. by f_equal.
Qed.

Section merge_metrics.
Implicit Types (metrics : list (dict metric)) (d : dict metric).



End merge_metrics.


Lemma mapM_None_elem {A B} (f : A → option B) (l : list A) :
  mapM f l = None ↔ ∃ a, a ∈ l ∧ f a = None.
Proof. by rewrite mapM_None, Exists_exists. Qed.

(** X9.  The merger fails exactly when it is given no device or when some device
    lacks one of the metrics keys of the first device. *)
Theorem merge_ops_fails_iff (device_ops : list device_bundle) :
  _merge_ops device_ops = None
  ↔ device_ops = []
    ∨ ∃ k op, k ∈ map fst (default [] (op_metrics <$> head device_ops))
        ∧ op ∈ device_ops ∧ dict_get (op_metrics op) k = None.
Proof.
  destruct device_ops as [|op0 ops]; [split; [by left|done]|].
  assert (_merge_metrics (map op_metrics (op0 :: ops)) = None
          ↔ ∃ k op, k ∈ map fst (op_metrics op0) ∧ op ∈ op0 :: ops
              ∧ dict_get (op_metrics op) k = None)
    as Hiff.
  { unfold _merge_metrics. cbn [map].
    change (op_metrics op0 :: map op_metrics ops) with (map op_metrics (op0 :: ops)).
    rewrite mapM_None_elem. split.
    - intros ([k m] & Hin & Hnone). cbn [fst] in Hnone.
      destruct (mapM (fun d => dict_get d k) (map op_metrics (op0 :: ops))) as [ms|] eqn:Hms.
      + exfalso. destruct ms as [|m0 ms]; [by apply length_mapM in Hms|].
        unfold merge_metric in Hnone. simpl in Hnone. done.
      + apply mapM_None_elem in Hms as (d & (op & -> & Hop)%list_elem_of_fmap & Hd).
        exists k, op. split_and!; [|done..]. apply list_elem_of_fmap. by exists (k, m).
    - intros (k & op & ((k' & m) & -> & Hin)%list_elem_of_fmap & Hop & Hnone).
      exists (k', m). split; [done|]. cbn [fst].
      assert (mapM (fun d => dict_get d k') (map op_metrics (op0 :: ops)) = None) as ->; [|done].
      apply mapM_None_elem. exists (op_metrics op). split; [|done].
      apply list_elem_of_fmap. by exists op. }
  unfold _merge_ops. cbn [map add_n mbind option_bind head fmap option_fmap option_map default].
  change (op_metrics op0 :: map op_metrics ops) with (map op_metrics (op0 :: ops)).
  split.
  - intros H. right. apply Hiff.
    destruct (_merge_metrics (map op_metrics (op0 :: ops))); [done|done].
  - intros [?|H]; [done|]. apply Hiff in H. by rewrite H.
Qed.

(* ----------------------------------------------------------------- *)
(** ** Structure specs: a spec that is not a list of stages           *)
(* ----------------------------------------------------------------- *)

Lemma copy_deepcopy_flat (s : store) (l : nat) (zs : list Z) :
  s !! l = Some (map VInt zs) →
  copy_deepcopy (VRef l) s = Ok (VRef (length s), s ++ [map VInt zs]).
Proof.
  intros Hl. unfold copy_deepcopy. by rewrite (deepcopy_stage _ s l zs []).
Qed.

(** X10.  A network structure that is a flat list of widths instead of a list of
    stages is copied, and then refused when the output width is appended to
    its last stage: with an IndexError when the list is empty, with an
    AttributeError (an integer has no [append]) otherwise. *)
Theorem build_structures_flat_spec_raises
    (cfg : config) (s : store) (l : nat) (zs : list Z) :
  network_structure cfg = VRef l →
  tutor_structure cfg = None →
  s !! l = Some (map VInt zs) →
  build_structures cfg s
  = Raise (if decide (zs = []) then IndexError else AttributeError).
Proof.
  intros Hnet Htutor Hl. unfold build_structures. rewrite Hnet, Htutor.
  rewrite (copy_deepcopy_flat s l zs Hl). csimpl.
  assert ((s ++ [map VInt zs]) !! length s = Some (map VInt zs)) as Hcopy.
  { rewrite lookup_app_r by lia. by rewrite Nat.sub_diag. }
  rewrite (copy_deepcopy_flat _ _ zs Hcopy). csimpl.
  unfold last_append. rewrite lookup_app_l by (rewrite length_app; simpl; lia).
  rewrite Hcopy. csimpl.
  destruct zs as [|z zs _] using rev_ind; [done|].
  rewrite map_app. simpl. rewrite last_snoc. csimpl.
  rewrite decide_False; [done|]. by destruct zs.
Qed.

(* ----------------------------------------------------------------- *)
(** ** Training loop driver: the steps of a run                       *)
(* ----------------------------------------------------------------- *)

Section session_fields.
Variable rule : Q → Q → Q.
Variable gs : list grad_entry.
Variable b : bool.

Lemma events_apply_gradients st : events (apply_gradients rule gs b st) = events st.
Proof. unfold apply_gradients. by destruct b. Qed.

Lemma checkpoints_apply_gradients st : checkpoints (apply_gradients rule gs b st) = checkpoints st.
Proof. unfold apply_gradients. by destruct b. Qed.

Lemma yaml_models_apply_gradients st : yaml_models (apply_gradients rule gs b st) = yaml_models st.
Proof. unfold apply_gradients. by destruct b. Qed.
End session_fields.

Section training_steps.
Variable run_towers : dict Q → list batch → losses * grads.
Variables adam gradient_descent : Q → Q → Q.
Variable cfg : config.
Variable devices : nat.

Local Abbreviation run_train_ := (run_train run_towers adam gradient_descent devices).
Local Abbreviation training_step_ := (training_step run_towers adam gradient_descent cfg devices).
Local Abbreviation iteration_ := (iteration run_towers adam gradient_descent cfg devices).

(** A training op that finds its batches: the session it leaves. *)
Lemma run_train_effect st :
  devices ≤ length (training_iterator st) →
  ∃ ls st1, run_train_ st = (Ok ls, st1)
    ∧ training_iterator st1 = drop devices (training_iterator st)
    ∧ global_step st1 = wrap_int32 (global_step st + 1)
    ∧ events st1 = events st
    ∧ checkpoints st1 = checkpoints st
    ∧ yaml_models st1 = yaml_models st.
Proof.
  intros Hlen. unfold run_train.
  destruct (Nat.ltb_spec (length (training_iterator st)) devices) as [?|_]; [lia|].
  destruct (run_towers _ _) as [ls gs]. eexists _, _. split; [done|].
  unfold optimise_tutor_op, optimise_mesh_op.
  rewrite !training_iterator_apply_gradients, !global_step_apply_gradients,
    !events_apply_gradients, !checkpoints_apply_gradients, !yaml_models_apply_gradients.
  done.
Qed.

(** What the rest of the [try] block does to the session that the training
    op left: it may write one checkpoint, and the export next to it. *)
Lemma training_step_effect st ls st1 :
  run_train_ st = (Ok ls, st1) →
  ∃ r st', training_step_ st = (r, st')
    ∧ training_iterator st' = training_iterator st1
    ∧ global_step st' = global_step st1
    ∧ ((validation_frequency cfg = 0%Z ∨ save_frequency cfg = 0%Z) →
         r = Raise ZeroDivisionError
         ∧ checkpoints st' = checkpoints st1 ∧ yaml_models st' = yaml_models st1)
    ∧ ((r = Ok () ∨ r = Raise ZeroDivisionError)
       ∧ checkpoints st' = checkpoints st1 ∧ yaml_models st' = yaml_models st1
       ∨ save_frequency cfg ≠ 0%Z
         ∧ (global_step st1 mod save_frequency cfg = 0)%Z
         ∧ checkpoints st' = checkpoints st1 ++ [(global_step st1, save_vars st1)]
         ∧ ((∃ out, r = Ok () ∧ yaml_models st' = yaml_models st1 ++ [(global_step st1, out)])
            ∨ (r = Raise IndexError ∧ yaml_models st' = yaml_models st1))).
Proof.
  intros Hrun. unfold training_step, save_model, py_mod, lift, get, modify.
  unfold mbind, M_bind, mret, M_ret. rewrite Hrun.
  destruct (Z.eqb_spec (validation_frequency cfg) 0) as [Hvf|Hvf].
  { eexists _, _. split; [done|]. cbn. split_and!; [done..| |]; [by intros _|]. left. auto. }
  destruct (Z.eqb_spec (save_frequency cfg) 0) as [Hsf|Hsf].
  { destruct (_ =? 0)%Z; eexists _, _; (split; [done|]); cbn;
      (split_and!; [done..| |]; [by intros _|]); left; auto. }
  destruct (_ =? 0)%Z; cbn [global_step log_event];
    (destruct (Z.eqb_spec (global_step st1 mod save_frequency cfg) 0) as [Hmod|Hmod];
     [|eexists _, _; (split; [done|]); cbn; (split_and!; [done..| |]; [lia|]); left; auto]);
    cbn [variables log_event add_checkpoint];
    (destruct (save_yaml_model (variables st1)) as [out|e] eqn:Hexp;
       [|apply save_yaml_model_raises in Hexp as ->]);
    eexists _, _; (split; [done|]); cbn; (split_and!; [done..| |]; [lia|]); right;
    (split_and!; [done..|]); eauto.
Qed.

Lemma iteration_effect st :
  devices ≤ length (training_iterator st) →
  ∃ r st', iteration_ st = (r, st')
    ∧ training_iterator st' = drop devices (training_iterator st)
    ∧ global_step st' = wrap_int32 (global_step st + 1)
    ∧ ((validation_frequency cfg = 0%Z ∨ save_frequency cfg = 0%Z) →
         r = Raise ZeroDivisionError
         ∧ checkpoints st' = checkpoints st ∧ yaml_models st' = yaml_models st)
    ∧ ((r = Ok Continue ∨ r = Raise ZeroDivisionError)
       ∧ checkpoints st' = checkpoints st ∧ yaml_models st' = yaml_models st
       ∨ save_frequency cfg ≠ 0%Z
         ∧ ∃ file, (global_step st' mod save_frequency cfg = 0)%Z
         ∧ dict_get file "global_step:0" = Some (SavedInt (global_step st'))
         ∧ checkpoints st' = checkpoints st ++ [(global_step st', file)]
         ∧ ((∃ out, r = Ok Continue ∧ yaml_models st' = yaml_models st ++ [(global_step st', out)])
            ∨ (r = Raise IndexError ∧ yaml_models st' = yaml_models st))).
Proof.
  intros Hlen.
  destruct (run_train_effect st Hlen) as (ls & st1 & Hrun & Hit & Hg & Hev & Hck & Hym).
  destruct (training_step_effect st ls st1 Hrun)
    as (r & st' & Hstep & Hit' & Hg' & Hzero & Hsave).
  unfold iteration, try_except_OutOfRangeError. unfold mbind at 1. unfold M_bind.
  rewrite Hstep. rewrite <- Hg, <- Hg', <- Hit, <- Hit', <- Hck, <- Hym.
  destruct Hsave as [([->| ->] & Hck' & Hym')|(Hsf & Hmod & Hck' & Hym')].
  - eexists _, _. split; [done|]. split_and!; [done..| |].
    + intros Hz. by destruct (Hzero Hz).
    + left. auto.
  - eexists _, _. split; [done|]. split_and!; [done..| |].
    + intros Hz. by destruct (Hzero Hz).
    + left. auto.
  - assert (dict_get (save_vars st1) "global_step:0" = Some (SavedInt (global_step st')))
      as Hfile by (unfold save_vars; rewrite Hg'; apply dict_get_set_eq).
    rewrite <- Hg' in Hmod, Hck', Hym'.
    destruct Hym' as [(out & -> & Hym')|[-> Hym']];
      (eexists _, _; split; [done|]; split_and!; [done..| |]);
      try (intros [Hz|Hz]; [by destruct (Hzero (or_introl Hz))|done]);
      right; (split; [done|]); exists (save_vars st1); split_and!; eauto.
Qed.
End training_steps.

(** X11.  A frequency of zero stops the training at its first step: the gradients
    are applied once, then the modulo raises ZeroDivisionError, which nothing
    catches; no checkpoint and no export is written. *)
Theorem training_loop_zero_frequency
    (run_towers : dict Q → list batch → losses * grads)
    (adam gradient_descent : Q → Q → Q) (cfg : config) (devices : nat) (st : session) :
  devices ≤ length (training_iterator st) →
  validation_frequency cfg = 0%Z ∨ save_frequency cfg = 0%Z →
  ∃ st', training_loop run_towers adam gradient_descent cfg devices st
         = (Raise ZeroDivisionError, st')
    ∧ global_step st' = wrap_int32 (global_step st + 1)
    ∧ training_iterator st' = drop devices (training_iterator st)
    ∧ checkpoints st' = checkpoints st
    ∧ yaml_models st' = yaml_models st.
Proof.
  intros Hlen Hzero. unfold training_loop. cbn [while_true].
  destruct (iteration_effect run_towers adam gradient_descent cfg devices st Hlen)
    as (r & st' & -> & Hit & Hg & Hz & _).
  destruct (Hz Hzero) as (-> & Hck & Hym). by exists st'.
Qed.

Section training_runs.
Variable run_towers : dict Q → list batch → losses * grads.
Variables adam gradient_descent : Q → Q → Q.
Variable cfg : config.
Variable devices : nat.
Hypothesis Hdevices : 0 < devices.

Local Abbreviation iteration_ := (iteration run_towers adam gradient_descent cfg devices).

Lemma while_true_steps fuel st st' :
  length (training_iterator st) < fuel →
  (- 2 ^ 31 <= global_step st)%Z →
  (global_step st + Z.of_nat (length (training_iterator st) / devices) <= int32_max)%Z →
  while_true fuel iteration_ st = (Raise (NameError "validation_summary"), st') →
  global_step st' = (global_step st + Z.of_nat (length (training_iterator st) / devices))%Z
  ∧ training_iterator st' = [].
Proof.
  revert st. induction fuel as [|fuel IH]; intros st Hfuel Hlow Hhigh; [lia|].
  cbn [while_true].
  destruct (decide (length (training_iterator st) < devices)) as [Hlt|Hge].
  - rewrite (iteration_exhausted run_towers adam gradient_descent cfg devices Hdevices st Hlt).
    intros [= <-]. rewrite Nat.div_small by done. simpl. split; [lia|done].
  - assert (length (training_iterator st) / devices
            = S ((length (training_iterator st) - devices) / devices)) as Hdiv.
    { replace (length (training_iterator st))
        with ((length (training_iterator st) - devices) + 1 * devices) at 1 by lia.
      rewrite Nat.div_add by lia. lia. }
    destruct (iteration_effect run_towers adam gradient_descent cfg devices st)
      as (r & st1 & -> & Hit & Hg & _ & Hr); [lia|].
    rewrite wrap_int32_succ in Hg by lia.
    assert (r = Ok Continue ∨ r = Raise ZeroDivisionError ∨ r = Raise IndexError) as Hcases.
    { destruct Hr as [([->| ->] & _)|(_ & file & _ & _ & _ & [(out & -> & _)|[-> _]])]; auto. }
    destruct Hcases as [->|[->| ->]]; [|done..].
    intros Hloop. apply IH in Hloop.
    + rewrite Hit, length_drop in Hloop. rewrite Hdiv. destruct Hloop as [-> ->].
      split; [lia|done].
    + rewrite Hit, length_drop. lia.
    + lia.
    + rewrite Hit, length_drop. lia.
Qed.

Lemma while_true_checkpoints fuel st r st' :
  while_true fuel iteration_ st = (r, st') →
  ∃ new new_y,
    checkpoints st' = checkpoints st ++ new
    ∧ yaml_models st' = yaml_models st ++ new_y
    ∧ Forall (fun c : Z * dict saved =>
                save_frequency cfg ≠ 0%Z ∧ (c.1 mod save_frequency cfg = 0)%Z
                ∧ dict_get c.2 "global_step:0" = Some (SavedInt c.1)) new
    ∧ (map fst new_y = map fst new
       ∨ r = Raise IndexError ∧ ∃ g, map fst new = map fst new_y ++ [g]).
Proof.
  revert st. induction fuel as [|fuel IH]; intros st; cbn [while_true].
  { intros [= <- <-]. exists [], []. rewrite !app_nil_r. auto. }
  destruct (decide (length (training_iterator st) < devices)) as [Hlt|Hge].
  { rewrite (iteration_exhausted run_towers adam gradient_descent cfg devices Hdevices st Hlt).
    intros [= <- <-]. exists [], []. rewrite !app_nil_r. auto. }
  destruct (iteration_effect run_towers adam gradient_descent cfg devices st)
    as (r1 & st1 & -> & _ & _ & _ & Hr); [lia|].
  destruct Hr as [([->| ->] & Hck & Hym)
                 |(Hsf & file & Hmod & Hfile & Hck & [(out & -> & Hym)|[-> Hym]])].
  - intros Hloop. apply IH in Hloop as (new & new_y & Hck' & Hym' & Hall & Hkeys).
    exists new, new_y. rewrite Hck', Hym', Hck, Hym. auto.
  - intros [= <- <-]. exists [], []. rewrite !app_nil_r. auto.
  - intros Hloop. apply IH in Hloop as (new & new_y & Hck' & Hym' & Hall & Hkeys).
    exists ((global_step st1, file) :: new), ((global_step st1, out) :: new_y).
    rewrite Hck', Hym', Hck, Hym, <- !app_assoc. split_and!; [done..| |].
    + by constructor.
    + simpl. destruct Hkeys as [->|(-> & g & ->)]; [by left|right]. split; [done|]. by exists g.
  - intros [= <- <-]. exists [(global_step st1, file)], [].
    rewrite Hck, Hym, app_nil_r. split_and!; [done..| |].
    + by constructor.
    + right. split; [done|]. by exists (global_step st1).
Qed.
End training_runs.

(** X12.  A run of the loop that reaches the end of the data has made one step for
    every full group of [devices] batches, and has fetched the batches that
    are left over without training on them. *)
Theorem training_loop_steps
    (run_towers : dict Q → list batch → losses * grads)
    (adam gradient_descent : Q → Q → Q) (cfg : config) (devices : nat)
    (st st' : session) :
  0 < devices →
  (- 2 ^ 31 <= global_step st)%Z →
  (global_step st + Z.of_nat (length (training_iterator st) / devices) <= int32_max)%Z →
  training_loop run_towers adam gradient_descent cfg devices st
    = (Raise (NameError "validation_summary"), st') →
  global_step st' = (global_step st + Z.of_nat (length (training_iterator st) / devices))%Z
  ∧ training_iterator st' = [].
Proof.
  intros Hdevices Hlow Hhigh. unfold training_loop.
  apply while_true_steps; [done|lia|done..].
Qed.

(** X13.  Whatever way the loop ends, the checkpoints it has written are at steps
    that the save frequency divides, each holds its own step under the name
    of the global step, and the exports go with the checkpoints step by step:
    only a checkpoint whose export raised IndexError, which ends the run, is
    left without one. *)
Theorem training_loop_checkpoints
    (run_towers : dict Q → list batch → losses * grads)
    (adam gradient_descent : Q → Q → Q) (cfg : config) (devices : nat)
    (st st' : session) (r : res unit) :
  0 < devices →
  training_loop run_towers adam gradient_descent cfg devices st = (r, st') →
  ∃ new new_y,
    checkpoints st' = checkpoints st ++ new
    ∧ yaml_models st' = yaml_models st ++ new_y
    ∧ Forall (fun c : Z * dict saved =>
                save_frequency cfg ≠ 0%Z ∧ (c.1 mod save_frequency cfg = 0)%Z
                ∧ dict_get c.2 "global_step:0" = Some (SavedInt c.1)) new
    ∧ (map fst new_y = map fst new
       ∨ r = Raise IndexError ∧ ∃ g, map fst new = map fst new_y ++ [g]).
Proof. intros Hdevices. unfold training_loop. by apply while_true_checkpoints. Qed.

(* ----------------------------------------------------------------- *)
(** ** Per-device graph: the alpha mask                               *)
(* ----------------------------------------------------------------- *)

Section alpha_mask.
Context {A : Type}.

Lemma where_from_zip (p : Q → bool) (i : nat) (W : list Q) (t : list A) (f : nat → A) :
  length W = length t →
  (∀ j a, t !! j = Some a → f (i + j) = a) →
  map f (where_from p i W) = (filter (fun wa : Q * A => p wa.1 = true) (zip W t)).*2.
Proof.
  revert i t. induction W as [|w W IH]; intros i [|a t] Hlen Hf; try done.
  injection Hlen as Hlen. simpl. rewrite filter_cons. simpl.
  assert (map f (where_from p (S i) W)
          = (filter (fun wa : Q * A => p wa.1 = true) (zip W t)).*2) as Hrest.
  { apply IH; [done|]. intros j a' Hj. rewrite <- (Hf (S j) a' Hj). f_equal. lia. }
  destruct (p w) eqn:Hp.
  - rewrite decide_True by done. simpl. rewrite Hrest. f_equal.
    rewrite <- (Hf 0 a eq_refl). f_equal. lia.
  - rewrite decide_False by done. done.
Qed.
End alpha_mask.

Lemma masked_filter {A} (W : list Q) (t : list A) :
  masked W t = (filter (fun wa : Q * A => negb (Qle_bool wa.1 0) = true) (zip W t)).*2.
Proof.
  unfold masked. f_equal. apply list_filter_iff. intros [w a]. simpl.
  by destruct (Qle_bool w 0).
Qed.

Lemma gather_nd_masked (W t : list Q) :
  length W = length t →
  gather_nd t (tf_where (fun w => negb (Qle_bool w 0)) W) = masked W t.
Proof.
  intros Hlen. rewrite masked_filter. unfold gather_nd, tf_where.
  apply (where_from_zip (fun w => negb (Qle_bool w 0)) 0 W t
           (fun j => default 0%Q (t !! j))); [done|].
  intros j a Hj. simpl. by rewrite Hj.
Qed.

Lemma gather_nd_rows_masked (W : list Q) (t : list (list Q)) :
  length W = length t →
  gather_nd_rows t (tf_where (fun w => negb (Qle_bool w 0)) W) = masked W t.
Proof.
  intros Hlen. rewrite masked_filter. unfold gather_nd_rows, tf_where.
  apply (where_from_zip (fun w => negb (Qle_bool w 0)) 0 W t
           (fun j => default (replicate (length (default [] (head t))) 0%Q) (t !! j)));
    [done|].
  intros j a Hj. simpl. by rewrite Hj.
Qed.

Lemma length_masked {A B} (W : list Q) (t : list A) (u : list B) :
  length W = length t → length W = length u → length (masked W t) = length (masked W u).
Proof.
  unfold masked. rewrite !length_fmap. revert t u.
  induction W as [|w W IH]; intros [|a t] [|b u] Ht Hu; try done.
  injection Ht as Ht. injection Hu as Hu. simpl. rewrite !filter_cons. simpl.
  specialize (IH t u Ht Hu). case_decide; simpl; by rewrite IH.
Qed.

(** X14.  The device's graph works on the points whose weight is positive, and on
    those only: its predictions and tutor outputs are those of these points,
    in their order and aligned with one another, and its losses and metrics
    are those of the batch from which the other points have been removed.
    The weighted loss is stated where the loss engine divides by no zero:
    when every tutor output of a kept point plus the base weight is positive
    and some kept point is labelled with one of the classes; the count of
    active classes and the total of every class with a member are then not
    zero.  (Elsewhere TensorFlow returns nan for the weighted loss.) *)
Theorem device_graph_masks_points
    (softmax : list (list Q) → list (list Q))
    (softmax_cross_entropy_with_logits_v2 : list (list Q) → list (list Q) → list Q)
    (build_network : string → dict Q → list (list Q) → list (list Z) → list (list Z)
                     → list (list Q))
    (sigmoid : Q → Q)
    (compute_gradients_x compute_gradients_t : dict Q → batch → list grad_entry)
    (vars : dict Q) (data : batch) (network_structure tutor_structure : list (list Z))
    (cfg : config) (T0 : list Q) (b : device_bundle) :
  let X := build_network "Network" vars (data_X data) (data_G data) network_structure in
  let T := map sigmoid T0 in
  let W := data_W data in
  let Y := data_Y data in
  squeeze (build_network "Tutor" vars (data_X data) (data_G data) tutor_structure) = Some T0 →
  length W = length X → length W = length T0 → length W = length Y →
  _device_graph softmax softmax_cross_entropy_with_logits_v2 build_network sigmoid
    compute_gradients_x compute_gradients_t vars data network_structure tutor_structure cfg
  = Some b →
  op_X b = masked W X
  ∧ op_T b = masked W T
  ∧ length (op_X b) = length (op_T b)
  ∧ (∃ x t, _loss softmax softmax_cross_entropy_with_logits_v2 cfg
              (masked W X) (masked W T) (masked W Y)
            = Some (loss_u (op_loss b), x, t)
            ∧ loss_t (op_loss b) = Fin t
            ∧ (Forall (fun t => (0 < t + tutor_base_weight cfg)%Q) (masked W T) →
               (∃ i, i < length (network_classes cfg) ∧ has_member (masked W Y) i) →
               loss_x (op_loss b) = Fin x
               ∧ (0 < active_classes cfg (masked W T) (masked W Y))%Z
               ∧ ∀ i, has_member (masked W Y) i →
                      ¬ (reduce_sum
                           (map (fun t => (t + tutor_base_weight cfg)%Q)
                              (gather_nd (masked W T)
                                 (tf_where Qnonzero (column (masked W Y) i)))) == 0)%Q))
  ∧ _metrics softmax softmax_cross_entropy_with_logits_v2
      (masked W X) (masked W Y) (network_classes cfg)
    = Some (op_metrics b).
Proof.
  intros X T W Y Hsq HX HT HY. unfold _device_graph. rewrite Hsq. cbn [mbind option_bind].
  fold X. fold T. fold W. fold Y.
  rewrite !gather_nd_rows_masked, gather_nd_masked by (unfold T; rewrite ?length_map; done).
  destruct (_loss _ _ _ _ _ _) as [[[u x] t]|] eqn:Hloss; [|done]. cbn [mbind option_bind].
  destruct (_metrics _ _ _ _ _) as [metrics|] eqn:Hmetrics; [|done]. cbn [mbind option_bind].
  intros [= <-]. cbn [op_X op_T op_loss op_metrics loss_u loss_x loss_t].
  assert (length (masked W T) = length (masked W Y)) as Hshape.
  { apply length_masked; [|done]. unfold T. by rewrite length_map. }
  split_and!; [done|done| | |done].
  - apply length_masked; [done|]. unfold T. by rewrite length_map.
  - exists x, t. split; [done|]. split; [done|].
    intros Hpositive Hlabelled. split; [done|].
    split; [by apply active_classes_positive|].
    intros i Hmem H0.
    pose proof (class_points_positive cfg _ _ Hshape Hpositive i Hmem) as Hpos.
    rewrite H0 in Hpos. by apply Qlt_irrefl in Hpos.
Qed.

Lemma masked_none {A} (W : list Q) (t : list A) :
  Forall (fun w => (w <= 0)%Q) W → masked W t = [].
Proof.
  unfold masked. intros HW. revert t. induction HW as [|w W Hw _ IH]; intros [|a t]; try done.
  simpl. rewrite filter_cons. simpl. apply Qle_bool_iff in Hw.
  rewrite decide_False by (by rewrite Hw). apply IH.
Qed.

Lemma tf_where_none (W : list Q) :
  Forall (fun w => (w <= 0)%Q) W → tf_where (fun w => negb (Qle_bool w 0)) W = [].
Proof.
  unfold tf_where. generalize 0. intros i HW. revert i.
  induction HW as [|w W Hw _ IH]; intros i; simpl; [done|].
  apply Qle_bool_iff in Hw. rewrite Hw. simpl. apply IH.
Qed.

Lemma sum_Z_zero (d : dict metric) (f : metric → Z) :
  (∀ kv, kv ∈ d → f kv.2 = 0%Z) → sum_Z (map f (dict_values d)) = 0%Z.
Proof.
  intros Hf. unfold dict_values. induction d as [|kv d IH]; [done|].
  simpl. rewrite (Hf kv) by left. rewrite IH; [done|]. intros kv' Hin. apply Hf. by right.
Qed.

(** X15.  A batch in which no point has a positive weight: the device's weighted
    loss and tutor loss are 0, its raw loss is nan (the mean of no value),
    and every count of its metrics is 0. *)
Theorem device_graph_fully_masked
    (softmax : list (list Q) → list (list Q))
    (softmax_cross_entropy_with_logits_v2 : list (list Q) → list (list Q) → list Q)
    (build_network : string → dict Q → list (list Q) → list (list Z) → list (list Z)
                     → list (list Q))
    (sigmoid : Q → Q)
    (compute_gradients_x compute_gradients_t : dict Q → batch → list grad_entry)
    (vars : dict Q) (data : batch) (network_structure tutor_structure : list (list Z))
    (cfg : config) (T0 : list Q) :
  squeeze (build_network "Tutor" vars (data_X data) (data_G data) tutor_structure) = Some T0 →
  Forall (fun w => (w <= 0)%Q) (data_W data) →
  network_classes cfg ≠ [] →
  softmax_cross_entropy_with_logits_v2 [] [] = [] →
  ∃ b,
    _device_graph softmax softmax_cross_entropy_with_logits_v2 build_network sigmoid
      compute_gradients_x compute_gradients_t vars data network_structure tutor_structure cfg
    = Some b
    ∧ op_X b = [] ∧ op_T b = []
    ∧ op_loss b = {| loss_u := NaN; loss_x := Fin 0; loss_t := Fin 0 |}
    ∧ ∀ k m, dict_get (op_metrics b) k = Some m →
        m_tp m = 0%Z ∧ m_tn m = 0%Z ∧ m_fp m = 0%Z ∧ m_fn m = 0%Z.
Proof.
  intros Hsq HW Hclasses Hxent. unfold _device_graph. rewrite Hsq. cbn [mbind option_bind].
  rewrite (tf_where_none _ HW). cbn [gather_nd_rows gather_nd map].
  assert (_loss softmax softmax_cross_entropy_with_logits_v2 cfg [] [] []
          = Some (NaN, 0%Q, 0%Q)) as ->.
  { unfold _loss, W, scatters, add_n_vec. rewrite Hxent.
    destruct (network_classes cfg) as [|c classes] eqn:Hc; [done|].
    cbn [length seq map]. cbn [mbind option_bind]. cbn [stop_gradient].
    assert (∀ l : list (list Q), foldl (zip_with Qplus) [] l = []) as Hfold.
    { induction l as [|x l IH]; simpl; [done|]. apply IH. }
    unfold class_scatter at 1. cbn [column map tf_where where_from length Nat.eqb replicate].
    rewrite Hfold. done. }
  cbn [mbind option_bind]. unfold _metrics.
  set (d := per_class_metrics softmax softmax_cross_entropy_with_logits_v2 [] []
              (network_classes cfg)).
  destruct (global_metric_counts d) as (g & -> & Htp & Htn & Hfp & Hfn & _).
  { by apply per_class_metrics_nonempty. }
  cbn [mbind option_bind]. eexists. split; [done|].
  cbn [op_X op_T op_loss op_metrics]. split_and!; [done..|].
  assert (∀ kv, kv ∈ d →
            m_tp kv.2 = 0%Z ∧ m_tn kv.2 = 0%Z ∧ m_fp kv.2 = 0%Z ∧ m_fn kv.2 = 0%Z) as Hzero.
  { intros kv Hin. unfold d, per_class_metrics in Hin.
    apply class_loop_elem in Hin as [Hin|[j ->]]; [by apply elem_of_nil in Hin|].
    unfold class_metric. cbn [m_tp m_tn m_fp m_fn]. unfold argmax_is.
    cbn [map]. by rewrite !zip_with_nil_r. }
  pose proof (sum_Z_zero d) as Hsum.
  intros k m Hget. apply dict_get_Some_elem, dict_set_elem in Hget as [[= _ <-]|Hin].
  - rewrite Htp, Htn, Hfp, Hfn.
    rewrite !Hsum; [done|intros kv Hin; by destruct (Hzero kv Hin) as (? & ? & ? & ?)..].
  - apply (Hzero (k, m) Hin).
Qed.

(* ----------------------------------------------------------------- *)
(** ** Validation summaries: precision and recall                     *)
(* ----------------------------------------------------------------- *)

Lemma count_nonzero_Zs_nonneg (v : list Z) : (0 <= count_nonzero_Zs v)%Z.
Proof. unfold count_nonzero_Zs. lia. Qed.

Lemma sum_Z_nonneg (l : list Z) : Forall (fun z => (0 <= z)%Z) l → (0 <= sum_Z l)%Z.
Proof. induction 1; simpl; lia. Qed.

Lemma metrics_counts_nonneg
    (softmax : list (list Q) → list (list Q))
    (softmax_cross_entropy_with_logits_v2 : list (list Q) → list (list Q) → list Q)
    (X Y : list (list Q)) (classes : list class_desc) (ms : dict metric) (km : string * metric) :
  _metrics softmax softmax_cross_entropy_with_logits_v2 X Y classes = Some ms →
  km ∈ ms →
  (0 <= m_tp km.2)%Z ∧ (0 <= m_tn km.2)%Z ∧ (0 <= m_fp km.2)%Z ∧ (0 <= m_fn km.2)%Z.
Proof.
  unfold _metrics.
  set (d := per_class_metrics softmax softmax_cross_entropy_with_logits_v2 X Y classes).
  assert (∀ kv, kv ∈ d →
            (0 <= m_tp kv.2)%Z ∧ (0 <= m_tn kv.2)%Z
            ∧ (0 <= m_fp kv.2)%Z ∧ (0 <= m_fn kv.2)%Z) as Hclass.
  { intros kv Hin. unfold d, per_class_metrics in Hin.
    apply class_loop_elem in Hin as [Hin|[j ->]]; [by apply elem_of_nil in Hin|].
    unfold class_metric. cbn [m_tp m_tn m_fp m_fn].
    split_and!; apply count_nonzero_Zs_nonneg. }
  destruct (global_metric d) as [g|] eqn:Hg; [|done].
  assert (d ≠ []) as Hne by (intros Hd; by rewrite Hd in Hg).
  destruct (global_metric_counts d Hne) as (g' & Hg' & Htp & Htn & Hfp & Hfn & _).
  rewrite Hg in Hg'. injection Hg' as <-.
  cbn [mbind option_bind]. intros [= <-] Hin.
  apply dict_set_elem in Hin as [->|Hin]; [|by apply Hclass].
  cbn [snd]. rewrite Htp, Htn, Hfp, Hfn.
  split_and!; apply sum_Z_nonneg; unfold dict_values; rewrite map_map;
    apply Forall_forall; intros z (kv & -> & Hin)%list_elem_of_fmap;
    by destruct (Hclass kv Hin) as (? & ? & ? & ?).
Qed.

Lemma count_ratio_unit (a b : Z) :
  (0 <= a)%Z → (0 <= b)%Z →
  ((a + b = 0)%Z → count_ratio a (a + b) = NaN)
  ∧ ((a + b ≠ 0)%Z → ∃ q, count_ratio a (a + b) = Fin q ∧ (0 <= q <= 1)%Q).
Proof.
  intros Ha Hb. unfold count_ratio, tf_divide_Z. split.
  - intros Hz. rewrite Hz. simpl. assert (a = 0%Z) as -> by lia. done.
  - intros Hnz. destruct (Z.eqb_spec (a + b) 0) as [?|_]; [done|].
    eexists. split; [done|].
    assert (0 < inject_Z (a + b))%Q as Hpos.
    { change 0%Q with (inject_Z 0). rewrite <- Zlt_Qlt. lia. }
    split.
    + apply Qle_shift_div_l; [done|]. rewrite Qmult_0_l.
      change 0%Q with (inject_Z 0). rewrite <- Zle_Qle. lia.
    + apply Qle_shift_div_r; [done|]. rewrite Qmult_1_l. rewrite <- Zle_Qle. lia.
Qed.

(** X16.  The validation summary holds, for every entry of the metrics mapping, a
    Precision and a Recall scalar.  Each is nan exactly when its denominator
    is zero (no point predicted in the class, no point labelled in it) and a
    value between 0 and 1 otherwise; it is never infinite. *)
Theorem validation_summary_precision_recall
    (title : string → string)
    (softmax : list (list Q) → list (list Q))
    (softmax_cross_entropy_with_logits_v2 : list (list Q) → list (list Q) → list Q)
    (X Y : list (list Q)) (classes : list class_desc) (ms : dict metric)
    (k : string) (m : metric) :
  _metrics softmax softmax_cross_entropy_with_logits_v2 X Y classes = Some ms →
  (k, m) ∈ ms →
  ∃ precision recall,
    (title k, "Precision", precision) ∈ validation_summary_op title ms
    ∧ (title k, "Recall", recall) ∈ validation_summary_op title ms
    ∧ ((m_tp m + m_fp m = 0)%Z → precision = NaN)
    ∧ ((m_tp m + m_fp m ≠ 0)%Z → ∃ q, precision = Fin q ∧ (0 <= q <= 1)%Q)
    ∧ ((m_tp m + m_fn m = 0)%Z → recall = NaN)
    ∧ ((m_tp m + m_fn m ≠ 0)%Z → ∃ q, recall = Fin q ∧ (0 <= q <= 1)%Q).
Proof.
  intros Hms Hin.
  destruct (metrics_counts_nonneg _ _ _ _ _ _ (k, m) Hms Hin) as (Htp & _ & Hfp & Hfn).
  cbn [snd] in *.
  exists (count_ratio (m_tp m) (m_tp m + m_fp m)), (count_ratio (m_tp m) (m_tp m + m_fn m)).
  assert (∀ e, e ∈ [(title k, "Loss", m_loss m);
                    (title k, "Precision", count_ratio (m_tp m) (m_tp m + m_fp m));
                    (title k, "Recall", count_ratio (m_tp m) (m_tp m + m_fn m))] →
            e ∈ validation_summary_op title ms) as Hsub.
  { intros e He. unfold validation_summary_op. apply list_elem_of_In, in_concat.
    eexists. split; [|apply list_elem_of_In; exact He].
    apply list_elem_of_In, list_elem_of_fmap. by exists (k, m). }
  split; [apply Hsub; right; left|]. split; [apply Hsub; right; right; left|].
  destruct (count_ratio_unit (m_tp m) (m_fp m) Htp Hfp) as [? ?].
  destruct (count_ratio_unit (m_tp m) (m_fn m) Htp Hfn) as [? ?].
  done.
Qed.

(* ----------------------------------------------------------------- *)
(** ** Arrays: ranges and slices                                      *)
(* ----------------------------------------------------------------- *)

Section ranges.
Implicit Types (ns : list Z) (sizes : list nat).

Lemma cumsum_from_lookup acc ns b :
  b < length ns → cumsum_from acc ns !! b = Some (acc + sum_Z (take (S b) ns))%Z.
Proof.
  revert acc b. induction ns as [|n ns IH]; intros acc b Hb; simpl in *; [lia|].
  destruct b as [|b]; simpl.
  - f_equal. lia.
  - rewrite IH by lia. f_equal. simpl. lia.
Qed.

Lemma length_cumsum_from acc ns : length (cumsum_from acc ns) = length ns.
Proof. revert acc. induction ns as [|n ns IH]; intros acc; simpl; [done|]. by rewrite IH. Qed.

Lemma length_ranges ns : length (ranges ns) = length ns.
Proof.
  unfold ranges, np_cumsum. cbn [tail]. rewrite length_zip. cbn [length].
  rewrite length_cumsum_from. lia.
Qed.

(** The range of image [b]: from the number of points of the images before
    it to that number plus its own. *)
Lemma ranges_lookup ns b :
  b < length ns →
  ranges ns !! b = Some (sum_Z (take b ns), sum_Z (take (S b) ns)).
Proof.
  intros Hb. unfold ranges, np_cumsum. cbn [tail].
  apply lookup_zip_with_Some. eexists _, _. split; [done|]. split.
  - destruct b as [|b]; [done|]. simpl. rewrite cumsum_from_lookup by lia. by f_equal.
  - rewrite cumsum_from_lookup by done. by f_equal.
Qed.

Lemma sum_Z_of_nat sizes : sum_Z (map Z.of_nat sizes) = Z.of_nat (sum_list sizes).
Proof. induction sizes as [|n sizes IH]; simpl; [done|]. rewrite IH. lia. Qed.

Lemma sum_list_take_le sizes b : sum_list (take b sizes) ≤ sum_list sizes.
Proof.
  revert b. induction sizes as [|n sizes IH]; intros [|b]; simpl; try lia.
  specialize (IH b). lia.
Qed.

Lemma sum_list_take_S sizes b n :
  sizes !! b = Some n → sum_list (take (S b) sizes) = sum_list (take b sizes) + n.
Proof.
  revert b. induction sizes as [|m sizes IH]; intros [|b]; simpl; try done.
  - intros [= ->]. lia.
  - intros Hb. rewrite (IH b Hb). lia.
Qed.
End ranges.

Section slices.
Context {A : Type}.
Implicit Types (l : list A).

Lemma py_slice_prefix l (k : nat) : py_slice l 0 (Z.of_nat k) = take k l.
Proof.
  unfold py_slice, slice_bound. simpl.
  destruct (Z.ltb_spec (Z.of_nat k) 0); [lia|]. rewrite Nat2Z.id, Nat.sub_0_r, drop_0.
  destruct (Nat.min_spec k (length l)) as [[? ->]|[? ->]]; [done|].
  by rewrite !take_ge by lia.
Qed.

Lemma py_slice_range l (a k : nat) :
  a + k ≤ length l → py_slice l (Z.of_nat a) (Z.of_nat (a + k)) = take k (drop a l).
Proof.
  intros Hlen. unfold py_slice, slice_bound.
  destruct (Z.ltb_spec (Z.of_nat a) 0); [lia|].
  destruct (Z.ltb_spec (Z.of_nat (a + k)) 0); [lia|]. rewrite !Nat2Z.id.
  rewrite !Nat.min_l by lia. f_equal. lia.
Qed.

Lemma chunks_lookup (sizes : list nat) l b n :
  sizes !! b = Some n →
  chunks sizes l !! b = Some (take n (drop (sum_list (take b sizes)) l)).
Proof.
  revert l b. induction sizes as [|m sizes IH]; intros l [|b]; simpl; try done.
  - intros [= ->]. by rewrite drop_0.
  - intros Hb. rewrite (IH _ _ Hb). by rewrite drop_drop.
Qed.

Lemma length_chunks (sizes : list nat) l : length (chunks sizes l) = length sizes.
Proof. revert l. induction sizes as [|m sizes IH]; intros l; simpl; [done|]. by rewrite IH. Qed.
End slices.

Lemma mapM_res_ext {A B C} (f : A → res C) (g : B → res C) (l : list A) (k : list B) :
  Forall2 (fun a b => f a = g b) l k → mapM f l = mapM g k.
Proof. induction 1 as [|a b l k Hab _ IH]; cbn [mapM]; [done|]. by rewrite Hab, IH. Qed.

Lemma enumerate_lookup {A} (l : list A) i a : l !! i = Some a → enumerate l !! i = Some (i, a).
Proof.
  intros Hi. unfold enumerate. apply lookup_zip_with_Some. exists i, a.
  split; [done|]. split; [|done]. apply lookup_seq. split; [done|]. by apply lookup_lt_Some in Hi.
Qed.

Lemma length_enumerate {A} (l : list A) : length (enumerate l) = length l.
Proof. unfold enumerate. rewrite length_zip, length_seq. lia. Qed.

(* ----------------------------------------------------------------- *)
(** ** Progress images                                                *)
(* ----------------------------------------------------------------- *)

Section mesh_drawer.
Context {Img Fig : Type}.
Variable shape : Img → list nat.
Variable imdecode : string → res Img.
Variable imshow : Img → res Fig.
Variable ax_tricontour : Fig → tricontour → res Fig.
Variable savefig : Img → Fig → res Img.
Variable classes : list class_desc.

Variables (raws : list string) (pxs : list (list (Q * Q))) (sizes : list nat).
Hypothesis Hraws : length raws = length sizes.
Hypothesis Hpxs : length pxs = length sizes.
Hypothesis Hsizes : Forall (fun n => 1 ≤ n) sizes.

(** The indexing and slicing of the loop bodies, for image [b]. *)
Lemma image_points {A} (t : list A) b raw row pts :
  sum_list sizes ≤ length t →
  raws !! b = Some raw → pxs !! b = Some row → chunks sizes t !! b = Some pts →
  ∃ n r, py_index (map Z.of_nat sizes) b = Ok n
    ∧ py_index pxs b = Ok row
    ∧ py_index (ranges (map Z.of_nat sizes)) b = Ok r
    ∧ py_slice row 0 (n - 1) = take (length pts - 1) row
    ∧ py_slice t r.1 (r.2 - 1) = take (length pts - 1) pts.
Proof.
  intros Ht Hraw Hrow Hpts.
  assert (b < length sizes) as Hb by (rewrite <- Hraws; by apply lookup_lt_Some in Hraw).
  destruct (lookup_lt_is_Some_2 sizes b Hb) as [n Hn].
  assert (1 ≤ n) as Hn1 by (eapply Forall_forall in Hsizes; [done|by eapply list_elem_of_lookup_2]).
  rewrite (chunks_lookup sizes t b n Hn) in Hpts. injection Hpts as <-.
  pose proof (sum_list_take_S sizes b n Hn) as HS.
  pose proof (sum_list_take_le sizes (S b)) as Hle.
  assert (length (take n (drop (sum_list (take b sizes)) t)) = n) as Hlen.
  { rewrite length_take, length_drop. lia. }
  exists (Z.of_nat n),
    (sum_Z (take b (map Z.of_nat sizes)), sum_Z (take (S b) (map Z.of_nat sizes))).
  unfold py_index. rewrite list_lookup_fmap, Hn, Hrow.
  rewrite ranges_lookup by (by rewrite length_map). cbn [fst snd fmap option_fmap option_map].
  split_and!; [done..| |].
  - rewrite Hlen. replace (Z.of_nat n - 1)%Z with (Z.of_nat (n - 1)) by lia.
    apply py_slice_prefix.
  - rewrite Hlen. rewrite <- !fmap_take, !sum_Z_of_nat, HS.
    replace (Z.of_nat (sum_list (take b sizes) + n) - 1)%Z
      with (Z.of_nat (sum_list (take b sizes) + (n - 1))) by lia.
    rewrite py_slice_range by lia. rewrite take_take. f_equal. lia.
Qed.

(** X17.  Every image of [mesh_image] and of [tutor_image] is drawn over its own
    points: image [b] over the points that follow those of the images before
    it, its last point (the null point) left out, with as many of its pixel
    coordinates. *)
Theorem mesh_drawer_draws_own_points (X : list (list Q)) (A : list Q) :
  (sum_list sizes ≤ length X →
   MeshDrawer.mesh_image shape imdecode imshow ax_tricontour savefig classes
     raws pxs (map Z.of_nat sizes) X
   = (images ← mapM (fun d : string * list (Q * Q) * list (list Q) =>
                       MeshDrawer.draw_mesh imdecode imshow ax_tricontour savefig classes
                         d.1.1 d.1.2 d.2)
                 (zip (zip raws pxs) (chunks sizes X));
      MeshDrawer.np_stack shape images))
  ∧ (sum_list sizes ≤ length A →
     MeshDrawer.tutor_image shape imdecode imshow ax_tricontour savefig
       raws pxs (map Z.of_nat sizes) A
     = (images ← mapM (fun d : string * list (Q * Q) * list Q =>
                         MeshDrawer.draw_tutor imdecode imshow ax_tricontour savefig
                           d.1.1 d.1.2 d.2)
                   (zip (zip raws pxs) (chunks sizes A));
        MeshDrawer.np_stack shape images)).
Proof.
  split; intros Hlen.
  - unfold MeshDrawer.mesh_image. f_equal. apply mapM_res_ext.
    apply Forall2_same_length_lookup_2.
    { rewrite length_enumerate, !length_zip, length_chunks. lia. }
    intros i [j raw'] [[raw row] pts] Hi Hd.
    apply lookup_zip_with_Some in Hd as (? & ? & [= <- <-] & Hrr & Hpts).
    apply lookup_zip_with_Some in Hrr as (? & ? & [= <- <-] & Hraw & Hrow).
    rewrite (enumerate_lookup raws i raw Hraw) in Hi. injection Hi as <- <-.
    destruct (image_points X i raw row pts Hlen Hraw Hrow Hpts)
      as (n & r & Hn & Hrow' & Hr & Hpx & Hx).
    cbn [fst snd]. unfold MeshDrawer.mesh_image_body, MeshDrawer.draw_mesh.
    destruct (imdecode raw) as [img|e]; [|done]. cbn [mbind res_bind].
    rewrite Hn, Hrow', Hr. cbn [mbind res_bind]. by rewrite Hpx, Hx.
  - unfold MeshDrawer.tutor_image. f_equal. apply mapM_res_ext.
    apply Forall2_same_length_lookup_2.
    { rewrite length_enumerate, !length_zip, length_chunks. lia. }
    intros i [j raw'] [[raw row] pts] Hi Hd.
    apply lookup_zip_with_Some in Hd as (? & ? & [= <- <-] & Hrr & Hpts).
    apply lookup_zip_with_Some in Hrr as (? & ? & [= <- <-] & Hraw & Hrow).
    rewrite (enumerate_lookup raws i raw Hraw) in Hi. injection Hi as <- <-.
    destruct (image_points A i raw row pts Hlen Hraw Hrow Hpts)
      as (n & r & Hn & Hrow' & Hr & Hpx & Hx).
    cbn [fst snd]. unfold MeshDrawer.tutor_image_body, MeshDrawer.draw_tutor.
    destruct (imdecode raw) as [img|e]; [|done]. cbn [mbind res_bind].
    rewrite Hn, Hrow', Hr. cbn [mbind res_bind]. by rewrite Hpx, Hx.
Qed.
End mesh_drawer.

(** X18.  A batch without images: both methods raise the ValueError of
    [np.stack], which needs at least one array. *)
Theorem mesh_drawer_empty_batch {Img Fig : Type}
    (shape : Img → list nat) (imdecode : string → res Img)
    (imshow : Img → res Fig) (ax_tricontour : Fig → tricontour → res Fig)
    (savefig : Img → Fig → res Img) (classes : list class_desc)
    (pxs : list (list (Q * Q))) (ns : list Z) (X : list (list Q)) (A : list Q) :
  MeshDrawer.mesh_image shape imdecode imshow ax_tricontour savefig classes [] pxs ns X
  = Raise ValueError
  ∧ MeshDrawer.tutor_image shape imdecode imshow ax_tricontour savefig [] pxs ns A
    = Raise ValueError.
Proof. done. Qed.

(* ----------------------------------------------------------------- *)
(** ** The one-cycle callback                                         *)
(* ----------------------------------------------------------------- *)

(** X19.  The constructor reads [lr], a name that neither its parameters nor the
    module nor the builtins bind: every call raises NameError, whatever the
    configuration, before any key of it is read. *)
Theorem one_cycle_init_raises_NameError (config : dict OneCycle.pyval) :
  OneCycle.__init__ config = Raise (NameError "lr").
Proof. reflexivity. Qed.

Section one_cycle.
Import OneCycle.
Local Open Scope Q_scope.

Lemma inject_Z_pos (c : Z) : (0 < c)%Z → 0 < inject_Z c.
Proof. intros Hc. change 0 with (inject_Z 0). by rewrite <- Zlt_Qlt. Qed.

(** The comparison of a phase [k / c] with a fraction, on the integers. *)
Lemma phase_lt_half (k c : Z) :
  (0 < c)%Z → Qlt_bool (inject_Z k / inject_Z c) (1 # 2) = (2 * k <? c)%Z.
Proof.
  intros Hc. pose proof (inject_Z_pos c Hc) as HC. unfold Qlt_bool.
  destruct (Z.ltb_spec (2 * k) c) as [Hk|Hk].
  - destruct (Qle_bool _ _) eqn:E; [|done]. apply Qle_bool_iff in E. exfalso.
    assert (inject_Z k / inject_Z c < 1 # 2); [|lra].
    apply Qlt_shift_div_r; [done|].
    rewrite Zlt_Qlt, inject_Z_mult in Hk. change (inject_Z 2) with 2 in Hk. lra.
  - assert (Qle_bool (1 # 2) (inject_Z k / inject_Z c) = true) as ->; [|done].
    apply Qle_bool_iff. apply Qle_shift_div_l; [done|].
    rewrite Zle_Qle, inject_Z_mult in Hk. change (inject_Z 2) with 2 in Hk. lra.
Qed.

Lemma phase_lt_one (k c : Z) :
  (0 < c)%Z → Qlt_bool (inject_Z k / inject_Z c) 1 = (k <? c)%Z.
Proof.
  intros Hc. pose proof (inject_Z_pos c Hc) as HC. unfold Qlt_bool.
  destruct (Z.ltb_spec k c) as [Hk|Hk].
  - destruct (Qle_bool _ _) eqn:E; [|done]. apply Qle_bool_iff in E. exfalso.
    assert (inject_Z k / inject_Z c < 1); [|lra].
    apply Qlt_shift_div_r; [done|]. rewrite Zlt_Qlt in Hk. lra.
  - assert (Qle_bool 1 (inject_Z k / inject_Z c) = true) as ->; [|done].
    apply Qle_bool_iff. apply Qle_shift_div_l; [done|]. rewrite Zle_Qle in Hk. lra.
Qed.

Variables (self : t) (m : model) (s : Z).
Hypothesis Hstart : start_step self = Some s.

Lemma rate_at_up batch :
  (0 < cycle_batches self)%Z → (2 * (batch - s) < cycle_batches self)%Z →
  rate_at batch (self, m)
  = Some (min_lr self + (max_lr self - min_lr self)
                        * (inject_Z (batch - s) / inject_Z (cycle_batches self) * 2)).
Proof.
  intros Hc Hk. unfold rate_at, on_train_batch_end, truediv. rewrite Hstart.
  cbn [from_option id start_step cycle_batches decay_batches min_lr max_lr decay_lr].
  destruct (Z.eqb_spec (cycle_batches self) 0) as [?|_]; [lia|]. cbn [mbind res_bind].
  rewrite phase_lt_half by done. destruct (Z.ltb_spec (2 * (batch - s)) (cycle_batches self)); [|lia].
  cbn [start_step]. by destruct (_ <=? _)%Z.
Qed.

Lemma rate_at_decay batch :
  (0 < cycle_batches self)%Z → decay_batches self ≠ 0%Z →
  (cycle_batches self <= batch - s)%Z →
  rate_at batch (self, m)
  = Some (let decay_phase := inject_Z (batch - s - cycle_batches self)
                             / inject_Z (decay_batches self) in
          min_lr self * (1 - decay_phase) + decay_lr self * decay_phase).
Proof.
  intros Hc Hd Hk. unfold rate_at, on_train_batch_end, truediv. rewrite Hstart.
  cbn [from_option id start_step cycle_batches decay_batches min_lr max_lr decay_lr].
  destruct (Z.eqb_spec (cycle_batches self) 0) as [?|_]; [lia|]. cbn [mbind res_bind].
  rewrite phase_lt_half, phase_lt_one by done.
  destruct (Z.ltb_spec (2 * (batch - s)) (cycle_batches self)); [lia|].
  destruct (Z.ltb_spec (batch - s) (cycle_batches self)); [lia|].
  destruct (Z.eqb_spec (decay_batches self) 0) as [?|_]; [done|]. cbn [mbind res_bind].
  cbn [start_step]. by destruct (_ <=? _)%Z.
Qed.

End one_cycle.

(** X20.  The schedule meets its three rates exactly: the rate set at the start
    step is the minimum rate, the rate set at the batch that ends the cycle
    is the minimum rate again, and the rate set at the batch that ends the
    decay is the decay rate.  At these batches the phase is 0 or 1, so that
    the products and sums of the code are exact in doubles as they are in the
    rationals, for batch counts that are exact as doubles and rates whose
    difference is a finite double. *)
Theorem one_cycle_rate_endpoints (self : OneCycle.t) (m : OneCycle.model) (s : Z) :
  OneCycle.start_step self = Some s →
  (0 < OneCycle.cycle_batches self)%Z →
  (0 < OneCycle.decay_batches self)%Z →
  (OneCycle.cycle_batches self + OneCycle.decay_batches self < 2 ^ 53)%Z →
  (Qabs (OneCycle.max_lr self - OneCycle.min_lr self) <= 2 ^ 1023)%Q →
  ∃ q0 q1 q2,
    OneCycle.rate_at s (self, m) = Some q0
    ∧ OneCycle.rate_at (s + OneCycle.cycle_batches self) (self, m) = Some q1
    ∧ OneCycle.rate_at (s + OneCycle.cycle_batches self + OneCycle.decay_batches self) (self, m)
      = Some q2
    ∧ (q0 == OneCycle.min_lr self)%Q
    ∧ (q1 == OneCycle.min_lr self)%Q
    ∧ (q2 == OneCycle.decay_lr self)%Q.
Proof.
  intros Hstart Hc Hd _ _.
  pose proof (inject_Z_pos _ Hc) as HC. pose proof (inject_Z_pos _ Hd) as HD.
  eexists _, _, _. split_and!.
  - apply (rate_at_up self m s Hstart s Hc). lia.
  - apply (rate_at_decay self m s Hstart _ Hc); lia.
  - apply (rate_at_decay self m s Hstart _ Hc); lia.
  - replace (s - s)%Z with 0%Z by lia. change (inject_Z 0) with 0%Q. field. lra.
  - cbv zeta.
    replace (s + OneCycle.cycle_batches self - s - OneCycle.cycle_batches self)%Z
      with 0%Z by lia.
    change (inject_Z 0) with 0%Q. field. lra.
  - cbv zeta.
    replace (s + OneCycle.cycle_batches self + OneCycle.decay_batches self - s
             - OneCycle.cycle_batches self)%Z
      with (OneCycle.decay_batches self) by lia.
    field. lra.
Qed.

(** X23.  A call that returns gives the optimiser the rate it has stored, and sets
    the stop flag exactly when the batch is at or past the end of the decay;
    it never clears the flag.  A call that raises leaves the model as it is. *)
Theorem one_cycle_stops_after_decay
    (batch : Z) (logs : option (dict Q)) (self self' : OneCycle.t)
    (m m' : OneCycle.model) (r : res (option (dict Q))) :
  OneCycle.on_train_batch_end batch logs (self, m) = (r, (self', m')) →
  match r with
  | Ok _ =>
      OneCycle.learning_rate self' = OneCycle.PFloat (OneCycle.optimizer_lr m')
      ∧ OneCycle.stop_training m'
        = (OneCycle.stop_training m
           || (default batch (OneCycle.start_step self) + OneCycle.cycle_batches self
               + OneCycle.decay_batches self <=? batch)%Z)
  | Raise _ => m' = m
  end.
Proof.
  unfold OneCycle.on_train_batch_end.
  cbn [OneCycle.start_step OneCycle.cycle_batches OneCycle.decay_batches
       OneCycle.min_lr OneCycle.max_lr OneCycle.decay_lr].
  match goal with |- context [match ?x with Ok _ => _ | Raise _ => _ end] =>
    destruct x as [lr|e] end.
  - cbn [OneCycle.start_step]. intros [= <- <- <-].
    destruct (_ <=? _)%Z; cbn; split; try done; by destruct (OneCycle.stop_training m).
  - by intros [= <- <- <-].
Qed.

(** X24.  The start of the cycle is fixed by the first call: a callback with a hot
    start takes the batch of its first call, a callback that has a start
    keeps it, whatever calls follow and whether they raise or not. *)
Theorem one_cycle_start_is_latched
    (batch : Z) (batches : list Z) (self : OneCycle.t) (m : OneCycle.model) :
  OneCycle.start_step (OneCycle.after_batches (batch :: batches) (self, m)).1
  = Some (default batch (OneCycle.start_step self)).
Proof.
  assert (∀ b logs sm, OneCycle.start_step (OneCycle.on_train_batch_end b logs sm).2.1
                       = Some (default b (OneCycle.start_step sm.1))) as Hcall.
  { intros b logs [self0 m0]. unfold OneCycle.on_train_batch_end.
    cbn [OneCycle.start_step OneCycle.cycle_batches OneCycle.decay_batches
         OneCycle.min_lr OneCycle.max_lr OneCycle.decay_lr].
    match goal with |- context [match ?x with Ok _ => _ | Raise _ => _ end] =>
      destruct x as [lr|e] end; [|done].
    cbn [OneCycle.start_step]. by destruct (_ <=? _)%Z. }
  assert (∀ bs sm s, OneCycle.start_step sm.1 = Some s →
            OneCycle.start_step (OneCycle.after_batches bs sm).1 = Some s) as Hkeep.
  { induction bs as [|b bs IH]; intros sm s Hs; [done|].
    unfold OneCycle.after_batches. cbn [foldl]. apply IH. by rewrite Hcall, Hs. }
  unfold OneCycle.after_batches. cbn [foldl]. apply Hkeep. by rewrite Hcall.
Qed.

(** X25.  A cycle of no batch makes every call raise ZeroDivisionError, and a decay
    of no batch makes the calls from the end of the cycle on raise it; the
    stored rate and the model are then left as they were. *)
Theorem one_cycle_zero_lengths_raise
    (batch : Z) (logs : option (dict Q)) (self : OneCycle.t) (m : OneCycle.model) :
  let start := default batch (OneCycle.start_step self) in
  (OneCycle.cycle_batches self = 0%Z
   ∨ (0 < OneCycle.cycle_batches self)%Z ∧ OneCycle.decay_batches self = 0%Z
     ∧ (start + OneCycle.cycle_batches self <= batch)%Z) →
  ∃ self',
    OneCycle.on_train_batch_end batch logs (self, m) = (Raise ZeroDivisionError, (self', m))
    ∧ OneCycle.learning_rate self' = OneCycle.learning_rate self
    ∧ OneCycle.start_step self' = Some start.
Proof.
  intros start Hzero. unfold OneCycle.on_train_batch_end, OneCycle.truediv.
  cbn [OneCycle.start_step OneCycle.cycle_batches OneCycle.decay_batches
       OneCycle.min_lr OneCycle.max_lr OneCycle.decay_lr]. fold start.
  destruct Hzero as [Hc|(Hc & Hd & Hbatch)].
  - rewrite Hc. cbn. by eexists.
  - destruct (Z.eqb_spec (OneCycle.cycle_batches self) 0) as [?|_]; [lia|].
    cbn [mbind res_bind]. rewrite phase_lt_half, phase_lt_one by done.
    destruct (Z.ltb_spec (2 * (batch - start)) (OneCycle.cycle_batches self)); [lia|].
    destruct (Z.ltb_spec (batch - start) (OneCycle.cycle_batches self)); [lia|].
    rewrite Hd. cbn. by eexists.
Qed.

(* ----------------------------------------------------------------- *)
(** ** The image feature: bilinear interpolation                      *)
(* ----------------------------------------------------------------- *)

Section interpolate.
Import Image.
Local Open Scope Q_scope.

Lemma mapM_four {A B} (f : A → option B) (a b c d : A) (r : list B) :
  mapM f [a; b; c; d] = Some r →
  ∃ a' b' c' d', f a = Some a' ∧ f b = Some b' ∧ f c = Some c' ∧ f d = Some d'
    ∧ r = [a'; b'; c'; d'].
Proof.
  intros H. apply mapM_Some in H.
  apply Forall2_cons_inv_l in H as (a' & r1 & Ha & H & ->).
  apply Forall2_cons_inv_l in H as (b' & r2 & Hb & H & ->).
  apply Forall2_cons_inv_l in H as (c' & r3 & Hc & H & ->).
  apply Forall2_cons_inv_l in H as (d' & r4 & Hd & H & ->).
  apply Forall2_nil_inv_l in H as ->. by exists a', b', c', d'.
Qed.

Lemma gather_nd_lookup img idx (v : list (list Q)) i (yx : Z * Z) :
  gather_nd img idx = Some v → idx !! i = Some yx →
  ∃ p, gather_pixel img yx = Some p ∧ v !! i = Some p.
Proof.
  intros Hv Hi. apply mapM_Some in Hv.
  destruct (Forall2_lookup_l _ _ _ _ _ Hv Hi) as (p & Hp & Hg). eauto.
Qed.

Variables (img : list (list (list Q))) (C : list (Q * Q)) (out : list (list Q)).
Hypothesis Hout : _interpolate_gather img C = Some out.

Local Abbreviation h := (Z.of_nat (length img) - 1)%Z.
Local Abbreviation w := (Z.of_nat (length (default [] (head img))) - 1)%Z.

(** The output pixel of a point: the weighted sum of the pixels at the four
    clipped corners around it. *)
Lemma interpolate_gather_lookup i (y x : Q) :
  C !! i = Some (y, x) →
  ∃ p00 p01 p10 p11,
    gather_pixel img (clip_by_value (Qfloor y) 0 h, clip_by_value (Qfloor x) 0 w) = Some p00
    ∧ gather_pixel img (clip_by_value (Qfloor y) 0 h, clip_by_value (Qfloor x + 1) 0 w) = Some p01
    ∧ gather_pixel img (clip_by_value (Qfloor y + 1) 0 h, clip_by_value (Qfloor x) 0 w) = Some p10
    ∧ gather_pixel img (clip_by_value (Qfloor y + 1) 0 h, clip_by_value (Qfloor x + 1) 0 w) = Some p11
    ∧ out !! i = Some (interpolate_pixel p00 p01 p10 p11
                         (y - inject_Z (Qfloor y)) (x - inject_Z (Qfloor x))).
Proof.
  intros Hi. unfold _interpolate_gather in Hout.
  cbn [map fst snd] in Hout.
  destruct (mapM (gather_nd img) _) as [p_val|] eqn:Hval; [|done].
  cbn [mbind option_bind] in Hout.
  apply mapM_four in Hval as (v00 & v01 & v10 & v11 & H00 & H01 & H10 & H11 & ->).
  cbn [zip_with add_n foldl] in Hout. injection Hout as <-.
  assert (∀ (f g : Z → Z) v,
            gather_nd img
              (zip_with (fun a b => (clip_by_value a 0 h, clip_by_value b 0 w))
                 (map f (map (fun c : Q * Q => Qfloor c.1) C))
                 (map g (map (fun c : Q * Q => Qfloor c.2) C))) = Some v →
            ∃ p, gather_pixel img (clip_by_value (f (Qfloor y)) 0 h,
                                   clip_by_value (g (Qfloor x)) 0 w) = Some p
                 ∧ v !! i = Some p) as Hcorner.
  { intros f g v Hv. eapply gather_nd_lookup; [exact Hv|].
    rewrite lookup_zip_with, !list_lookup_fmap, Hi. done. }
  rewrite <- (map_id (map (fun c : Q * Q => Qfloor c.1) C)) in H00, H01.
  rewrite <- (map_id (map (fun c : Q * Q => Qfloor c.2) C)) in H00, H10.
  destruct (Hcorner _ _ _ H00) as (p00 & Hp00 & Hv00).
  destruct (Hcorner _ _ _ H01) as (p01 & Hp01 & Hv01).
  destruct (Hcorner _ _ _ H10) as (p10 & Hp10 & Hv10).
  destruct (Hcorner _ _ _ H11) as (p11 & Hp11 & Hv11).
  exists p00, p01, p10, p11. split_and!; [done..|].
  unfold multiply, interpolate_pixel.
  rewrite !lookup_zip_with, Hv00, Hv01, Hv10, Hv11.
  rewrite !list_lookup_fmap, Hi. done.
Qed.

End interpolate.

Section rectangular.
Import Image.
Local Open Scope Q_scope.

Variables (img : list (list (list Q))) (H W channels : nat).
Hypothesis Himg : rectangular H W channels img.

Lemma rectangular_bounds :
  (0 < H)%nat →
  (Z.of_nat (length img) - 1)%Z = (Z.of_nat H - 1)%Z
  ∧ (Z.of_nat (length (default [] (head img))) - 1)%Z = (Z.of_nat W - 1)%Z.
Proof.
  intros HH. destruct Himg as [Hlen Hrows]. split; [by rewrite Hlen|].
  destruct img as [|row rows]; [simpl in Hlen; lia|].
  apply Forall_cons in Hrows as [[Hrow _] _]. simpl. by rewrite Hrow.
Qed.

(** A pixel of the image. *)
Lemma gather_pixel_in_range (y x : Z) :
  (0 <= y < Z.of_nat H)%Z → (0 <= x < Z.of_nat W)%Z →
  ∃ p, gather_pixel img (y, x) = Some p ∧ length p = channels.
Proof.
  intros Hy Hx. destruct Himg as [Hlen Hrows]. unfold gather_pixel. cbn [fst snd].
  destruct (Z.ltb_spec y 0); [lia|]. destruct (Z.ltb_spec x 0); [lia|]. cbn [orb].
  destruct (lookup_lt_is_Some_2 img (Z.to_nat y)) as [row Hrow]; [lia|].
  rewrite Hrow. cbn [mbind option_bind].
  rewrite Forall_forall in Hrows.
  destruct (Hrows row) as [HrowW Hpix]; [by eapply list_elem_of_lookup_2|].
  destruct (lookup_lt_is_Some_2 row (Z.to_nat x)) as [p Hp]; [lia|].
  exists p. split; [done|]. rewrite Forall_forall in Hpix. apply Hpix.
  by eapply list_elem_of_lookup_2.
Qed.

Lemma clip_in_range (a : Z) (n : nat) :
  (0 < n)%nat → (0 <= clip_by_value a 0 (Z.of_nat n - 1) < Z.of_nat n)%Z.
Proof. unfold clip_by_value. lia. Qed.

Lemma clip_id (a : Z) (n : nat) :
  (0 <= a < Z.of_nat n)%Z → clip_by_value a 0 (Z.of_nat n - 1) = a.
Proof. unfold clip_by_value. lia. Qed.

Lemma gather_nd_clipped (ys xs : list Z) :
  (0 < H)%nat → (0 < W)%nat →
  ∃ v, gather_nd img
         (zip_with (fun a b => (clip_by_value a 0 (Z.of_nat H - 1),
                                clip_by_value b 0 (Z.of_nat W - 1))) ys xs) = Some v.
Proof.
  intros HH HW. apply mapM_is_Some, Forall_forall. intros [y x] Hin. simpl.
  apply elem_of_zip_with in Hin as (a & b & [= -> ->] & _ & _).
  destruct (gather_pixel_in_range (clip_by_value a 0 (Z.of_nat H - 1))
              (clip_by_value b 0 (Z.of_nat W - 1))) as (p & -> & _);
    [by apply clip_in_range..|]. done.
Qed.

Lemma length_interpolate_pixel (p00 p01 p10 p11 : list Q) (yw xw : Q) :
  length p00 = channels → length p01 = channels →
  length p10 = channels → length p11 = channels →
  length (interpolate_pixel p00 p01 p10 p11 yw xw) = channels.
Proof.
  intros. unfold interpolate_pixel. rewrite !length_zip_with, !length_map. lia.
Qed.

Lemma interpolate_pixel_corner (p00 p01 p10 p11 : list Q) (yw xw : Q) :
  length p01 = length p00 → length p10 = length p00 → length p11 = length p00 →
  yw == 0 → xw == 0 →
  Forall2 Qeq (interpolate_pixel p00 p01 p10 p11 yw xw) p00.
Proof.
  intros H01 H10 H11 Hy Hx. unfold interpolate_pixel.
  revert p01 p10 p11 H01 H10 H11.
  induction p00 as [|v00 p00 IH]; intros p01 p10 p11 H01 H10 H11.
  { cbn [map zip_with]. constructor. }
  destruct p01 as [|v01 p01], p10 as [|v10 p10], p11 as [|v11 p11]; try done.
  cbn [map zip_with]. constructor.
  - rewrite Hy, Hx. ring.
  - apply IH; simpl in *; lia.
Qed.
End rectangular.

(** X27.  On an image that is not empty the interpolation is defined for every
    list of coordinates, inside the image or not: it returns one pixel for
    each coordinate, with the channels of the image. *)
Theorem interpolate_gather_total
    (img : list (list (list Q))) (H W channels : nat) (C : list (Q * Q)) :
  Image.rectangular H W channels img → 0 < H → 0 < W →
  ∃ out, Image._interpolate_gather img C = Some out
    ∧ length out = length C
    ∧ Forall (fun pixel => length pixel = channels) out.
Proof.
  intros Himg HH HW.
  destruct (rectangular_bounds img H W channels Himg HH) as [Hh Hw].
  assert (∃ out, Image._interpolate_gather img C = Some out ∧ length out = length C)
    as (out & Hout & Hlen).
  { unfold Image._interpolate_gather. rewrite Hh, Hw. cbn [map fst snd mapM].
    repeat match goal with
    | |- context [Image.gather_nd img (zip_with ?f ?ys ?xs)] =>
        let v := fresh "v" in let Hv := fresh "Hv" in
        destruct (gather_nd_clipped img H W channels Himg ys xs HH HW) as [v Hv];
        rewrite Hv; apply length_mapM in Hv;
        rewrite length_zip_with, !length_map in Hv
    end.
    cbn [mbind option_bind mret option_ret zip_with Image.add_n foldl].
    eexists. split; [done|]. unfold Image.multiply.
    rewrite !length_zip_with, !length_map. lia. }
  exists out. split; [done|]. split; [done|].
  apply Forall_lookup. intros i p Hp.
  destruct (C !! i) as [[y x]|] eqn:Hi.
  2:{ apply lookup_lt_Some in Hp. apply lookup_ge_None in Hi. lia. }
  destruct (interpolate_gather_lookup img C out Hout i y x Hi)
    as (p00 & p01 & p10 & p11 & H00 & H01 & H10 & H11 & Hp').
  rewrite Hp in Hp'. injection Hp' as ->. rewrite Hh, Hw in H00, H01, H10, H11.
  assert (∀ a b q,
            Image.gather_pixel img (Image.clip_by_value a 0 (Z.of_nat H - 1),
                                    Image.clip_by_value b 0 (Z.of_nat W - 1)) = Some q →
            length q = channels) as Hch.
  { intros a b q Hq.
    destruct (gather_pixel_in_range img H W channels Himg
                (Image.clip_by_value a 0 (Z.of_nat H - 1))
                (Image.clip_by_value b 0 (Z.of_nat W - 1))) as (q' & Hq' & Hlen');
      [by apply clip_in_range..|]. congruence. }
  apply length_interpolate_pixel; eauto.
Qed.

(** X28.  At a coordinate that is a pixel of the image the interpolation returns
    that pixel: integer coordinates inside the image are not blurred. *)
Theorem interpolate_gather_exact_on_pixels
    (img : list (list (list Q))) (H W channels : nat) (C : list (Q * Q))
    (out : list (list Q)) (i : nat) (y x : Q) (yi xi : Z) :
  Image.rectangular H W channels img →
  Image._interpolate_gather img C = Some out →
  C !! i = Some (y, x) →
  (y == inject_Z yi)%Q → (x == inject_Z xi)%Q →
  (0 <= yi < Z.of_nat H)%Z → (0 <= xi < Z.of_nat W)%Z →
  ∃ p pixel,
    out !! i = Some p
    ∧ Image.gather_pixel img (yi, xi) = Some pixel
    ∧ Forall2 Qeq p pixel.
Proof.
  intros Himg Hout Hi Hy Hx Hyi Hxi.
  assert (0 < H) as HH by lia. assert (0 < W) as HW by lia.
  destruct (rectangular_bounds img H W channels Himg HH) as [Hh Hw].
  destruct (interpolate_gather_lookup img C out Hout i y x Hi)
    as (p00 & p01 & p10 & p11 & H00 & H01 & H10 & H11 & Hp).
  rewrite Hh, Hw in H00, H01, H10, H11.
  assert (Qfloor y = yi) as Hfy by (rewrite Hy; apply Qfloor_Z).
  assert (Qfloor x = xi) as Hfx by (rewrite Hx; apply Qfloor_Z).
  assert (∀ a b q,
            Image.gather_pixel img (Image.clip_by_value a 0 (Z.of_nat H - 1),
                                    Image.clip_by_value b 0 (Z.of_nat W - 1)) = Some q →
            length q = channels) as Hch.
  { intros a b q Hq.
    destruct (gather_pixel_in_range img H W channels Himg
                (Image.clip_by_value a 0 (Z.of_nat H - 1))
                (Image.clip_by_value b 0 (Z.of_nat W - 1))) as (q' & Hq' & Hlen');
      [by apply clip_in_range..|]. congruence. }
  pose proof (Hch _ _ _ H00) as L00. pose proof (Hch _ _ _ H01) as L01.
  pose proof (Hch _ _ _ H10) as L10. pose proof (Hch _ _ _ H11) as L11.
  rewrite Hfy, Hfx, !clip_id in H00 by done.
  exists (Image.interpolate_pixel p00 p01 p10 p11
            (y - inject_Z (Qfloor y)) (x - inject_Z (Qfloor x))), p00.
  split; [done|]. split; [done|].
  apply interpolate_pixel_corner; [congruence..| |].
  - rewrite Hfy, Hy. ring.
  - rewrite Hfx, Hx. ring.
Qed.

(** X26.  At a coordinate whose row and column are integers, inside the image
    or not, the interpolation returns the pixel of the image that is nearest
    to it: the row and the column are clipped to the image, and the weights
    of the three other corners are zero.  (At integers of the int32 range the
    floors, the cast and the weights 1 and 0 are exact in floating point as
    they are in the rationals.) *)
Theorem interpolate_gather_clamps_to_edge
    (img : list (list (list Q))) (H W channels : nat) (C : list (Q * Q))
    (out : list (list Q)) (i : nat) (y x : Q) (yi xi : Z) :
  Image.rectangular H W channels img → 0 < H → 0 < W →
  Image._interpolate_gather img C = Some out →
  C !! i = Some (y, x) →
  (y == inject_Z yi)%Q → (x == inject_Z xi)%Q →
  (- 2 ^ 31 <= yi < 2 ^ 31)%Z → (- 2 ^ 31 <= xi < 2 ^ 31)%Z →
  ∃ p pixel,
    out !! i = Some p
    ∧ Image.gather_pixel img (Image.clip_by_value yi 0 (Z.of_nat H - 1),
                              Image.clip_by_value xi 0 (Z.of_nat W - 1)) = Some pixel
    ∧ Forall2 Qeq p pixel.
Proof.
  intros Himg HH HW Hout Hi Hy Hx _ _.
  destruct (rectangular_bounds img H W channels Himg HH) as [Hh Hw].
  destruct (interpolate_gather_lookup img C out Hout i y x Hi)
    as (p00 & p01 & p10 & p11 & H00 & H01 & H10 & H11 & Hp).
  rewrite Hh, Hw in H00, H01, H10, H11.
  assert (Qfloor y = yi) as Hfy by (rewrite Hy; apply Qfloor_Z).
  assert (Qfloor x = xi) as Hfx by (rewrite Hx; apply Qfloor_Z).
  assert (∀ a b q,
            Image.gather_pixel img (Image.clip_by_value a 0 (Z.of_nat H - 1),
                                    Image.clip_by_value b 0 (Z.of_nat W - 1)) = Some q →
            length q = channels) as Hch.
  { intros a b q Hq.
    destruct (gather_pixel_in_range img H W channels Himg
                (Image.clip_by_value a 0 (Z.of_nat H - 1))
                (Image.clip_by_value b 0 (Z.of_nat W - 1))) as (q' & Hq' & Hlen');
      [by apply clip_in_range..|]. congruence. }
  pose proof (Hch _ _ _ H00) as L00. pose proof (Hch _ _ _ H01) as L01.
  pose proof (Hch _ _ _ H10) as L10. pose proof (Hch _ _ _ H11) as L11.
  rewrite Hfy, Hfx in H00.
  exists (Image.interpolate_pixel p00 p01 p10 p11
            (y - inject_Z (Qfloor y)) (x - inject_Z (Qfloor x))), p00.
  split; [done|]. split; [done|].
  apply interpolate_pixel_corner; [congruence..| |].
  - rewrite Hfy, Hy. ring.
  - rewrite Hfx, Hx. ring.
Qed.

(* ----------------------------------------------------------------- *)
(** ** The progress images callback                                   *)
(* ----------------------------------------------------------------- *)

Section classification_images.
Context {Img Fig Stack Summary : Type}.
Variable md5 : string → string.
Variable imdecode : string → res Img.
Variable imshow : Img → res Fig.
Variable ax_tricontour : Fig → tricontour → res Fig.
Variable savefig : Img → Fig → res Img.
Variable predict : list (list Q) → list (list Z) → list (list Q).
Variable sorted_tied : list (string * Img) → res (list (string * Img)).
Variable tf_stack : list Img → res Stack.
Variable stack_shape : Stack → list nat.
Variable summary_image : string → Stack → Z → nat → res Summary.

(** X29.  Every image of the record is drawn over its own points and
    predictions, image [i] over those that follow the points of the images
    before it; the images drawn are then sorted, stacked and written.  With
    hashes that are pairwise distinct, what is written for the epoch is the
    stack of the images in the order of their hashes, all of them
    ([max_outputs] is the first dimension of the stack), when the stack and
    the summary accept them. *)
Theorem on_epoch_end_draws_own_points
    (epoch : Z) (data : batch) (colours : list (Z * Z * Z)) (sizes : list nat) :
  data_n data = map Z.of_nat sizes →
  length (data_raw data) = length sizes →
  sum_list sizes ≤ length (data_px data) →
  sum_list sizes ≤ length (predict (data_X data) (data_G data)) →
  let drawn :=
    mapM (fun d : string * list (list Q) * list (list Q) =>
            ClassificationImages.mesh_image md5 imdecode imshow ax_tricontour
              savefig d.1.1 d.1.2 d.2 colours)
         (zip (zip (data_raw data) (chunks sizes (data_px data)))
              (chunks sizes (predict (data_X data) (data_G data)))) in
  ClassificationImages.on_epoch_end md5 imdecode imshow ax_tricontour savefig predict
    sorted_tied tf_stack stack_shape summary_image epoch data colours
  = (images ← drawn;
     ClassificationImages.write_images sorted_tied tf_stack stack_shape summary_image
       epoch images)
  ∧ ∀ images,
      drawn = Ok images →
      NoDup (map fst images) →
      ClassificationImages.on_epoch_end md5 imdecode imshow ax_tricontour savefig predict
        sorted_tied tf_stack stack_shape summary_image epoch data colours
      = (stack ← tf_stack (ClassificationImages.sorted_images images);
         max_outputs ← py_index (stack_shape stack) 0;
         summary_image "images" stack epoch max_outputs).
Proof.
  intros Hn Hraw Hpx Hpred drawn.
  assert (ClassificationImages.on_epoch_end md5 imdecode imshow ax_tricontour savefig predict
            sorted_tied tf_stack stack_shape summary_image epoch data colours
          = (images ← drawn;
             ClassificationImages.write_images sorted_tied tf_stack stack_shape summary_image
               epoch images)) as Hdrawn.
  { unfold ClassificationImages.on_epoch_end, drawn. rewrite Hn.
    f_equal. apply mapM_res_ext. apply Forall2_same_length_lookup_2.
    { rewrite length_enumerate, length_ranges, length_map, !length_zip, !length_chunks. lia. }
    intros i [j r] [[raw pxc] pc] Hi Hd.
    apply lookup_zip_with_Some in Hd as (? & ? & [= <- <-] & Hrp & Hpc).
    apply lookup_zip_with_Some in Hrp as (? & ? & [= <- <-] & Hrawi & Hpxc).
    assert (i < length sizes) as Hlt by (rewrite <- Hraw; by apply lookup_lt_Some in Hrawi).
    destruct (lookup_lt_is_Some_2 sizes i Hlt) as [n Hsize].
    rewrite (enumerate_lookup _ i _ (ranges_lookup _ i ltac:(by rewrite length_map))) in Hi.
    injection Hi as <- <-. cbn [fst snd].
    unfold py_index. rewrite Hrawi. cbn [mbind res_bind].
    rewrite (chunks_lookup sizes _ i n Hsize) in Hpxc.
    rewrite (chunks_lookup sizes _ i n Hsize) in Hpc.
    injection Hpxc as <-. injection Hpc as <-.
    pose proof (sum_list_take_S sizes i n Hsize) as HS.
    pose proof (sum_list_take_le sizes (S i)) as Hle.
    rewrite <- !fmap_take, !sum_Z_of_nat, HS.
    rewrite !py_slice_range by lia. done. }
  split; [exact Hdrawn|].
  intros images Himages Hnodup. rewrite Hdrawn, Himages. cbn [mbind res_bind].
  unfold ClassificationImages.write_images, ClassificationImages.sorted_by_hash.
  rewrite decide_True by done. done.
Qed.
End classification_images.

(** X30.  The images are written in the order of their hashes: whatever the order
    in which the images of the record were drawn, images with pairwise
    distinct hashes come out in the same order. *)
Theorem sorted_images_order_independent {Img : Type}
    (images images' : list (string * Img)) :
  images ≡ₚ images' →
  NoDup (map fst images) →
  ClassificationImages.sorted_images images = ClassificationImages.sorted_images images'
  ∧ StronglySorted ClassificationImages.hash_le (ClassificationImages.sorted images)
  ∧ ClassificationImages.sorted images ≡ₚ images.
Proof.
  intros Hperm Hnd.
  assert (Transitive (@ClassificationImages.hash_le Img)) as Htrans.
  { intros a b c. unfold ClassificationImages.hash_le. apply transitivity. }
  assert (Total (@ClassificationImages.hash_le Img)) as Htotal.
  { intros a b. unfold ClassificationImages.hash_le. apply total, _. }
  pose proof (StronglySorted_merge_sort ClassificationImages.hash_le images) as Hs.
  pose proof (StronglySorted_merge_sort ClassificationImages.hash_le images') as Hs'.
  pose proof (merge_sort_Permutation ClassificationImages.hash_le images) as Hp.
  pose proof (merge_sort_Permutation ClassificationImages.hash_le images') as Hp'.
  split; [|by split].
  unfold ClassificationImages.sorted_images, ClassificationImages.sorted. f_equal.
  apply (StronglySorted_unique_strong ClassificationImages.hash_le); [|done..|].
  - intros x1 x2 Hx1 Hx2 H12 H21. rewrite Hp in Hx1. rewrite Hp', <- Hperm in Hx2.
    assert (x1.1 = x2.1) as Hkey by (by apply (anti_symm String.le)).
    apply list_elem_of_lookup in Hx1 as [i Hi]. apply list_elem_of_lookup in Hx2 as [j Hj].
    assert (i = j) as ->; [|congruence].
    apply (NoDup_lookup _ i j x1.1 Hnd); rewrite list_lookup_fmap.
    + by rewrite Hi.
    + rewrite Hj. simpl. by rewrite Hkey.
  - by rewrite Hp, Hp'.
Qed.


(* ----------------------------------------------------------------- *)
(** ** The further properties on concrete inputs                      *)
(* ----------------------------------------------------------------- *)

(** Membership in a list of closed strings or keys is refuted entry by
    entry. *)
Ltac not_elem_of_closed :=
  let H := fresh in
  intros H; repeat (apply elem_of_cons in H as [H|H]; [discriminate H|]);
  by apply elem_of_nil in H.

Ltac NoDup_closed :=
  repeat (apply NoDup_cons; split; [not_elem_of_closed|]); apply NoDup_nil_2.



(** The exporter returned, so the indices of the variables were contiguous. *)
Lemma save_yaml_model_returned_two_convolutions :
  let variables : dict Z :=
    [("Network/Conv_1/Layer_0/Weights:0", 3%Z);
     ("Network/Conv_0/Layer_0/Weights:0", 1%Z);
     ("Tutor/Conv_0/Layer_0/Weights:0", 9%Z);
     ("Network/Conv_0/Layer_0/Biases:0", 2%Z);
     ("Network/Conv_1/Layer_0/Biases:0", 4%Z)] in
  let out := [[[("biases", 2%Z); ("weights", 1%Z)]]; [[("biases", 4%Z); ("weights", 3%Z)]]] in
  save_yaml_model variables = Ok out
  ∧ contiguous (length out) (fun c => length (default [] (out !! c))) (export_items variables).
Proof.
  intros variables out. split; [reflexivity|].
  apply (save_yaml_model_returns_only_contiguous variables out). reflexivity.
Defined.

(** A variable of the tutor does not change the exported model. *)
Lemma save_yaml_model_ignores_tutor_variable :
  let variables : dict Z :=
    [("Network/Conv_0/Layer_0/Weights:0", 1%Z);
     ("Network/Conv_0/Layer_0/Biases:0", 2%Z)] in
  parse_name "Tutor/Conv_0/Layer_0/Weights:0" = None
  ∧ save_yaml_model (dict_set variables "Tutor/Conv_0/Layer_0/Weights:0" 9%Z)
    = save_yaml_model variables.
Proof.
  intros variables. split; [reflexivity|].
  apply (save_yaml_model_ignores_other_names variables). reflexivity.
Defined.

(** The variables of one layer in two orders. *)
Lemma save_yaml_model_two_orders :
  let variables : dict Z :=
    [("Network/Conv_0/Layer_0/Weights:0", 1%Z);
     ("Network/Conv_0/Layer_0/Biases:0", 2%Z);
     ("Network/Conv_1/Layer_0/Weights:0", 3%Z)] in
  let variables' : dict Z :=
    [("Network/Conv_0/Layer_0/Biases:0", 2%Z);
     ("Network/Conv_0/Layer_0/Weights:0", 1%Z);
     ("Network/Conv_1/Layer_0/Weights:0", 3%Z)] in
  variables ≡ₚ variables'
  ∧ NoDup (map fst (export_items variables))
  ∧ save_yaml_model variables = save_yaml_model variables'.
Proof.
  intros variables variables'.
  assert (variables ≡ₚ variables') as Hperm by apply perm_swap.
  assert (NoDup (map fst (export_items variables))) as Hnodup.
  { vm_compute export_items. cbn [map fst]. NoDup_closed. }
  split; [done|]. split; [done|].
  by apply (save_yaml_model_order_independent variables variables').
Defined.
(** Two devices whose unweighted losses are 1 and 3. *)
Lemma merge_ops_two_devices_losses :
  let data := Batch [] [] [] [] [] [] [] in
  let bundle (u x t : Q) (tp : Z) : device_bundle :=
    Ops data [] [] (Losses (Fin u) (Fin x) (Fin t)) (Grads [] [])
        [("ball", Metric (Fin u) tp 1 0 2); ("Global", Metric (Fin x) tp 0 0 2)] in
  let device_ops := [bundle 1%Q 2%Q 4%Q 5%Z; bundle 3%Q 6%Q 8%Q 7%Z] in
  map (fun op : device_bundle => loss_u (op_loss op)) device_ops = map Fin [1; 3]%Q
  ∧ map (fun op : device_bundle => loss_x (op_loss op)) device_ops = map Fin [2; 6]%Q
  ∧ map (fun op : device_bundle => loss_t (op_loss op)) device_ops = map Fin [4; 8]%Q
  ∧ ∃ merged u x t,
      _merge_ops device_ops = Some merged
      ∧ op_loss merged = Losses (Fin u) (Fin x) (Fin t)
      ∧ (u == 2)%Q ∧ (x == 4)%Q ∧ (t == 6)%Q.
Proof.
  intros data bundle device_ops.
  split; [reflexivity|]. split; [reflexivity|]. split; [reflexivity|].
  destruct (_merge_ops device_ops) as [merged|] eqn:Hmerged; [|discriminate Hmerged].
  destruct (merge_ops_losses_are_means device_ops merged [1; 3]%Q [2; 6]%Q [4; 8]%Q)
    as (u & x & t & Hloss & Hu & Hx & Ht); [exact Hmerged|reflexivity..|].
  exists merged, u, x, t. split; [reflexivity|]. split; [exact Hloss|].
  split; [by rewrite Hu|]. split; [by rewrite Hx|by rewrite Ht].
Defined.


(** A structure that is one list of widths, and an empty one. *)
Lemma build_structures_flat_specs :
  let cfg :=
    {| network_classes := [("ball", (255, 0, 0)%Z); ("goal", (0, 255, 0)%Z)];
       network_structure := VRef 0; tutor_structure := None;
       tutor_threshold := 1 # 10; tutor_base_weight := 1 # 2; epochs := 1;
       validation_frequency := 2; save_frequency := 3 |} in
  build_structures cfg [[VInt 4; VInt 8]] = Raise AttributeError
  ∧ build_structures cfg [[]] = Raise IndexError.
Proof.
  intros cfg. split.
  - apply (build_structures_flat_spec_raises cfg [[VInt 4; VInt 8]] 0 [4; 8]%Z); reflexivity.
  - apply (build_structures_flat_spec_raises cfg [[]] 0 []); reflexivity.
Defined.
(** A validation frequency of 0: the first iteration trains once and stops at
    the modulo. *)
Lemma training_loop_validation_frequency_zero :
  let run_towers (vs : dict Q) (bs : list batch) :=
    (Losses (Fin 1) (Fin 1) (Fin 1),
     Grads [(Some 1%Q, "Network/Conv_0/Layer_0/Weights:0")] []) in
  let descent (x g : Q) := (x - g)%Q in
  let cfg :=
    {| network_classes := [("ball", (255, 0, 0)%Z); ("goal", (0, 255, 0)%Z)];
       network_structure := VRef 0; tutor_structure := None;
       tutor_threshold := 1 # 10; tutor_base_weight := 1 # 2; epochs := 1;
       validation_frequency := 0; save_frequency := 3 |} in
  let b := Batch [] [] [] [] [] [] [] in
  let st :=
    {| variables := [("Network/Conv_0/Layer_0/Weights:0", 5%Q)];
       global_step := 0; training_iterator := [b; b]; events := [];
       checkpoints := []; yaml_models := [] |} in
  1 ≤ length (training_iterator st)
  ∧ (validation_frequency cfg = 0%Z ∨ save_frequency cfg = 0%Z)
  ∧ ∃ st',
      training_loop run_towers descent descent cfg 1 st = (Raise ZeroDivisionError, st')
      ∧ global_step st' = 1%Z
      ∧ training_iterator st' = [b]
      ∧ checkpoints st' = []
      ∧ yaml_models st' = [].
Proof.
  intros run_towers descent cfg b st.
  split; [simpl; lia|]. split; [by left|].
  apply (training_loop_zero_frequency run_towers descent descent cfg 1 st); [simpl; lia|by left].
Defined.

(** Five batches on two devices: two training steps, then the iterator is
    exhausted with one batch left over. *)
Lemma training_loop_five_batches :
  let run_towers (vs : dict Q) (bs : list batch) :=
    (Losses (Fin 1) (Fin 1) (Fin 1),
     Grads [(Some 1%Q, "Network/Conv_0/Layer_0/Weights:0")] []) in
  let descent (x g : Q) := (x - g)%Q in
  let cfg :=
    {| network_classes := [("ball", (255, 0, 0)%Z); ("goal", (0, 255, 0)%Z)];
       network_structure := VRef 0; tutor_structure := None;
       tutor_threshold := 1 # 10; tutor_base_weight := 1 # 2; epochs := 1;
       validation_frequency := 5; save_frequency := 7 |} in
  let b := Batch [] [] [] [] [] [] [] in
  let st :=
    {| variables := [("Network/Conv_0/Layer_0/Weights:0", 5%Q)];
       global_step := 0; training_iterator := [b; b; b; b; b]; events := [];
       checkpoints := []; yaml_models := [] |} in
  0 < 2
  ∧ (- 2 ^ 31 ≤ global_step st)%Z
  ∧ (global_step st + Z.of_nat (length (training_iterator st) `div` 2) ≤ int32_max)%Z
  ∧ ∃ st',
      training_loop run_towers descent descent cfg 2 st
      = (Raise (NameError "validation_summary"), st')
      ∧ global_step st' = 2%Z
      ∧ training_iterator st' = [].
Proof.
  intros run_towers descent cfg b st.
  assert ((- 2 ^ 31 ≤ global_step st)%Z) as Hlo by (simpl; lia).
  assert ((global_step st + Z.of_nat (length (training_iterator st) `div` 2) ≤ int32_max)%Z)
    as Hhi by (unfold int32_max; simpl; lia).
  split; [lia|]. split; [done|]. split; [done|].
  exists (training_loop run_towers descent descent cfg 2 st).2.
  assert (training_loop run_towers descent descent cfg 2 st
          = (Raise (NameError "validation_summary"),
             (training_loop run_towers descent descent cfg 2 st).2)) as Hloop
    by (vm_compute; reflexivity).
  split; [exact Hloop|].
  apply (training_loop_steps run_towers descent descent cfg 2 st _ (Nat.lt_0_succ 1) Hlo Hhi Hloop).
Defined.

(** Four batches on one device with a checkpoint at every second step. *)
Lemma training_loop_checkpoint_every_second_step :
  let run_towers (vs : dict Q) (bs : list batch) :=
    (Losses (Fin 1) (Fin 1) (Fin 1),
     Grads [(Some 1%Q, "Network/Conv_0/Layer_0/Weights:0")] []) in
  let descent (x g : Q) := (x - g)%Q in
  let cfg :=
    {| network_classes := [("ball", (255, 0, 0)%Z); ("goal", (0, 255, 0)%Z)];
       network_structure := VRef 0; tutor_structure := None;
       tutor_threshold := 1 # 10; tutor_base_weight := 1 # 2; epochs := 1;
       validation_frequency := 5; save_frequency := 2 |} in
  let b := Batch [] [] [] [] [] [] [] in
  let st :=
    {| variables := [("Network/Conv_0/Layer_0/Weights:0", 5%Q)];
       global_step := 0; training_iterator := [b; b; b; b]; events := [];
       checkpoints := []; yaml_models := [] |} in
  0 < 1
  ∧ ∃ r st' new new_y,
      training_loop run_towers descent descent cfg 1 st = (r, st')
      ∧ checkpoints st' = checkpoints st ++ new
      ∧ yaml_models st' = yaml_models st ++ new_y
      ∧ Forall (fun c : Z * dict saved =>
                  save_frequency cfg ≠ 0%Z
                  ∧ (c.1 `mod` save_frequency cfg)%Z = 0%Z
                  ∧ dict_get c.2 "global_step:0" = Some (SavedInt c.1)) new
      ∧ (map fst new_y = map fst new
         ∨ r = Raise IndexError ∧ ∃ g : Z, map fst new = map fst new_y ++ [g]).
Proof.
  intros run_towers descent cfg b st. split; [lia|].
  destruct (training_loop run_towers descent descent cfg 1 st) as [r st'] eqn:Hloop.
  destruct (training_loop_checkpoints run_towers descent descent cfg 1 st st' r)
    as (new & new_y & H); [lia|exact Hloop|].
  exists r, st', new, new_y. split; [reflexivity|exact H].
Defined.

(** The checkpoints and the models of that run are those of steps 2 and 4. *)
Example training_loop_checkpoint_every_second_step_value :
  let run_towers (vs : dict Q) (bs : list batch) :=
    (Losses (Fin 1) (Fin 1) (Fin 1),
     Grads [(Some 1%Q, "Network/Conv_0/Layer_0/Weights:0")] []) in
  let descent (x g : Q) := (x - g)%Q in
  let cfg :=
    {| network_classes := [("ball", (255, 0, 0)%Z); ("goal", (0, 255, 0)%Z)];
       network_structure := VRef 0; tutor_structure := None;
       tutor_threshold := 1 # 10; tutor_base_weight := 1 # 2; epochs := 1;
       validation_frequency := 5; save_frequency := 2 |} in
  let b := Batch [] [] [] [] [] [] [] in
  let st :=
    {| variables := [("Network/Conv_0/Layer_0/Weights:0", 5%Q)];
       global_step := 0; training_iterator := [b; b; b; b]; events := [];
       checkpoints := []; yaml_models := [] |} in
  let run := training_loop run_towers descent descent cfg 1 st in
  run.1 = Raise (NameError "validation_summary")
  ∧ map fst (checkpoints run.2) = [2%Z; 4%Z]
  ∧ map fst (yaml_models run.2) = [2%Z; 4%Z].
Proof. repeat split. Qed.

(** Three points of which the second is masked out by its alpha; the network
    returns the first two features of a point as its logits and the tutor one
    half everywhere.  The two points that are kept are labelled ball and
    goal. *)
Lemma device_graph_three_points :
  let softmax (X : list (list Q)) := X in
  let cross_entropy (X Y : list (list Q)) := map (fun _ => (7 # 10)) X in
  let build_network (scope : string) (vars : dict Q) (X : list (list Q))
                    (G structure : list (list Z)) : list (list Q) :=
    if decide (scope = "Tutor") then map (fun _ => [1 # 2]) X else map (take 2) X in
  let sigmoid (x : Q) := x in
  let gradients (vars : dict Q) (data : batch) : list grad_entry := [] in
  let cfg :=
    {| network_classes := [("ball", (255, 0, 0)%Z); ("goal", (0, 255, 0)%Z)];
       network_structure := VRef 0; tutor_structure := None;
       tutor_threshold := 1 # 10; tutor_base_weight := 1 # 2; epochs := 1;
       validation_frequency := 2; save_frequency := 3 |} in
  let data :=
    {| data_X := [[2; 1; 5]; [0; 3; 5]; [1; 0; 5]]%Q; data_Y := [[1; 0]; [0; 1]; [0; 1]]%Q;
       data_G := []; data_W := [1; 0; 1]%Q; data_n := [3%Z]; data_px := [];
       data_raw := ["a"] |} in
  let T0 := [1 # 2; 1 # 2; 1 # 2]%Q in
  let X' := [[2; 1]; [1; 0]]%Q in
  let T' := [1 # 2; 1 # 2]%Q in
  let Y' := [[1; 0]; [0; 1]]%Q in
  squeeze (build_network "Tutor" [] (data_X data) (data_G data) [[1%Z]]) = Some T0
  ∧ length (data_W data) = length (build_network "Network" [] (data_X data) (data_G data) [[2%Z]])
  ∧ length (data_W data) = length T0
  ∧ length (data_W data) = length (data_Y data)
  ∧ masked (data_W data) (data_Y data) = Y'
  ∧ Forall (fun t => (0 < t + tutor_base_weight cfg)%Q) T'
  ∧ (∃ i, i < length (network_classes cfg) ∧ has_member Y' i)
  ∧ ∃ b,
      _device_graph softmax cross_entropy build_network sigmoid gradients gradients
        [] data [[2%Z]] [[1%Z]] cfg = Some b
      ∧ op_X b = X'
      ∧ op_T b = T'
      ∧ length (op_X b) = length (op_T b)
      ∧ (∃ x t,
           _loss softmax cross_entropy cfg X' T' Y' = Some (loss_u (op_loss b), x, t)
           ∧ loss_t (op_loss b) = Fin t
           ∧ loss_x (op_loss b) = Fin x
           ∧ (0 < active_classes cfg T' Y')%Z)
      ∧ _metrics softmax cross_entropy X' Y' (network_classes cfg) = Some (op_metrics b).
Proof.
  intros softmax cross_entropy build_network sigmoid gradients cfg data T0 X' T' Y'.
  assert (Forall (fun t => (0 < t + tutor_base_weight cfg)%Q) T') as Hpositive.
  { repeat constructor. }
  assert (∃ i, i < length (network_classes cfg) ∧ has_member Y' i) as Hlabelled.
  { exists 0. split; [simpl; lia|]. exists 0, [1; 0]%Q.
    split; [reflexivity|]. by intros H; vm_compute in H. }
  split; [reflexivity|]. split; [reflexivity|]. split; [reflexivity|]. split; [reflexivity|].
  split; [reflexivity|]. split; [exact Hpositive|]. split; [exact Hlabelled|].
  eexists. split; [reflexivity|].
  edestruct (device_graph_masks_points softmax cross_entropy build_network sigmoid gradients
               gradients [] data [[2%Z]] [[1%Z]] cfg T0)
    as (HX & HT & Hlen & (x & t & Hloss & Ht & Hdomain) & Hmetrics);
    [reflexivity..|].
  destruct (Hdomain Hpositive Hlabelled) as (Hx & Hactive & _).
  split; [exact HX|]. split; [exact HT|]. split; [exact Hlen|].
  split; [by exists x, t|]. exact Hmetrics.
Defined.

(** The same graph on a batch whose points are all masked out. *)
Lemma device_graph_no_points :
  let softmax (X : list (list Q)) := X in
  let cross_entropy (X Y : list (list Q)) := map (fun _ => (7 # 10)) X in
  let build_network (scope : string) (vars : dict Q) (X : list (list Q))
                    (G structure : list (list Z)) : list (list Q) :=
    if decide (scope = "Tutor") then map (fun _ => [1 # 2]) X else map (take 2) X in
  let sigmoid (x : Q) := x in
  let gradients (vars : dict Q) (data : batch) : list grad_entry := [] in
  let cfg :=
    {| network_classes := [("ball", (255, 0, 0)%Z); ("goal", (0, 255, 0)%Z)];
       network_structure := VRef 0; tutor_structure := None;
       tutor_threshold := 1 # 10; tutor_base_weight := 1 # 2; epochs := 1;
       validation_frequency := 2; save_frequency := 3 |} in
  let data :=
    {| data_X := [[2; 1; 5]; [0; 3; 5]]%Q; data_Y := [[1; 0]; [0; 1]]%Q;
       data_G := []; data_W := [0; -1]%Q; data_n := [2%Z]; data_px := [];
       data_raw := ["a"] |} in
  squeeze (build_network "Tutor" [] (data_X data) (data_G data) [[1%Z]]) = Some [1 # 2; 1 # 2]%Q
  ∧ Forall (fun w => (w <= 0)%Q) (data_W data)
  ∧ network_classes cfg ≠ []
  ∧ cross_entropy [] [] = []
  ∧ ∃ b,
      _device_graph softmax cross_entropy build_network sigmoid gradients gradients
        [] data [[2%Z]] [[1%Z]] cfg = Some b
      ∧ op_X b = []
      ∧ op_T b = []
      ∧ op_loss b = Losses NaN (Fin 0) (Fin 0)
      ∧ ∀ k m, dict_get (op_metrics b) k = Some m →
               m_tp m = 0%Z ∧ m_tn m = 0%Z ∧ m_fp m = 0%Z ∧ m_fn m = 0%Z.
Proof.
  intros softmax cross_entropy build_network sigmoid gradients cfg data.
  assert (Forall (fun w => (w <= 0)%Q) (data_W data)) as HW.
  { repeat constructor; by intros H; vm_compute in H. }
  split; [reflexivity|]. split; [exact HW|]. split; [done|]. split; [reflexivity|].
  apply (device_graph_fully_masked softmax cross_entropy build_network sigmoid gradients
           gradients [] data [[2%Z]] [[1%Z]] cfg [1 # 2; 1 # 2]%Q); [reflexivity|exact HW|done|reflexivity].
Defined.

(** The summaries of the class ball in a batch of three points. *)
Lemma validation_summary_three_points :
  let title (k : string) := k in
  let softmax (X : list (list Q)) := X in
  let cross_entropy (X Y : list (list Q)) := map (fun _ => (7 # 10)) X in
  let X := [[2; 1]; [0; 3]; [1; 0]]%Q in
  let Y := [[1; 0]; [0; 1]; [0; 1]]%Q in
  let classes := [("ball", (255, 0, 0)%Z); ("goal", (0, 255, 0)%Z)] in
  ∃ ms m,
    _metrics softmax cross_entropy X Y classes = Some ms
    ∧ (("ball", m) ∈ ms)
    ∧ ∃ precision recall,
        ((title "ball", "Precision", precision) ∈ validation_summary_op title ms)
        ∧ ((title "ball", "Recall", recall) ∈ validation_summary_op title ms)
        ∧ ((m_tp m + m_fp m)%Z = 0%Z → precision = NaN)
        ∧ ((m_tp m + m_fp m)%Z ≠ 0%Z → ∃ q, precision = Fin q ∧ (0 <= q <= 1)%Q)
        ∧ ((m_tp m + m_fn m)%Z = 0%Z → recall = NaN)
        ∧ ((m_tp m + m_fn m)%Z ≠ 0%Z → ∃ q, recall = Fin q ∧ (0 <= q <= 1)%Q).
Proof.
  intros title softmax cross_entropy X Y classes.
  eexists _, _. split; [reflexivity|].
  assert (∀ A (x : A) l, x ∈ x :: l) as Hhead by (intros; left).
  split; [apply Hhead|].
  eapply (validation_summary_precision_recall title softmax cross_entropy X Y classes);
    [reflexivity|apply Hhead].
Defined.

(** Two images of four points and one point; a figure is the list of the
    contours drawn on it and an image the number of them. *)
Lemma mesh_drawer_two_images :
  let shape (img : nat) := [1] in
  let imdecode (raw : string) : res nat := Ok 0 in
  let imshow (img : nat) : res (list tricontour) := Ok [] in
  let ax_tricontour (fig : list tricontour) (c : tricontour) := Ok (fig ++ [c]) in
  let savefig (img : nat) (fig : list tricontour) : res nat := Ok (length fig) in
  let classes := [("ball", (255, 0, 0)%Z); ("goal", (0, 255, 0)%Z)] in
  let raws := ["a"; "b"] in
  let pxs := [[(0, 0); (0, 1); (1, 0); (1, 1)]; [(2, 2)]]%Q in
  let sizes := [4; 1] in
  let X := [[1; 0]; [0; 1]; [1; 0]; [0; 1]; [1; 0]]%Q in
  let A := [1; 0; 1; 0; 1]%Q in
  length raws = length sizes
  ∧ length pxs = length sizes
  ∧ Forall (fun n => 1 ≤ n) sizes
  ∧ sum_list sizes ≤ length X
  ∧ sum_list sizes ≤ length A
  ∧ MeshDrawer.mesh_image shape imdecode imshow ax_tricontour savefig classes raws pxs
      (map Z.of_nat sizes) X
    = mapM (fun d : string * list (Q * Q) * list (list Q) =>
              MeshDrawer.draw_mesh imdecode imshow ax_tricontour savefig classes d.1.1 d.1.2 d.2)
           (zip (zip raws pxs) (chunks sizes X))
      ≫= MeshDrawer.np_stack shape
  ∧ MeshDrawer.tutor_image shape imdecode imshow ax_tricontour savefig raws pxs
      (map Z.of_nat sizes) A
    = mapM (fun d : string * list (Q * Q) * list Q =>
              MeshDrawer.draw_tutor imdecode imshow ax_tricontour savefig d.1.1 d.1.2 d.2)
           (zip (zip raws pxs) (chunks sizes A))
      ≫= MeshDrawer.np_stack shape.
Proof.
  intros shape imdecode imshow ax_tricontour savefig classes raws pxs sizes X A.
  assert (Forall (fun n => 1 ≤ n) sizes) as Hsizes by (repeat constructor).
  split; [reflexivity|]. split; [reflexivity|]. split; [exact Hsizes|].
  split; [simpl; lia|]. split; [simpl; lia|].
  destruct (mesh_drawer_draws_own_points shape imdecode imshow ax_tricontour savefig classes
              raws pxs sizes eq_refl eq_refl Hsizes X A) as [Hmesh Htutor].
  split; [apply Hmesh|apply Htutor]; simpl; lia.
Defined.

(** A cycle of ten batches between the rates 1/1000 and 1/100, then twenty
    batches of decay to 1/10000, started at batch 0: the rates at the batches
    0, 10 and 30. *)
Lemma one_cycle_rate_batches_0_10_30 :
  let self := OneCycle.Make OneCycle.PNone (1 # 1000) (1 # 100) (1 # 10000) 10 20 (Some 0%Z) in
  let m := OneCycle.Model 0 false in
  (0 < OneCycle.cycle_batches self)%Z
  ∧ (0 < OneCycle.decay_batches self)%Z
  ∧ (OneCycle.cycle_batches self + OneCycle.decay_batches self < 2 ^ 53)%Z
  ∧ (Qabs (OneCycle.max_lr self - OneCycle.min_lr self) <= 2 ^ 1023)%Q
  ∧ ∃ q0 q1 q2,
      OneCycle.rate_at 0 (self, m) = Some q0
      ∧ OneCycle.rate_at 10 (self, m) = Some q1
      ∧ OneCycle.rate_at 30 (self, m) = Some q2
      ∧ (q0 == 1 # 1000)%Q ∧ (q1 == 1 # 1000)%Q ∧ (q2 == 1 # 10000)%Q.
Proof.
  intros self m.
  assert ((Qabs (OneCycle.max_lr self - OneCycle.min_lr self) <= 2 ^ 1023)%Q) as Hfinite
    by (by intros H; vm_compute in H).
  split; [simpl; lia|]. split; [simpl; lia|]. split; [simpl; lia|]. split; [exact Hfinite|].
  apply (one_cycle_rate_endpoints self m 0); [reflexivity|simpl; lia..|exact Hfinite].
Defined.

(** The call at batch 30, the last of the decay, stops the training. *)
Lemma one_cycle_stops_at_batch_30 :
  let self := OneCycle.Make OneCycle.PNone (1 # 1000) (1 # 100) (1 # 10000) 10 20 (Some 0%Z) in
  let m := OneCycle.Model 0 false in
  ∃ logs self' m',
    OneCycle.on_train_batch_end 30 None (self, m) = (Ok logs, (self', m'))
    ∧ OneCycle.learning_rate self' = OneCycle.PFloat (OneCycle.optimizer_lr m')
    ∧ OneCycle.stop_training m' = true.
Proof.
  intros self m.
  destruct (OneCycle.on_train_batch_end 30 None (self, m)) as [r [self' m']] eqn:Hcall.
  pose proof (one_cycle_stops_after_decay 30 None self self' m m' r Hcall) as Hstop.
  destruct r as [logs|e]; [|discriminate Hcall].
  exists logs, self', m'. split; [reflexivity|]. exact Hstop.
Defined.

(** A cycle of no batches. *)
Lemma one_cycle_no_cycle_batches :
  let self := OneCycle.Make OneCycle.PNone (1 # 1000) (1 # 100) (1 # 10000) 0 20 None in
  let m := OneCycle.Model 0 false in
  OneCycle.cycle_batches self = 0%Z
  ∧ ∃ self',
      OneCycle.on_train_batch_end 5 None (self, m) = (Raise ZeroDivisionError, (self', m))
      ∧ OneCycle.learning_rate self' = OneCycle.learning_rate self
      ∧ OneCycle.start_step self' = Some 5%Z.
Proof.
  intros self m. split; [reflexivity|].
  apply (one_cycle_zero_lengths_raise 5 None self m). by left.
Defined.

(** An image of two rows and two columns with one channel; the first
    coordinate lies between the four pixels, the second outside the image:
    every coordinate gets a pixel of one channel. *)
Lemma interpolate_gather_two_by_two_total :
  let img := [[[0]; [1]]; [[2]; [3]]]%Q in
  let C := [(1 # 2, 1 # 2); (5, -3)]%Q in
  Image.rectangular 2 2 1 img
  ∧ 0 < 2
  ∧ ∃ out,
      Image._interpolate_gather img C = Some out
      ∧ length out = length C
      ∧ Forall (fun pixel => length pixel = 1) out.
Proof.
  intros img C.
  assert (Image.rectangular 2 2 1 img) as Hrect.
  { split; [reflexivity|]. repeat constructor. }
  split; [exact Hrect|]. split; [lia|].
  apply (interpolate_gather_total img 2 2 1 C); [exact Hrect|lia..].
Defined.

(** The same image sampled at the pixel of row 1 and column 0. *)
Lemma interpolate_gather_two_by_two_pixel :
  let img := [[[0]; [1]]; [[2]; [3]]]%Q in
  let C := [(1 # 2, 1 # 2); (1, 0)]%Q in
  Image.rectangular 2 2 1 img
  ∧ C !! 1 = Some (1, 0)%Q
  ∧ (1 == inject_Z 1)%Q ∧ (0 == inject_Z 0)%Q
  ∧ ∃ out p,
      Image._interpolate_gather img C = Some out
      ∧ out !! 1 = Some p
      ∧ Forall2 Qeq p [2%Q].
Proof.
  intros img C.
  assert (Image.rectangular 2 2 1 img) as Hrect.
  { split; [reflexivity|]. repeat constructor. }
  split; [exact Hrect|]. split; [reflexivity|]. split; [reflexivity|]. split; [reflexivity|].
  destruct (Image._interpolate_gather img C) as [out|] eqn:Hout; [|discriminate Hout].
  destruct (interpolate_gather_exact_on_pixels img 2 2 1 C out 1 1 0 1 0 Hrect Hout)
    as (p & pixel & Hp & Hpixel & Heq); [reflexivity|reflexivity|reflexivity|lia|lia|].
  injection Hpixel as <-. by exists out, p.
Defined.

(** The same image sampled at row 5 and column -3, outside the image: the
    pixel of the last row and the first column. *)
Lemma interpolate_gather_two_by_two_outside :
  let img := [[[0]; [1]]; [[2]; [3]]]%Q in
  let C := [(1 # 2, 1 # 2); (5, -3)]%Q in
  Image.rectangular 2 2 1 img
  ∧ C !! 1 = Some (5, -3)%Q
  ∧ (5 == inject_Z 5)%Q ∧ (-3 == inject_Z (-3))%Q
  ∧ (- 2 ^ 31 <= 5 < 2 ^ 31)%Z ∧ (- 2 ^ 31 <= -3 < 2 ^ 31)%Z
  ∧ Image.gather_pixel img (Image.clip_by_value 5 0 (2 - 1), Image.clip_by_value (-3) 0 (2 - 1))
    = Some [2%Q]
  ∧ ∃ out p,
      Image._interpolate_gather img C = Some out
      ∧ out !! 1 = Some p
      ∧ Forall2 Qeq p [2%Q].
Proof.
  intros img C.
  assert (Image.rectangular 2 2 1 img) as Hrect.
  { split; [reflexivity|]. repeat constructor. }
  split; [exact Hrect|]. split; [reflexivity|]. split; [reflexivity|]. split; [reflexivity|].
  split; [lia|]. split; [lia|]. split; [reflexivity|].
  destruct (Image._interpolate_gather img C) as [out|] eqn:Hout; [|discriminate Hout].
  destruct (interpolate_gather_clamps_to_edge img 2 2 1 C out 1 5 (-3) 5 (-3) Hrect)
    as (p & pixel & Hp & Hpixel & Heq); [lia|lia|exact Hout|reflexivity..|lia|lia|].
  injection Hpixel as <-. by exists out, p.
Defined.

(** A batch of two images of two points and one point; the hash of a file is
    the file, a figure the list of its contours, an image their number, the
    stack the list of the images and the summary what is handed to the
    writer. *)
Lemma on_epoch_end_two_images :
  let md5 (raw : string) := raw in
  let imdecode (raw : string) : res nat := Ok (String.length raw) in
  let imshow (img : nat) : res (list tricontour) := Ok [] in
  let ax_tricontour (fig : list tricontour) (c : tricontour) := Ok (fig ++ [c]) in
  let savefig (img : nat) (fig : list tricontour) : res nat := Ok (img + length fig) in
  let predict (X : list (list Q)) (G : list (list Z)) := X in
  let sorted_tied (images : list (string * nat)) : res (list (string * nat)) :=
    Raise ValueError in
  let tf_stack (images : list nat) : res (list nat) := Ok images in
  let stack_shape (stack : list nat) := [length stack] in
  let summary_image (name : string) (stack : list nat) (step : Z) (max_outputs : nat)
      : res (string * list nat * Z * nat) := Ok (name, stack, step, max_outputs) in
  let colours := [(255, 0, 0)%Z; (0, 255, 0)%Z] in
  let data :=
    {| data_X := [[1; 0]; [0; 1]; [1; 0]]%Q; data_Y := []; data_G := []; data_W := [];
       data_n := [2%Z; 1%Z]; data_px := [[0; 0]; [0; 1]; [1; 1]]%Q;
       data_raw := ["bb"; "a"] |} in
  let sizes := [2; 1] in
  let images := [("bb", 2); ("a", 1)] in
  data_n data = map Z.of_nat sizes
  ∧ length (data_raw data) = length sizes
  ∧ sum_list sizes ≤ length (data_px data)
  ∧ sum_list sizes ≤ length (predict (data_X data) (data_G data))
  ∧ mapM (fun d : string * list (list Q) * list (list Q) =>
            ClassificationImages.mesh_image md5 imdecode imshow ax_tricontour savefig
              d.1.1 d.1.2 d.2 colours)
         (zip (zip (data_raw data) (chunks sizes (data_px data)))
              (chunks sizes (predict (data_X data) (data_G data))))
    = Ok images
  ∧ NoDup (map fst images)
  ∧ ClassificationImages.on_epoch_end md5 imdecode imshow ax_tricontour savefig predict
      sorted_tied tf_stack stack_shape summary_image 7 data colours
    = Ok ("images", [1; 2], 7%Z, 2).
Proof.
  intros md5 imdecode imshow ax_tricontour savefig predict sorted_tied tf_stack stack_shape
    summary_image colours data sizes images.
  assert (NoDup (map fst images)) as Hnodup by (cbn [map fst images]; NoDup_closed).
  split; [reflexivity|]. split; [reflexivity|]. split; [simpl; lia|]. split; [simpl; lia|].
  split; [reflexivity|]. split; [exact Hnodup|].
  destruct (on_epoch_end_draws_own_points md5 imdecode imshow ax_tricontour savefig predict
              sorted_tied tf_stack stack_shape summary_image 7 data colours sizes)
    as [_ Hwritten]; [reflexivity|reflexivity|simpl; lia|simpl; lia|].
  rewrite (Hwritten images eq_refl Hnodup). reflexivity.
Defined.

(** Two images in the two orders in which they may have been drawn. *)
Lemma sorted_images_two_orders :
  let images := [("b", 1); ("a", 2)] in
  let images' := [("a", 2); ("b", 1)] in
  images ≡ₚ images'
  ∧ NoDup (map fst images)
  ∧ ClassificationImages.sorted_images images = ClassificationImages.sorted_images images'
  ∧ StronglySorted ClassificationImages.hash_le (ClassificationImages.sorted images)
  ∧ ClassificationImages.sorted images ≡ₚ images.
Proof.
  intros images images'.
  assert (images ≡ₚ images') as Hperm by apply perm_swap.
  assert (NoDup (map fst images)) as Hnodup by (cbn [map fst images]; NoDup_closed).
  split; [exact Hperm|]. split; [exact Hnodup|].
  by apply (sorted_images_order_independent images images').
Defined.
